(** * GEAR rule validation engine (cmd/validate.go): a shallow embedding

  The development follows the Go source of the [validate] command:
  the tree loader [parseProject], the six rule checkers, and the
  reporting loop of [validateProject].  Go maps are [gmap]s, the
  process-wide variables ([excludeDirs], [globalFileSet],
  [externalPackageCache]) are threaded explicitly, and the iteration
  order of every [range] over a map is drawn from an oracle. *)

From Stdlib Require Import ZArith Lia Permutation Ascii.
From Stdlib Require Import DecimalString.
From stdpp Require Import base gmap strings list pretty.

Set Warnings "-register-all".

Open Scope Z_scope.

(** ** Runes: the parts of [unicode/utf8] and [unicode] behind
    [strings.TrimSpace] and [token.IsExported]

    A Go string is a sequence of bytes, here a [string] of 8-bit
    characters; a rune is a number. *)

(** [s[i:]] and [s[:i]] *)
Definition sliceFrom (i : nat) (s : string) : string :=
  String.substring i (String.length s - i) s.
Definition sliceTo (i : nat) (s : string) : string :=
  String.substring 0 i s.

(** [s[i]] as a number (0 beyond the end, where no caller looks). *)
Definition byteAt (s : string) (i : nat) : Z :=
  match String.get i s with
  | Some c => Z.of_N (Ascii.N_of_ascii c)
  | None => 0
  end.

Module utf8.

Definition RuneError : Z := 0xFFFD.
Definition RuneSelf : Z := 0x80.
Definition UTFMax : nat := 4.

Definition locb : Z := 0x80.
Definition hicb : Z := 0xBF.
Definition maskx : Z := 0x3F.
Definition mask2 : Z := 0x1F.
Definition mask3 : Z := 0x0F.
Definition mask4 : Z := 0x07.

Definition between (lo hi b : Z) : bool := (lo <=? b) && (b <=? hi).

(** The tables [first] and [acceptRanges] for a leading byte that is
    not ASCII: the width of the encoding it starts and the range its
    second byte must lie in; [None] for a byte that starts no
    encoding. *)
Definition first (s0 : Z) : option (nat * Z * Z) :=
  if between 0xC2 0xDF s0 then Some (2%nat, locb, hicb)
  else if s0 =? 0xE0 then Some (3%nat, 0xA0, hicb)
  else if between 0xE1 0xEC s0 then Some (3%nat, locb, hicb)
  else if s0 =? 0xED then Some (3%nat, locb, 0x9F)
  else if between 0xEE 0xEF s0 then Some (3%nat, locb, hicb)
  else if s0 =? 0xF0 then Some (4%nat, 0x90, hicb)
  else if between 0xF1 0xF3 s0 then Some (4%nat, locb, hicb)
  else if s0 =? 0xF4 then Some (4%nat, locb, 0x8F)
  else None.

(** [utf8.DecodeRuneInString(s)]: the first rune of [s] and its width
    in bytes; [(RuneError, 0)] for the empty string and
    [(RuneError, 1)] for an encoding that is invalid or cut short. *)
Definition DecodeRuneInString (s : string) : Z * nat :=
  let n := String.length s in
  if (n <? 1)%nat then (RuneError, 0%nat)
  else
    let s0 := byteAt s 0 in
    if s0 <? RuneSelf then (s0, 1%nat)
    else
      match first s0 with
      | None => (RuneError, 1%nat)
      | Some (sz, lo, hi) =>
        if (n <? sz)%nat then (RuneError, 1%nat)
        else
          let s1 := byteAt s 1 in
          if (s1 <? lo) || (hi <? s1) then (RuneError, 1%nat)
          else if (sz <=? 2)%nat
          then (Z.lor (Z.shiftl (Z.land s0 mask2) 6) (Z.land s1 maskx), 2%nat)
          else
            let s2 := byteAt s 2 in
            if (s2 <? locb) || (hicb <? s2) then (RuneError, 1%nat)
            else if (sz <=? 3)%nat
            then (Z.lor (Z.lor (Z.shiftl (Z.land s0 mask3) 12)
                               (Z.shiftl (Z.land s1 maskx) 6))
                        (Z.land s2 maskx), 3%nat)
            else
              let s3 := byteAt s 3 in
              if (s3 <? locb) || (hicb <? s3) then (RuneError, 1%nat)
              else (Z.lor (Z.lor (Z.lor (Z.shiftl (Z.land s0 mask4) 18)
                                        (Z.shiftl (Z.land s1 maskx) 12))
                                 (Z.shiftl (Z.land s2 maskx) 6))
                          (Z.land s3 maskx), 4%nat)
      end.

(** [utf8.RuneStart(b)]: [b] is not a continuation byte. *)
Definition RuneStart (b : Z) : bool := negb (Z.land b 0xC0 =? 0x80).

(** The loop of [DecodeLastRuneInString]: back from [start] to a byte
    that could start a rune, not further than [lim]. *)
Fixpoint backToStart (fuel : nat) (s : string) (start lim : Z) : Z :=
  match fuel with
  | O => start
  | S fuel' =>
    if start <? lim then start
    else if RuneStart (byteAt s (Z.to_nat start)) then start
    else backToStart fuel' s (start - 1) lim
  end.

(** [utf8.DecodeLastRuneInString(s)]: the last rune of [s] and its
    width.  The loop runs at most [UTFMax - 1] times. *)
Definition DecodeLastRuneInString (s : string) : Z * nat :=
  let end_ := Z.of_nat (String.length s) in
  if end_ =? 0 then (RuneError, 0%nat)
  else
    let start := end_ - 1 in
    let r := byteAt s (Z.to_nat start) in
    if r <? RuneSelf then (r, 1%nat)
    else
      let lim := Z.max 0 (end_ - Z.of_nat UTFMax) in
      let start := backToStart UTFMax s (start - 1) lim in
      let start := Z.max 0 start in
      let '(r, size) := DecodeRuneInString (sliceFrom (Z.to_nat start) s) in
      if start + Z.of_nat size =? end_ then (r, size) else (RuneError, 1%nat).

End utf8.

Module unicode.

Definition MaxLatin1 : Z := 0xFF.

(** An entry of a [RangeTable]: [Lo], [Hi] and [Stride]. *)
Definition Range : Type := Z * Z * Z.

Definition inRange (r : Z) (e : Range) : bool :=
  let '(lo, hi, stride) := e in
  (lo <=? r) && (r <=? hi) && ((r - lo) mod stride =? 0).

(** [unicode.Is(table, r)] *)
Definition Is (table : list Range) (r : Z) : bool := existsb (inRange r) table.

(** [unicode.White_Space] *)
Definition White_Space : list Range :=
  [ (0x0009, 0x000D, 1);
    (0x0020, 0x0085, 101);
    (0x00A0, 0x1680, 5600);
    (0x2000, 0x200A, 1);
    (0x2028, 0x2029, 1);
    (0x202F, 0x205F, 48);
    (0x3000, 0x3000, 1) ].

(** [unicode.IsSpace(r)] *)
Definition IsSpace (r : Z) : bool :=
  if r <=? MaxLatin1 then
    (r =? 0x09) || (r =? 0x0A) || (r =? 0x0B) || (r =? 0x0C) || (r =? 0x0D) ||
    (r =? 0x20) || (r =? 0x85) || (r =? 0xA0)
  else Is White_Space r.

(** [unicode.Upper]: the code points of the general category Lu, in
    Unicode 15.0.0, the version of the tables of Go 1.21 to 1.24. *)
Definition Upper : list Range :=
  [
    (0x0041, 0x005A, 1); (0x00C0, 0x00D6, 1); (0x00D8, 0x00DE, 1); (0x0100, 0x0136, 2);
    (0x0139, 0x0147, 2); (0x014A, 0x0178, 2); (0x0179, 0x017D, 2); (0x0181, 0x0182, 1);
    (0x0184, 0x0184, 1); (0x0186, 0x0187, 1); (0x0189, 0x018B, 1); (0x018E, 0x0191, 1);
    (0x0193, 0x0194, 1); (0x0196, 0x0198, 1); (0x019C, 0x019D, 1); (0x019F, 0x01A0, 1);
    (0x01A2, 0x01A6, 2); (0x01A7, 0x01A7, 1); (0x01A9, 0x01A9, 1); (0x01AC, 0x01AC, 1);
    (0x01AE, 0x01AF, 1); (0x01B1, 0x01B3, 1); (0x01B5, 0x01B5, 1); (0x01B7, 0x01B8, 1);
    (0x01BC, 0x01BC, 1); (0x01C4, 0x01CD, 3); (0x01CF, 0x01DB, 2); (0x01DE, 0x01EE, 2);
    (0x01F1, 0x01F1, 1); (0x01F4, 0x01F4, 1); (0x01F6, 0x01F8, 1); (0x01FA, 0x0232, 2);
    (0x023A, 0x023B, 1); (0x023D, 0x023E, 1); (0x0241, 0x0241, 1); (0x0243, 0x0246, 1);
    (0x0248, 0x024E, 2); (0x0370, 0x0370, 1); (0x0372, 0x0372, 1); (0x0376, 0x0376, 1);
    (0x037F, 0x037F, 1); (0x0386, 0x0386, 1); (0x0388, 0x038A, 1); (0x038C, 0x038C, 1);
    (0x038E, 0x038F, 1); (0x0391, 0x03A1, 1); (0x03A3, 0x03AB, 1); (0x03CF, 0x03CF, 1);
    (0x03D2, 0x03D4, 1); (0x03D8, 0x03EE, 2); (0x03F4, 0x03F4, 1); (0x03F7, 0x03F7, 1);
    (0x03F9, 0x03FA, 1); (0x03FD, 0x042F, 1); (0x0460, 0x0480, 2); (0x048A, 0x04C0, 2);
    (0x04C1, 0x04CD, 2); (0x04D0, 0x052E, 2); (0x0531, 0x0556, 1); (0x10A0, 0x10C5, 1);
    (0x10C7, 0x10C7, 1); (0x10CD, 0x10CD, 1); (0x13A0, 0x13F5, 1); (0x1C90, 0x1CBA, 1);
    (0x1CBD, 0x1CBF, 1); (0x1E00, 0x1E94, 2); (0x1E9E, 0x1EFE, 2); (0x1F08, 0x1F0F, 1);
    (0x1F18, 0x1F1D, 1); (0x1F28, 0x1F2F, 1); (0x1F38, 0x1F3F, 1); (0x1F48, 0x1F4D, 1);
    (0x1F59, 0x1F5F, 2); (0x1F68, 0x1F6F, 1); (0x1FB8, 0x1FBB, 1); (0x1FC8, 0x1FCB, 1);
    (0x1FD8, 0x1FDB, 1); (0x1FE8, 0x1FEC, 1); (0x1FF8, 0x1FFB, 1); (0x2102, 0x2102, 1);
    (0x2107, 0x2107, 1); (0x210B, 0x210D, 1); (0x2110, 0x2112, 1); (0x2115, 0x2115, 1);
    (0x2119, 0x211D, 1); (0x2124, 0x212A, 2); (0x212B, 0x212D, 1); (0x2130, 0x2133, 1);
    (0x213E, 0x213F, 1); (0x2145, 0x2145, 1); (0x2183, 0x2183, 1); (0x2C00, 0x2C2F, 1);
    (0x2C60, 0x2C60, 1); (0x2C62, 0x2C64, 1); (0x2C67, 0x2C6D, 2); (0x2C6E, 0x2C70, 1);
    (0x2C72, 0x2C72, 1); (0x2C75, 0x2C75, 1); (0x2C7E, 0x2C80, 1); (0x2C82, 0x2CE2, 2);
    (0x2CEB, 0x2CEB, 1); (0x2CED, 0x2CED, 1); (0x2CF2, 0x2CF2, 1); (0xA640, 0xA66C, 2);
    (0xA680, 0xA69A, 2); (0xA722, 0xA72E, 2); (0xA732, 0xA76E, 2); (0xA779, 0xA77D, 2);
    (0xA77E, 0xA786, 2); (0xA78B, 0xA78B, 1); (0xA78D, 0xA78D, 1); (0xA790, 0xA790, 1);
    (0xA792, 0xA792, 1); (0xA796, 0xA7AA, 2); (0xA7AB, 0xA7AE, 1); (0xA7B0, 0xA7B4, 1);
    (0xA7B6, 0xA7C4, 2); (0xA7C5, 0xA7C7, 1); (0xA7C9, 0xA7C9, 1); (0xA7D0, 0xA7D0, 1);
    (0xA7D6, 0xA7D6, 1); (0xA7D8, 0xA7D8, 1); (0xA7F5, 0xA7F5, 1); (0xFF21, 0xFF3A, 1);
    (0x10400, 0x10427, 1); (0x104B0, 0x104D3, 1); (0x10570, 0x1057A, 1); (0x1057C, 0x1058A, 1);
    (0x1058C, 0x10592, 1); (0x10594, 0x10595, 1); (0x10C80, 0x10CB2, 1); (0x118A0, 0x118BF, 1);
    (0x16E40, 0x16E5F, 1); (0x1D400, 0x1D419, 1); (0x1D434, 0x1D44D, 1); (0x1D468, 0x1D481, 1);
    (0x1D49C, 0x1D49C, 1); (0x1D49E, 0x1D49F, 1); (0x1D4A2, 0x1D4A2, 1); (0x1D4A5, 0x1D4A6, 1);
    (0x1D4A9, 0x1D4AC, 1); (0x1D4AE, 0x1D4B5, 1); (0x1D4D0, 0x1D4E9, 1); (0x1D504, 0x1D505, 1);
    (0x1D507, 0x1D50A, 1); (0x1D50D, 0x1D514, 1); (0x1D516, 0x1D51C, 1); (0x1D538, 0x1D539, 1);
    (0x1D53B, 0x1D53E, 1); (0x1D540, 0x1D544, 1); (0x1D546, 0x1D546, 1); (0x1D54A, 0x1D550, 1);
    (0x1D56C, 0x1D585, 1); (0x1D5A0, 0x1D5B9, 1); (0x1D5D4, 0x1D5ED, 1); (0x1D608, 0x1D621, 1);
    (0x1D63C, 0x1D655, 1); (0x1D670, 0x1D689, 1); (0x1D6A8, 0x1D6C0, 1); (0x1D6E2, 0x1D6FA, 1);
    (0x1D71C, 0x1D734, 1); (0x1D756, 0x1D76E, 1); (0x1D790, 0x1D7A8, 1); (0x1D7CA, 0x1D7CA, 1);
    (0x1E900, 0x1E921, 1) ].

(** [unicode.IsUpper(r)].  For a rune up to [MaxLatin1] the package
    looks into its [properties] array, whose upper-case entries are
    the first three ranges of [Upper]. *)
Definition IsUpper (r : Z) : bool := Is Upper r.

End unicode.

(** ** The functions of package [strings] the program calls *)

Module strings.

(** [strings.HasPrefix(s, prefix)] *)
Definition HasPrefix (s prefix : string) : bool := String.prefix prefix s.

(** [strings.HasSuffix(s, suffix)]:
    [len(s) >= len(suffix) && s[len(s)-len(suffix):] == suffix] *)
Definition HasSuffix (s suffix : string) : bool :=
  (String.length suffix <=? String.length s)%nat &&
  String.eqb
    (String.substring (String.length s - String.length suffix)
                      (String.length suffix) s)
    suffix.

(** [strings.Contains(s, substr)]: [substr] occurs at some offset of [s]. *)
Fixpoint Contains (s substr : string) : bool :=
  String.prefix substr s ||
  match s with
  | EmptyString => false
  | String _ s' => Contains s' substr
  end.

(** [indexFunc(s, f, truth)]: the index of the first rune [r] of [s]
    with [f(r) == truth], from byte [i] on; [None] is -1.  A [range]
    over a string decodes rune by rune and steps one byte over an
    invalid encoding, as [DecodeRuneInString] does. *)
Fixpoint indexFunc (fuel : nat) (s : string) (f : Z → bool) (truth : bool)
    (i : nat) : option nat :=
  match fuel with
  | O => None
  | S fuel' =>
    if (i <? String.length s)%nat then
      let '(r, size) := utf8.DecodeRuneInString (sliceFrom i s) in
      if Bool.eqb (f r) truth then Some i
      else indexFunc fuel' s f truth (i + size)
    else None
  end.

(** [lastIndexFunc(s, f, truth)], with [i] running down from [len(s)]. *)
Fixpoint lastIndexFunc (fuel : nat) (s : string) (f : Z → bool) (truth : bool)
    (i : nat) : option nat :=
  match fuel with
  | O => None
  | S fuel' =>
    if (0 <? i)%nat then
      let '(r, size) := utf8.DecodeLastRuneInString (sliceTo i s) in
      let i := (i - size)%nat in
      if Bool.eqb (f r) truth then Some i
      else lastIndexFunc fuel' s f truth i
    else None
  end.

(** [strings.TrimLeftFunc(s, f)] *)
Definition TrimLeftFunc (s : string) (f : Z → bool) : string :=
  match indexFunc (S (String.length s)) s f false 0 with
  | None => ""
  | Some i => sliceFrom i s
  end.

(** [strings.TrimRightFunc(s, f)] *)
Definition TrimRightFunc (s : string) (f : Z → bool) : string :=
  match lastIndexFunc (S (String.length s)) s f false (String.length s) with
  | Some i =>
    if utf8.RuneSelf <=? byteAt s i
    then let '(_, wid) := utf8.DecodeRuneInString (sliceFrom i s) in
         sliceTo (i + wid) s
    else sliceTo (i + 1) s
  | None => sliceTo 0 s
  end.

(** [strings.TrimFunc(s, f)] *)
Definition TrimFunc (s : string) (f : Z → bool) : string :=
  TrimRightFunc (TrimLeftFunc s f) f.

(** [strings.TrimSpace(s)]: [s] without its leading and trailing
    white space runes, "as defined by Unicode".  The function first
    steps over the ASCII white space bytes at either end and hands
    over to [TrimFunc] and [TrimRightFunc] at the first byte that is
    not ASCII; the bytes that remain are those of
    [TrimFunc(s, unicode.IsSpace)]. *)
Definition TrimSpace (s : string) : string := TrimFunc s unicode.IsSpace.

(** [strings.TrimPrefix(s, prefix)] *)
Definition TrimPrefix (s prefix : string) : string :=
  if HasPrefix s prefix
  then String.substring (String.length prefix)
                        (String.length s - String.length prefix) s
  else s.

(** [strings.Split(s, sep)] for a one-byte separator. *)
Fixpoint splitGo (sep : ascii) (cur : string) (s : string) : list string :=
  match s with
  | EmptyString => [String.rev cur]
  | String c s' =>
    if Ascii.eqb c sep then String.rev cur :: splitGo sep EmptyString s'
    else splitGo sep (String c cur) s'
  end.
Definition Split (s : string) (sep : ascii) : list string :=
  splitGo sep EmptyString s.

(** [strings.Trim(s, cutset)] for a one-byte cutset. *)
Fixpoint trimLeftByte (c : ascii) (s : string) : string :=
  match s with
  | String a s' => if Ascii.eqb a c then trimLeftByte c s' else s
  | EmptyString => EmptyString
  end.
Definition Trim (s : string) (c : ascii) : string :=
  String.rev (trimLeftByte c (String.rev (trimLeftByte c s))).

End strings.

(** ** [path/filepath] on a system whose separator is the slash *)

Module filepath.

Definition slash : ascii := Ascii.ascii_of_nat 47.

(** Everything after the last separator of [s]. *)
Fixpoint lastElem (acc : string) (s : string) : string :=
  match s with
  | EmptyString => String.rev acc
  | String c s' =>
    if Ascii.eqb c slash then lastElem EmptyString s'
    else lastElem (String c acc) s'
  end.

(** [filepath.Base(path)]: the empty path gives ".", trailing
    separators are stripped, a path of separators only gives "/". *)
Definition Base (path : string) : string :=
  if String.eqb path "" then "."
  else
    let p := String.rev (strings.trimLeftByte slash (String.rev path)) in
    let b := lastElem EmptyString p in
    if String.eqb b "" then "/" else b.

(** [filepath.Join(dir, name)] as [filepath.Walk] uses it: [dir] is
    a clean path and [name] a directory entry. *)
Definition Join (dir name : string) : string :=
  if String.eqb dir "." then name else dir +:+ "/" +:+ name.

End filepath.

(** ** Syntax trees ([go/ast]), as far as the checkers look at them *)

Module ast.

(** [token.Position] of a node, resolved through [globalFileSet]. *)
Record Position := { Line : Z; Column : Z }.

(** Expressions and type expressions.  A field is its list of names
    and its type; [OtherExpr] is any other expression node with its
    sub-expressions in source order. *)
Inductive Expr :=
| Ident (Name : string)
| StarExpr (Star : Position) (X : Expr)
| SelectorExpr (X : Expr) (Sel : string)
| StructType (Fields : list (list string * Expr))
| InterfaceType (Methods : list (list string * Expr))
| FuncType (Params : option (list (list string * Expr)))
           (Results : option (list (list string * Expr)))
| OtherExpr (children : list Expr).

Definition Field : Type := list string * Expr.
Definition FieldList : Type := list Field.
Definition Names (f : Field) : list string := fst f.
Definition Type_ (f : Field) : Expr := snd f.

Record TypeSpec := {
  ts_Name : string;
  ts_Pos : Position;
  ts_Type : Expr
}.

Record ImportSpec := {
  imp_Name : option string;
  imp_Path : string          (* the literal, with its quotes *)
}.

Inductive Spec :=
| SpecImport (i : ImportSpec)
| SpecType (t : TypeSpec)
| SpecValue (names : list string) (typ : option Expr) (values : list Expr).

Inductive Token := IMPORT | CONST | TYPE | VAR.

Record FuncDecl := {
  fd_Recv : option FieldList;
  fd_Name : string;
  fd_Pos : Position;
  fd_Params : option FieldList;
  fd_Results : option FieldList;
  fd_Body : list Expr         (* expressions of the body, in source order *)
}.

Inductive Decl :=
| GenDecl (Tok : Token) (Specs : list Spec)
| FuncDeclD (f : FuncDecl).

Record File := {
  Name : string;              (* the declared package name *)
  Decls : list Decl
}.

(** [ast.Package] *)
Record Package := {
  pkg_Name : string;
  pkg_Files : gmap string File
}.

End ast.

(** ** The file tree under the working directory *)

Module fs.

(** What [os.ReadFile] followed by [parser.ParseFile] gives for a file. *)
Inductive Content :=
| Unreadable                       (* os.ReadFile fails *)
| Unparsable                       (* parser.ParseFile fails *)
| Parsed (f : ast.File).

(** A directory lists its entries in the order [filepath.Walk] visits
    them (lexical order of the names). *)
Inductive Node :=
| File (name : string) (c : Content)
| Dir (name : string) (entries : list Node).

Definition name (n : Node) : string :=
  match n with File s _ | Dir s _ => s end.

(** [info.IsDir()] *)
Definition IsDir (n : Node) : bool :=
  match n with File _ _ => false | Dir _ _ => true end.

(** [os.ReadFile] and [parser.ParseFile] on a node; reading a
    directory fails. *)
Definition content (n : Node) : Content :=
  match n with File _ c => c | Dir _ _ => Unreadable end.

(** What [os.Stat] answers: the node, an error that satisfies
    [os.IsNotExist], or the error of a path that goes through a file. *)
Inductive StatResult :=
| Found (n : Node)
| NotExist
| NotDir.

Fixpoint find (entries : list Node) (segments : list string) : StatResult :=
  match segments with
  | [] => NotExist
  | s :: rest =>
    match List.find (fun n => String.eqb (name n) s) entries with
    | None => NotExist
    | Some n =>
      match rest, n with
      | [], _ => Found n
      | _ :: _, Dir _ es => find es rest
      | _ :: _, File _ _ => NotDir
      end
    end
  end.

(** The path elements a relative path names, without empty and "."
    elements. *)
Definition segments (path : string) : list string :=
  List.filter (fun s => negb (String.eqb s "" || String.eqb s "."))
              (strings.Split path filepath.slash).

(** [os.Stat(path)] for a path relative to the working directory,
    whose entries are [root]; a ".." element is looked up as a name and
    not found. *)
Definition Stat (root : list Node) (path : string) : StatResult :=
  match segments path with
  | [] => Found (Dir "." root)
  | segs => find root segs
  end.

End fs.

(** ** Errors *)

Inductive error :=
| ErrReadFile (path : string)            (* from os.ReadFile *)
| ErrParseFile (path : string)           (* from parser.ParseFile *)
| Errorf (msg : string) (wrapped : option error).

(** What a [filepath.WalkFunc] returns. *)
Inductive WalkErr :=
| nil_
| SkipDir
| Err (e : error).

(** ** The loader: [parseProject] *)

(** The two things [parseProject] writes: its local [packages] map and
    the process-wide [globalFileSet], of which we keep the names of the
    files registered by [parser.ParseFile], oldest first. *)
Record Loader := {
  packages : gmap string ast.Package;
  globalFileSet : list string
}.

Definition newLoader : Loader :=
  {| packages := ∅; globalFileSet := [] |}.

(** [packages[pkgName].Files[path] = file], creating the package first
    when [packages[pkgName] == nil]. *)
Definition addFile (path : string) (file : ast.File)
    (pkgs : gmap string ast.Package) : gmap string ast.Package :=
  let pkgName := ast.Name file in
  let pkg := default {| ast.pkg_Name := pkgName; ast.pkg_Files := ∅ |}
                     (pkgs !! pkgName) in
  <[pkgName := {| ast.pkg_Name := ast.pkg_Name pkg;
                  ast.pkg_Files := <[path := file]> (ast.pkg_Files pkg) |}]> pkgs.

Section Loading.

(** [filepath.Match(pattern, name)] of the Go library: [Some matched],
    or [None] for a malformed pattern. *)
Variable Match : string → string → option bool.

(** The package variable [excludeDirs]. *)
Variable excludeDirs : list string.

(** The first test of the walk callback: non-Go files and the default
    excluded directories. *)
Definition defaultSkip (path : string) : bool :=
  negb (strings.HasSuffix path ".go") ||
  strings.Contains path "vendor/" ||
  strings.Contains path ".git/".

(** "1. Exact file name match" *)
Definition exactNameMatch (path excludePattern : string) : bool :=
  String.eqb (filepath.Base path) excludePattern.

(** "2. Directory path match" *)
Definition directoryPathMatch (path excludePattern : string) : bool :=
  strings.Contains path (excludePattern +:+ "/") ||
  strings.HasSuffix path ("/" +:+ excludePattern).

(** "3. Glob pattern match" *)
Definition globPatternMatch (path excludePattern : string) : bool :=
  (strings.Contains excludePattern "*" || strings.Contains excludePattern "?") &&
  (bool_decide (Match excludePattern (filepath.Base path) = Some true) ||
   bool_decide (Match excludePattern path = Some true)).

(** One round of the loop over [excludeDirs]: [true] when the round
    returns [nil] from the callback. *)
Definition excludedBy (path excludePattern : string) : bool :=
  let excludePattern := strings.TrimSpace excludePattern in
  if String.eqb excludePattern "" then false
  else exactNameMatch path excludePattern ||
       directoryPathMatch path excludePattern ||
       globPatternMatch path excludePattern.

(** The second loop, entered for directories only. *)
Definition skipEntirely (path excludeDir : string) : bool :=
  let excludeDir := strings.TrimSpace excludeDir in
  negb (String.eqb excludeDir "") && strings.HasSuffix path excludeDir.

(** The callback handed to [filepath.Walk], as it runs on a call with
    [err == nil].  [filepath.Walk] passes an error for a directory it
    cannot list and for an entry it cannot examine; the callback
    returns that error at once, before it loads anything.  The trees
    of [fs.Node] have no such directory and no such entry. *)
Definition walkFn (path : string) (info : fs.Node) (st : Loader)
    : WalkErr * Loader :=
  if defaultSkip path then (nil_, st)
  else if existsb (excludedBy path) excludeDirs then (nil_, st)
  else if fs.IsDir info && existsb (skipEntirely path) excludeDirs
  then (SkipDir, st)
  else
    match fs.content info with
    | fs.Unreadable => (Err (ErrReadFile path), st)
    | fs.Unparsable =>
      (Err (ErrParseFile path),
       {| packages := packages st;
          globalFileSet := globalFileSet st ++ [path] |})
    | fs.Parsed file =>
      (nil_,
       {| packages := addFile path file (packages st);
          globalFileSet := globalFileSet st ++ [path] |})
    end.

(** [filepath.walk]: the callback on the node itself, then, for a
    directory on which the callback returned [nil], its entries in
    order.  [SkipDir] from a directory entry skips that entry only;
    from a file entry it ends the enclosing directory. *)
Fixpoint walk (path : string) (info : fs.Node) (st : Loader) {struct info}
    : WalkErr * Loader :=
  match info with
  | fs.File _ _ => walkFn path info st
  | fs.Dir _ entries =>
    match walkFn path info st with
    | (nil_, st1) =>
      (fix loop (names : list fs.Node) (st : Loader) {struct names}
           : WalkErr * Loader :=
         match names with
         | [] => (nil_, st)
         | e :: rest =>
           match walk (filepath.Join path (fs.name e)) e st with
           | (nil_, st') => loop rest st'
           | (SkipDir, st') =>
             if fs.IsDir e then loop rest st' else (SkipDir, st')
           | (Err x, st') => (Err x, st')
           end
         end) entries st1
    | r => r
    end
  end.

(** The loop of [filepath.walk] over the entries of directory [path]. *)
Fixpoint walkEntries (path : string) (names : list fs.Node) (st : Loader)
    : WalkErr * Loader :=
  match names with
  | [] => (nil_, st)
  | e :: rest =>
    match walk (filepath.Join path (fs.name e)) e st with
    | (nil_, st') => walkEntries path rest st'
    | (SkipDir, st') =>
      if fs.IsDir e then walkEntries path rest st' else (SkipDir, st')
    | (Err x, st') => (Err x, st')
    end
  end.

(** [filepath.Walk(".", fn)]: a [SkipDir] that reaches the top is not
    an error. *)
Definition Walk (root : list fs.Node) (st : Loader) : option error * Loader :=
  match walk "." (fs.Dir "." root) st with
  | (Err e, st') => (Some e, st')
  | (_, st') => (None, st')
  end.

(** [parseProject]: returns [packages, err]; the file set is returned
    with them because it is a global the checkers read. *)
Definition parseProject (root : list fs.Node) : Loader * option error :=
  let '(err, st) := Walk root newLoader in (st, err).

End Loading.

(** The examples run with [filepath.Match] on patterns made of literal
    bytes, [*] and [?]: [*] stands for any run of bytes without a
    separator and [?] for one rune that is not a separator. *)
Fixpoint wildcardMatch (pattern : string) : string → bool :=
  match pattern with
  | EmptyString => fun name => String.eqb name ""
  | String c p =>
    if Ascii.eqb c "*" then
      fix star (name : string) : bool :=
        wildcardMatch p name ||
        match name with
        | EmptyString => false
        | String a n => negb (Ascii.eqb a filepath.slash) && star n
        end
    else if Ascii.eqb c "?" then
      fun name =>
        match name with
        | EmptyString => false
        | String a _ =>
          negb (Ascii.eqb a filepath.slash) &&
          let '(_, n) := utf8.DecodeRuneInString name in
          wildcardMatch p (sliceFrom n name)
        end
    else
      fun name =>
        match name with
        | EmptyString => false
        | String a n => Ascii.eqb a c && wildcardMatch p n
        end
  end.

(** Patterns with a bracket class or an escape are outside this
    fragment and no example has one; [Match] answers them as the
    library answers a malformed pattern. *)
Definition Match (pattern name : string) : option bool :=
  if strings.Contains pattern "[" || strings.Contains pattern "\"
  then None
  else Some (wildcardMatch pattern name).

(** ** Diagnostics and configuration *)

Record ValidationError := {
  Rule : string;
  File : string;
  Line : Z;
  Column : Z;
  Message : string;
  Severity : string              (* "error", "warning", "info" *)
}.

(** The [.gearrc] configuration file. *)
Record GearConfig := {
  Exclude : list string;
  Rules : gmap string string
}.

(** ** File scope and traversal of a syntax tree *)

(** An [ast.Object] of the file scope: its kind and, for a type, the
    declaring [TypeSpec]. *)
Inductive Object :=
| Typ (decl : ast.TypeSpec)
| Fun
| Var
| Con.

(** [scope.Insert]: the first declaration of a name stays; the blank
    identifier is not declared. *)
Definition declare (name : string) (obj : Object)
    (scope : gmap string Object) : gmap string Object :=
  if String.eqb name "_" then scope
  else match scope !! name with
       | Some _ => scope
       | None => <[name := obj]> scope
       end.

Definition declareSpec (tok : ast.Token) (scope : gmap string Object)
    (s : ast.Spec) : gmap string Object :=
  match s with
  | ast.SpecImport _ => scope
  | ast.SpecType t => declare (ast.ts_Name t) (Typ t) scope
  | ast.SpecValue names _ _ =>
    foldl (fun sc n =>
             declare n (match tok with ast.CONST => Con | _ => Var end) sc)
          scope names
  end.

Definition declareDecl (scope : gmap string Object) (d : ast.Decl)
    : gmap string Object :=
  match d with
  | ast.GenDecl tok specs => foldl (declareSpec tok) scope specs
  | ast.FuncDeclD f =>
    match ast.fd_Recv f with
    | None =>
      if String.eqb (ast.fd_Name f) "init" then scope
      else declare (ast.fd_Name f) Fun scope
    | Some _ => scope
    end
  end.

(** [file.Scope] as the parser fills it: the package-level
    declarations of the file, in source order. *)
Definition Scope (file : ast.File) : gmap string Object :=
  foldl declareDecl ∅ (ast.Decls file).

(** [file.Imports]: the import specs of the file, in source order. *)
Definition Imports (file : ast.File) : list ast.ImportSpec :=
  flat_map (fun d =>
              match d with
              | ast.GenDecl _ specs =>
                flat_map (fun s => match s with
                                   | ast.SpecImport i => [i]
                                   | _ => []
                                   end) specs
              | ast.FuncDeclD _ => []
              end) (ast.Decls file).

(** The nodes [ast.Inspect] hands to its function. *)
Inductive Node :=
| NFile (f : ast.File)
| NDecl (d : ast.Decl)
| NSpec (s : ast.Spec)
| NFieldList (l : ast.FieldList)
| NField (f : ast.Field)
| NExpr (e : ast.Expr)
| NBasicLit (value : string)
| NBlockStmt (body : list ast.Expr).

Definition idents (names : list string) : list Node :=
  map (fun n => NExpr (ast.Ident n)) names.

Fixpoint inspectExpr (e : ast.Expr) : list Node :=
  let inspectFields (l : list (list string * ast.Expr)) : list Node :=
    NFieldList l ::
    flat_map (fun f => NField f :: idents (fst f) ++ inspectExpr (snd f)) l in
  NExpr e ::
  match e with
  | ast.Ident _ => []
  | ast.StarExpr _ x => inspectExpr x
  | ast.SelectorExpr x sel => inspectExpr x ++ [NExpr (ast.Ident sel)]
  | ast.StructType fields => inspectFields fields
  | ast.InterfaceType methods => inspectFields methods
  | ast.FuncType params results =>
    match params with Some l => inspectFields l | None => [] end ++
    match results with Some l => inspectFields l | None => [] end
  | ast.OtherExpr children => flat_map inspectExpr children
  end.

Definition inspectFieldList (l : ast.FieldList) : list Node :=
  NFieldList l ::
  flat_map (fun f => NField f :: idents (ast.Names f) ++ inspectExpr (ast.Type_ f)) l.

Definition inspectSpec (s : ast.Spec) : list Node :=
  NSpec s ::
  match s with
  | ast.SpecImport i =>
    match ast.imp_Name i with Some n => idents [n] | None => [] end ++
    [NBasicLit (ast.imp_Path i)]
  | ast.SpecType t => idents [ast.ts_Name t] ++ inspectExpr (ast.ts_Type t)
  | ast.SpecValue names typ values =>
    idents names ++
    match typ with Some t => inspectExpr t | None => [] end ++
    flat_map inspectExpr values
  end.

Definition inspectDecl (d : ast.Decl) : list Node :=
  NDecl d ::
  match d with
  | ast.GenDecl _ specs => flat_map inspectSpec specs
  | ast.FuncDeclD f =>
    match ast.fd_Recv f with Some l => inspectFieldList l | None => [] end ++
    idents [ast.fd_Name f] ++
    inspectExpr (ast.FuncType (ast.fd_Params f) (ast.fd_Results f)) ++
    NBlockStmt (ast.fd_Body f) :: flat_map inspectExpr (ast.fd_Body f)
  end.

(** [ast.Inspect(file, f)] for an [f] that always returns [true]: the
    nodes of the file in depth-first order, each before its children
    (comments, tags and the statement nodes of bodies are left out). *)
Definition Inspect (file : ast.File) : list Node :=
  NFile file :: idents [ast.Name file] ++ flat_map inspectDecl (ast.Decls file).

(** [typeSpec.Name.IsExported()], that is [token.IsExported(name)]:
    the first rune of the name is an upper-case letter. *)
Definition IsExported (name : string) : bool :=
  let '(ch, _) := utf8.DecodeRuneInString name in unicode.IsUpper ch.

(** ** R01: interface contracts *)

(** [isDataStruct] *)
Definition dataStructSuffixes : list string :=
  ["Request"; "Response"; "Model"; "DTO"; "Data"; "Entity";
   "Config"; "Settings"; "Options"; "Params"; "Result"; "Info";
   "Status"; "State"; "Event"; "Message"; "Payload"; "Body";
   "Error"; "Exception"; "Notification"; "Alert"; "Report"].

Definition dataStructPrefixes : list string :=
  ["Create"; "Update"; "Delete"; "Get"; "List"; "Search"].

Definition isDataStruct (name : string) : bool :=
  existsb (strings.HasSuffix name) dataStructSuffixes ||
  existsb (strings.HasPrefix name) dataStructPrefixes.

(** [structHasMethods] *)
Definition structHasMethods (structName : string) (file : ast.File) : bool :=
  existsb (fun decl =>
    match decl with
    | ast.FuncDeclD funcDecl =>
      match ast.fd_Recv funcDecl with
      | None => false
      | Some recvs =>
        existsb (fun recv =>
          match ast.Type_ recv with
          | ast.Ident n => String.eqb n structName
          | ast.StarExpr _ (ast.Ident n) => String.eqb n structName
          | _ => false
          end) recvs
      end
    | ast.GenDecl _ _ => false
    end) (ast.Decls file).

(** [shouldBeUnexported] *)
Definition shouldBeUnexported (structName filePath : string) (file : ast.File)
    : bool :=
  if negb (structHasMethods structName file) then false
  else if isDataStruct structName then false
  else if strings.Contains filePath "/model/" ||
          strings.Contains filePath "/proto/" ||
          strings.Contains filePath "/dto/" ||
          strings.Contains filePath "/client/" ||
          strings.Contains filePath "/provider/" then false
  else if strings.Contains filePath "/config/" ||
          strings.HasSuffix structName "Config" then false
  else if strings.Contains filePath "/errors/" then false
  else if strings.Contains filePath "/service/" ||
          strings.Contains filePath "/handler/" ||
          strings.Contains filePath "/repository/" then true
  else negb (isDataStruct structName).

(** The type specs of the [type] declarations of a file. *)
Definition typeSpecs (file : ast.File) : list ast.TypeSpec :=
  flat_map (fun decl =>
    match decl with
    | ast.GenDecl ast.TYPE specs =>
      flat_map (fun s => match s with ast.SpecType t => [t] | _ => [] end) specs
    | _ => []
    end) (ast.Decls file).

Definition isInterfaceType (e : ast.Expr) : bool :=
  match e with ast.InterfaceType _ => true | _ => false end.

Definition isStructType (e : ast.Expr) : bool :=
  match e with ast.StructType _ => true | _ => false end.

(** The body of the loop of [validateInterfaceContracts] for one file. *)
Definition interfaceContractsOfFile (filePath : string) (file : ast.File)
    : list ValidationError :=
  let interfaces := List.filter (fun t => isInterfaceType (ast.ts_Type t)) (typeSpecs file) in
  let structs := List.filter (fun t => isStructType (ast.ts_Type t)) (typeSpecs file) in
  flat_map (fun structInfo =>
    if IsExported (ast.ts_Name structInfo) &&
       shouldBeUnexported (ast.ts_Name structInfo) filePath file
    then [{| Rule := "R01-interface-contracts";
             File := filePath;
             Line := ast.Line (ast.ts_Pos structInfo);
             Column := ast.Column (ast.ts_Pos structInfo);
             Message := "Struct '" +:+ ast.ts_Name structInfo +:+
               "' is exported - GEAR prefers unexported structs with exported interfaces for service/business logic";
             Severity := "warning" |}]
    else []) structs ++
  flat_map (fun interfaceInfo =>
    if negb (IsExported (ast.ts_Name interfaceInfo))
    then [{| Rule := "R01-interface-contracts";
             File := filePath;
             Line := ast.Line (ast.ts_Pos interfaceInfo);
             Column := ast.Column (ast.ts_Pos interfaceInfo);
             Message := "Interface '" +:+ ast.ts_Name interfaceInfo +:+
               "' is unexported - GEAR requires exported interfaces";
             Severity := "error" |}]
    else []) interfaces.

(** ** R03: constructor patterns *)

(** The body of the inner loop of [validateConstructorPatterns]. *)
Definition constructorPatternOfDecl (filePath : string) (decl : ast.Decl)
    : list ValidationError :=
  match decl with
  | ast.GenDecl _ _ => []
  | ast.FuncDeclD funcDecl =>
    if negb (strings.HasPrefix (ast.fd_Name funcDecl) "New") then []
    else if strings.Contains filePath "/errors/" ||
            strings.Contains filePath "/utils/" ||
            strings.Contains filePath "/util/" ||
            strings.Contains filePath "/config/" ||
            strings.Contains filePath "/model/" ||
            strings.Contains filePath "/dto/" ||
            strings.Contains filePath "/proto/" then []
    else
      match ast.fd_Results funcDecl with
      | None | Some [] => []
      | Some (result :: _) =>
        match ast.Type_ result with
        | ast.StarExpr _ (ast.Ident _) =>
          [{| Rule := "R02-constructor-patterns";
              File := filePath;
              Line := ast.Line (ast.fd_Pos funcDecl);
              Column := ast.Column (ast.fd_Pos funcDecl);
              Message := "Constructor '" +:+ ast.fd_Name funcDecl +:+
                "' returns pointer to struct - GEAR constructors should return interfaces";
              Severity := "warning" |}]
        | _ => []
        end
      end
  end.

Definition constructorPatternsOfFile (filePath : string) (file : ast.File)
    : list ValidationError :=
  flat_map (constructorPatternOfDecl filePath) (ast.Decls file).

(** ** State of a validation run *)

(** The process-wide [externalPackageCache], and the number of [range]
    loops over maps executed so far (the oracle below is asked once per
    loop). *)
Record RunState := {
  externalPackageCache : gmap string ast.Package;
  ranges : nat
}.

Definition M (A : Type) : Type := RunState → A * RunState.

Global Instance M_ret : MRet M := λ A a s, (a, s).
Global Instance M_bind : MBind M :=
  λ A B f m s, let '(a, s') := m s in f a s'.

(** [errors = append(errors, f(x)...)] over the elements of [l]. *)
Fixpoint collect {A} (f : A → M (list ValidationError)) (l : list A)
    : M (list ValidationError) :=
  match l with
  | [] => mret []
  | x :: l' => e ← f x; es ← collect f l'; mret (e ++ es)
  end.

(** Go leaves the iteration order of a map unspecified: the [n]-th
    [range] loop of a run visits the entries of its map in the order
    [visit n] gives them, some rearrangement of the entries. *)
Record RangeOrder := {
  visit : nat → ∀ A : Type, list (string * A) → list (string * A);
  visit_perm : ∀ n A (l : list (string * A)), visit n A l ≡ₚ l
}.

(** "Merge CLI flags with config file": the value of [excludeDirs]
    during the walk. *)
Definition mergeExclude (flagExclude : list string) (config : GearConfig)
    : list string :=
  if bool_decide (flagExclude = []) && negb (bool_decide (Exclude config = []))
  then Exclude config else flagExclude.

Section Checkers.

Variable Match : string → string → option bool.

(** The entries of the working directory. *)
Variable root : list fs.Node.

(** The iteration orders of this run. *)
Variable rangeOrder : RangeOrder.

(** [for k, v := range m] *)
Definition range {A} (m : gmap string A) : M (list (string * A)) :=
  λ s, (visit rangeOrder (ranges s) A (map_to_list m),
        {| externalPackageCache := externalPackageCache s;
           ranges := S (ranges s) |}).

Definition getCache : M (gmap string ast.Package) :=
  λ s, (externalPackageCache s, s).

Definition putCache (packagePath : string) (pkg : ast.Package) : M unit :=
  λ s, (tt, {| externalPackageCache := <[packagePath := pkg]> (externalPackageCache s);
               ranges := ranges s |}).

(** *** R01 *)

Definition validateInterfaceContracts (pkg : ast.Package)
    : M (list ValidationError) :=
  files ← range (ast.pkg_Files pkg);
  mret (flat_map (λ '(filePath, file), interfaceContractsOfFile filePath file) files).

(** *** R03 *)

Definition validateConstructorPatterns (pkg : ast.Package)
    : M (list ValidationError) :=
  files ← range (ast.pkg_Files pkg);
  mret (flat_map (λ '(filePath, file), constructorPatternsOfFile filePath file) files).

(** *** R04: the loop over the expected directories does nothing. *)

Definition validateDomainBoundaries (pkg : ast.Package)
    : M (list ValidationError) :=
  mret [].

(** *** R05 and R06 *)

Definition validateCentralizedConfig (pkg : ast.Package)
    : M (list ValidationError) :=
  let configPath := "internal/config" in
  mret (match fs.Stat root configPath with
        | fs.NotExist =>
          [{| Rule := "R04-centralized-config";
              File := configPath;
              Line := 0;
              Column := 0;
              Message := "Missing internal/config package - GEAR requires centralized configuration";
              Severity := "error" |}]
        | _ => []
        end).

Definition validateSystematicErrors (pkg : ast.Package)
    : M (list ValidationError) :=
  let errorsPath := "internal/errors" in
  mret (match fs.Stat root errorsPath with
        | fs.NotExist =>
          [{| Rule := "R05-systematic-errors";
              File := errorsPath;
              Line := 0;
              Column := 0;
              Message := "Missing internal/errors package - GEAR requires systematic error handling";
              Severity := "error" |}]
        | _ => []
        end).

(** *** The external type resolver *)

(** The first type spec named [typeName] among the [type]
    declarations of [file] decides. *)
Definition checkTypeInFile (typeName : string) (file : ast.File) : option bool :=
  match List.find (λ t, String.eqb (ast.ts_Name t) typeName) (typeSpecs file) with
  | Some t => Some (isInterfaceType (ast.ts_Type t))
  | None => None
  end.

Fixpoint firstSome {A B} (f : A → option B) (l : list A) : option B :=
  match l with
  | [] => None
  | x :: l' => match f x with Some b => Some b | None => firstSome f l' end
  end.

(** [checkTypeInPackage] *)
Definition checkTypeInPackage (pkg : ast.Package) (typeName : string) : M bool :=
  files ← range (ast.pkg_Files pkg);
  mret (default false (firstSome (λ '(_, file), checkTypeInFile typeName file) files)).

(** [filepath.Glob(filepath.Join(localPath, "*.go"))] for a directory
    path without pattern characters: the matching entries of the
    directory, in directory order; [None] for a pattern error. *)
Definition cleanPath (path : string) : string :=
  match fs.segments path with
  | [] => "."
  | s :: rest => foldl (λ acc x, acc +:+ "/" +:+ x) s rest
  end.

Fixpoint globNames (dir pattern : string) (entries : list fs.Node)
    : option (list string) :=
  match entries with
  | [] => Some []
  | e :: rest =>
    match Match pattern (fs.name e) with
    | None => None
    | Some matched =>
      match globNames dir pattern rest with
      | None => None
      | Some l => Some (if matched then filepath.Join dir (fs.name e) :: l else l)
      end
    end
  end.

Definition Glob (localPath pattern : string) : option (list string) :=
  match fs.Stat root localPath with
  | fs.Found (fs.Dir _ entries) => globNames (cleanPath localPath) pattern entries
  | _ => Some []
  end.

(** The files of the first loop of [isExternalInterface] that were read
    and parsed, test files left out. *)
Definition parsedFiles (pkgFiles : list string) : list ast.File :=
  flat_map (λ pkgFile,
    if strings.HasSuffix pkgFile "_test.go" then []
    else match fs.Stat root pkgFile with
         | fs.Found n => match fs.content n with
                         | fs.Parsed file => [file]
                         | _ => []
                         end
         | _ => []
         end) pkgFiles.

(** [pkg.Files[pkgFiles[i]] = file] for the [i]-th parsed file. *)
Fixpoint indexFiles (pkgFiles : list string) (files : list ast.File)
    (m : gmap string ast.File) : gmap string ast.File :=
  match files, pkgFiles with
  | file :: files', k :: pkgFiles' => indexFiles pkgFiles' files' (<[k := file]> m)
  | _, _ => m
  end.

(** [isExternalInterface] *)
Definition isExternalInterface (packagePath typeName : string) : M bool :=
  cache ← getCache;
  match cache !! packagePath with
  | Some externalPkg => checkTypeInPackage externalPkg typeName
  | None =>
    let pkgPath := strings.TrimPrefix packagePath
                     "github.com/nex-prospect/nex-core-service/" in
    let localPath := "./" +:+ pkgPath in
    match fs.Stat root localPath with
    | fs.Found _ =>
      match Glob localPath "*.go" with
      | None => mret false
      | Some pkgFiles =>
        match parsedFiles pkgFiles with
        | [] => mret false
        | (first :: _) as files =>
          let pkg := {| ast.pkg_Name := ast.Name first;
                        ast.pkg_Files := indexFiles pkgFiles files ∅ |} in
          _ ← putCache packagePath pkg;
          checkTypeInPackage pkg typeName
        end
      end
    | _ => mret false
    end
  end.

(** *** R02: interface usage *)

(** The import map of a file: alias to package path. *)
Definition quote : ascii := Ascii.ascii_of_nat 34.

Definition importMap (file : ast.File) : gmap string string :=
  foldl (λ imports imp,
           let path := strings.Trim (ast.imp_Path imp) quote in
           match ast.imp_Name imp with
           | Some name => <[name := path]> imports
           | None =>
             let parts := strings.Split path filepath.slash in
             <[List.last parts "" := path]> imports
           end) ∅ (Imports file).

(** [file.Scope.Lookup(typeName)] finds a type declared as an
    interface. *)
Definition localInterface (file : ast.File) (typeName : string) : bool :=
  match Scope file !! typeName with
  | Some (Typ typeSpec) => isInterfaceType (ast.ts_Type typeSpec)
  | _ => false
  end.

Definition interfaceUsageError (filePath : string) (pos : ast.Position)
    (message : string) : ValidationError :=
  {| Rule := "R06-interface-usage";
     File := filePath;
     Line := ast.Line pos;
     Column := ast.Column pos;
     Message := message;
     Severity := "error" |}.

(** The loops over struct fields and over function parameters have the
    same body up to the first words of the message ([what]). *)
Definition pointerField (what filePath : string) (file : ast.File)
    (imports : gmap string string) (field : ast.Field)
    : M (list ValidationError) :=
  match ast.Type_ field with
  | ast.StarExpr star x =>
    let report (typeName : string) (isInterface : bool) : list ValidationError :=
      if isInterface then
        let fieldName := match ast.Names field with
                         | n :: _ => n
                         | [] => typeName
                         end in
        [interfaceUsageError filePath star
           (what +:+ " '" +:+ fieldName +:+ "' has type '*" +:+ typeName +:+
            "' - pointer to interface is an anti-pattern, use '" +:+ typeName +:+
            "' instead")]
      else [] in
    match x with
    | ast.Ident typeName => mret (report typeName (localInterface file typeName))
    | ast.SelectorExpr sx typeName =>
      match sx with
      | ast.Ident pkgIdent =>
        match imports !! pkgIdent with
        | Some packagePath =>
          isInterface ← isExternalInterface packagePath typeName;
          mret (report typeName isInterface)
        | None => mret []
        end
      | _ => mret []
      end
    | _ => mret []
    end
  | _ => mret []
  end.

(** The loop over the results of a function. *)
Definition pointerResult (filePath : string) (file : ast.File)
    (result : ast.Field) : list ValidationError :=
  match ast.Type_ result with
  | ast.StarExpr star (ast.Ident name) =>
    if localInterface file name then
      [interfaceUsageError filePath star
         ("Function returns '*" +:+ name +:+ "' - pointer to interface, use '" +:+
          name +:+ "' instead")]
    else []
  | _ => []
  end.

(** The function handed to [ast.Inspect]; it always returns [true]. *)
Definition inspectNode (filePath : string) (file : ast.File)
    (imports : gmap string string) (node : Node) : M (list ValidationError) :=
  match node with
  | NExpr (ast.StructType fields) =>
    collect (pointerField "Struct field" filePath file imports) fields
  | NExpr (ast.StarExpr star (ast.Ident name)) =>
    mret (if localInterface file name then
            [interfaceUsageError filePath star
               ("Pointer to interface '*" +:+ name +:+
                "' is an anti-pattern - interfaces are already reference types")]
          else [])
  | NDecl (ast.FuncDeclD n) =>
    ps ← match ast.fd_Params n with
         | Some params =>
           collect (pointerField "Function parameter" filePath file imports) params
         | None => mret []
         end;
    mret (ps ++ match ast.fd_Results n with
                | Some results => flat_map (pointerResult filePath file) results
                | None => []
                end)
  | _ => mret []
  end.

(** [validateInterfaceUsage] *)
Definition validateInterfaceUsage (pkg : ast.Package) : M (list ValidationError) :=
  files ← range (ast.pkg_Files pkg);
  collect (λ '(filePath, file),
             collect (inspectNode filePath file (importMap file)) (Inspect file))
          files.

(** *** The rule registry *)

Record ValidationRule := {
  vr_Name : string;
  vr_Description : string;
  vr_Check : ast.Package → M (list ValidationError)
}.

Definition rules : list ValidationRule :=
  [ {| vr_Name := "R01-interface-contracts";
       vr_Description := "Interface contracts: exported interfaces + unexported structs";
       vr_Check := validateInterfaceContracts |};
    {| vr_Name := "R02-interface-usage";
       vr_Description := "Interface usage: no pointer-to-interface anti-patterns";
       vr_Check := validateInterfaceUsage |};
    {| vr_Name := "R03-constructor-patterns";
       vr_Description := "Constructor patterns: constructors return interfaces";
       vr_Check := validateConstructorPatterns |};
    {| vr_Name := "R04-domain-boundaries";
       vr_Description := "Domain boundaries: clean layer separation";
       vr_Check := validateDomainBoundaries |};
    {| vr_Name := "R05-centralized-config";
       vr_Description := "Centralized configuration: internal/config package exists";
       vr_Check := validateCentralizedConfig |};
    {| vr_Name := "R06-systematic-errors";
       vr_Description := "Systematic error handling: internal/errors package exists";
       vr_Check := validateSystematicErrors |} ].

(** The inner loop of "Run validation rules": one rule against every
    package, in the order this [range] over [pkgs] yields them. *)
Definition runRule (pkgs : gmap string ast.Package) (rule : ValidationRule)
    : M (list ValidationError) :=
  ps ← range pkgs;
  collect (λ '(_, pkg), vr_Check rule pkg) ps.

(** The outer loop: [allErrors] after all rules. *)
Definition runRules (pkgs : gmap string ast.Package) : M (list ValidationError) :=
  collect (runRule pkgs) rules.

(** *** Reporting *)

(** The line printed for one entry of [allErrors]; an entry whose
    severity is none of the three prints nothing. *)
Definition reportLine (err : ValidationError) : list string :=
  let rest := " [" +:+ Rule err +:+ "] " +:+ File err +:+ ":" +:+
              pretty (Line err) +:+ ":" +:+ pretty (Column err) +:+
              " - " +:+ Message err in
  if String.eqb (Severity err) "error" then ["❌" +:+ rest]
  else if String.eqb (Severity err) "warning" then ["⚠️ " +:+ rest]
  else if String.eqb (Severity err) "info" then ["ℹ️ " +:+ rest]
  else [].

(** [%v] of a slice of strings, without the brackets. *)
Definition joinSpace (l : list string) : string :=
  match l with
  | [] => ""
  | x :: rest => foldl (λ acc y, acc +:+ " " +:+ y) x rest
  end.

Definition countSeverity (severity : string) (l : list ValidationError) : Z :=
  Z.of_nat (length (List.filter (λ err, String.eqb (Severity err) severity) l)).

(** How [validateProject] ends: it returns ([None] is [nil]), or the
    process exits inside it. *)
Inductive Ending :=
| Return (err : option error)
| Exit (code : Z).

Record Outcome := {
  stdout : list string;          (* the lines printed, in order *)
  allErrors : list ValidationError;
  ending : Ending
}.

(** [validateProject].  [flagExclude] is [excludeDirs] as the command
    line set it and [loadGearConfig] what the function of that name
    returns; the run starts with an empty resolver cache. *)
Definition validateProject (flagExclude : list string)
    (loadGearConfig : GearConfig + error) : Outcome :=
  let line0 := "🔍 Validating GEAR compliance..." in
  match fs.Stat root "go.mod" with
  | fs.NotExist =>
    {| stdout := [line0]; allErrors := [];
       ending := Return (Some (Errorf "not in a Go project directory (go.mod not found)" None)) |}
  | _ =>
    match loadGearConfig with
    | inr err =>
      {| stdout := [line0]; allErrors := [];
         ending := Return (Some (Errorf "failed to load .gearrc" (Some err))) |}
    | inl config =>
      let merge := bool_decide (flagExclude = []) && negb (bool_decide (Exclude config = [])) in
      let excludeDirs := mergeExclude flagExclude config in
      let out1 :=
        if merge
        then [line0; "📄 Loaded exclusions from .gearrc: [" +:+
                     joinSpace excludeDirs +:+ "]"]
        else [line0] in
      match parseProject Match excludeDirs root with
      | (_, Some err) =>
        {| stdout := out1; allErrors := [];
           ending := Return (Some (Errorf "failed to parse project" (Some err))) |}
      | (loaded, None) =>
        let '(errs, _) :=
          runRules (packages loaded)
                   {| externalPackageCache := ∅; ranges := 0 |} in
        let out2 := out1 ++ map (λ rule, "  Checking " +:+ vr_Description rule +:+ "...") rules in
        match errs with
        | [] =>
          {| stdout := out2 ++ ["✅ All GEAR rules validated successfully!"];
             allErrors := errs; ending := Return None |}
        | _ :: _ =>
          let errorCount := countSeverity "error" errs in
          let warningCount := countSeverity "warning" errs in
          {| stdout := out2 ++
               [""; "❌ Found " +:+ pretty (Z.of_nat (length errs)) +:+
                    " GEAR compliance issues:"; ""] ++
               flat_map reportLine errs ++
               [""; "Summary: " +:+ pretty errorCount +:+ " errors, " +:+
                    pretty warningCount +:+ " warnings"];
             allErrors := errs;
             ending := if 0 <? errorCount then Exit 1 else Return None |}
        end
      end
    end
  end.

End Checkers.

(** ** Two iteration orders for the examples *)

Definition inOrder : RangeOrder :=
  {| visit := λ _ _ l, l;
     visit_perm := λ _ _ l, Permutation_refl l |}.

Definition reversed : RangeOrder :=
  {| visit := λ _ _ l, rev l;
     visit_perm := λ _ A l, Permutation_sym (Permutation_rev l) |}.

(** ** Notions used in the statements *)

(** Induction on a file tree, with the entries of a directory. *)
Section NodeInduction.

Variable P : fs.Node → Prop.
Hypothesis P_File : ∀ name c, P (fs.File name c).
Hypothesis P_Dir : ∀ name entries, Forall P entries → P (fs.Dir name entries).

Fixpoint Node_induction (n : fs.Node) : P n :=
  match n with
  | fs.File name c => P_File name c
  | fs.Dir name entries =>
    P_Dir name entries
      ((fix all (l : list fs.Node) : Forall P l :=
          match l with
          | [] => @List.Forall_nil _ P
          | e :: l' => @List.Forall_cons _ P e l' (Node_induction e) (all l')
          end) entries)
  end.

End NodeInduction.

(** Every path the loader registered in the file set or stored in a
    package satisfies [P]. *)
Definition Loaded (P : string → Prop) (st : Loader) : Prop :=
  Forall P (globalFileSet st) ∧
  ∀ name pkg path,
    packages st !! name = Some pkg →
    is_Some (ast.pkg_Files pkg !! path) → P path.

(** [Visits path info st p i stp]: walking [info] at [path] from loader
    state [st], [filepath.Walk] calls the callback on the node [i] at
    path [p], the loader state being [stp] at that call. *)
Inductive Visits (Match : string → string → option bool) (excludeDirs : list string)
  : string → fs.Node → Loader → string → fs.Node → Loader → Prop :=
| Visits_here path info st :
    Visits Match excludeDirs path info st path info st
| Visits_entry path name before e after st st1 st2 p i stp :
    walkFn Match excludeDirs path (fs.Dir name (before ++ e :: after)) st = (nil_, st1) →
    walkEntries Match excludeDirs path before st1 = (nil_, st2) →
    Visits Match excludeDirs (filepath.Join path (fs.name e)) e st2 p i stp →
    Visits Match excludeDirs path (fs.Dir name (before ++ e :: after)) st p i stp.

(** A Diagnostic that carries the identifier [rule] and is reported
    against a file of [pkg]. *)
Definition FoundIn (rule : string) (pkg : ast.Package) (d : ValidationError) : Prop :=
  Rule d = rule ∧ is_Some (ast.pkg_Files pkg !! File d).

(** A Diagnostic that carries the identifier [rule] and is reported
    against a file of one of the packages [pkgs]. *)
Definition InPackages (pkgs : gmap string ast.Package) (rule : string)
    (d : ValidationError) : Prop :=
  ∃ name pkg, pkgs !! name = Some pkg ∧ FoundIn rule pkg d.

(** ** Trees and files of the examples *)

Definition emptyFile (pkgName : string) : ast.File :=
  {| ast.Name := pkgName; ast.Decls := [] |}.

Definition vendorTree : list fs.Node :=
  [ fs.File "main.go" (fs.Parsed (emptyFile "main"));
    fs.Dir "vendor" [ fs.Dir "lib" [ fs.File "x.go" (fs.Parsed (emptyFile "lib")) ] ] ].


(** A directory named by an exclusion pattern, with a Go file in it. *)
Definition scriptsTree : list fs.Node :=
  [ fs.Dir "scripts" [ fs.File "gen.go" (fs.Parsed (emptyFile "main")) ] ].

(** A directory whose name only ends in an exclusion pattern. *)
Definition contestTree : list fs.Node :=
  [ fs.Dir "contest" [ fs.File "a.go" (fs.Parsed (emptyFile "contest")) ] ].

(** A file that does not parse, before one that does. *)
Definition brokenTree : list fs.Node :=
  [ fs.File "a.go" fs.Unparsable;
    fs.File "b.go" (fs.Parsed (emptyFile "main"));
    fs.File "go.mod" fs.Unparsable ].

Definition noConfig : GearConfig := {| Exclude := []; Rules := ∅ |}.

Definition pos (line column : Z) : ast.Position :=
  {| ast.Line := line; ast.Column := column |}.

(** Scenario C: an interface [Repo] and a struct with the field
    [repo *Repo], declared in one file. *)
Definition scenarioC (pkgName structName : string)
    (posRepo posStruct posStar : ast.Position) : ast.File :=
  {| ast.Name := pkgName;
     ast.Decls :=
       [ ast.GenDecl ast.TYPE
           [ast.SpecType {| ast.ts_Name := "Repo"; ast.ts_Pos := posRepo;
                            ast.ts_Type := ast.InterfaceType [] |}];
         ast.GenDecl ast.TYPE
           [ast.SpecType {| ast.ts_Name := structName; ast.ts_Pos := posStruct;
                            ast.ts_Type :=
                              ast.StructType
                                [(["repo"], ast.StarExpr posStar (ast.Ident "Repo"))] |}] ] |}.

(** A project with the two required directories and Scenario C in
    "pkg/svc.go". *)
Definition scenarioCTree : list fs.Node :=
  [ fs.File "go.mod" fs.Unparsable;
    fs.Dir "internal" [ fs.Dir "config" []; fs.Dir "errors" [] ];
    fs.Dir "pkg"
      [ fs.File "svc.go"
          (fs.Parsed (scenarioC "svc" "service" (pos 3 6) (pos 5 6) (pos 6 7))) ] ].

(** Scenario D: every spelling of the interface-usage rule is
    overridden to "warning". *)
Definition scenarioDConfig : GearConfig :=
  {| Exclude := [];
     Rules := {[ "R02" := "warning";
                 "R02-interface-usage" := "warning";
                 "R06" := "warning";
                 "R06-interface-usage" := "warning" ]} |}.

(** Following the words of the specification: the effective severity
    of a Diagnostic is the override configured for its rule identifier
    when there is one, and its coded severity otherwise. *)
Definition spec_effectiveSeverity (config : GearConfig) (d : ValidationError) : string :=
  default (Severity d) (Rules config !! Rule d).

(** The exit status of the process for an ending of [validateProject]
    that does not return an error. *)
Definition exitStatus (e : Ending) : option Z :=
  match e with
  | Exit code => Some code
  | Return None => Some 0
  | Return (Some _) => None
  end.

Definition requiredDirs : fs.Node :=
  fs.Dir "internal" [ fs.Dir "config" []; fs.Dir "errors" [] ].

(** Two packages, each declaring one unexported interface. *)
Definition unexportedInterface (pkgName typeName : string) : ast.File :=
  {| ast.Name := pkgName;
     ast.Decls :=
       [ ast.GenDecl ast.TYPE
           [ast.SpecType {| ast.ts_Name := typeName; ast.ts_Pos := pos 3 6;
                            ast.ts_Type := ast.InterfaceType [] |}] ] |}.

Definition twoPackagesTree : list fs.Node :=
  [ fs.Dir "alpha" [ fs.File "a.go" (fs.Parsed (unexportedInterface "alpha" "repo")) ];
    fs.Dir "beta" [ fs.File "b.go" (fs.Parsed (unexportedInterface "beta" "store")) ];
    fs.File "go.mod" fs.Unparsable;
    requiredDirs ].

(** One file: a constructor on line 3 that returns a pointer to the
    exported struct declared on line 9, which has a method. *)
Definition serviceFile : ast.File :=
  {| ast.Name := "svc";
     ast.Decls :=
       [ ast.FuncDeclD
           {| ast.fd_Recv := None; ast.fd_Name := "NewService"; ast.fd_Pos := pos 3 1;
              ast.fd_Params := Some [];
              ast.fd_Results := Some [([], ast.StarExpr (pos 3 19) (ast.Ident "Service"))];
              ast.fd_Body := [] |};
         ast.GenDecl ast.TYPE
           [ast.SpecType {| ast.ts_Name := "Service"; ast.ts_Pos := pos 9 6;
                            ast.ts_Type := ast.StructType [] |}];
         ast.FuncDeclD
           {| ast.fd_Recv := Some [(["s"], ast.StarExpr (pos 11 9) (ast.Ident "Service"))];
              ast.fd_Name := "Run"; ast.fd_Pos := pos 11 1;
              ast.fd_Params := Some []; ast.fd_Results := None;
              ast.fd_Body := [] |} ] |}.

Definition serviceTree : list fs.Node :=
  [ fs.File "go.mod" fs.Unparsable;
    requiredDirs;
    fs.Dir "pkg" [ fs.File "svc.go" (fs.Parsed serviceFile) ] ].

(** Two packages without findings of their own, in a project that has
    no "internal/config" directory; and such a project without any Go
    file. *)
Definition noConfigDirTree : list fs.Node :=
  [ fs.Dir "alpha" [ fs.File "a.go" (fs.Parsed (emptyFile "alpha")) ];
    fs.Dir "beta" [ fs.File "b.go" (fs.Parsed (emptyFile "beta")) ];
    fs.File "go.mod" fs.Unparsable;
    fs.Dir "internal" [ fs.Dir "errors" [] ] ].

Definition noPackageTree : list fs.Node :=
  [ fs.File "go.mod" fs.Unparsable;
    fs.Dir "internal" [ fs.Dir "errors" [] ] ].

(** Scenario C followed by a constructor that returns a pointer to the
    struct, in a project with neither of the two required directories. *)
Definition everyCheckerFile : ast.File :=
  {| ast.Name := "svc";
     ast.Decls :=
       ast.Decls (scenarioC "svc" "service" (pos 3 6) (pos 5 6) (pos 6 7)) ++
       [ ast.FuncDeclD
           {| ast.fd_Recv := None; ast.fd_Name := "NewService"; ast.fd_Pos := pos 9 1;
              ast.fd_Params := Some [];
              ast.fd_Results := Some [([], ast.StarExpr (pos 9 19) (ast.Ident "service"))];
              ast.fd_Body := [] |} ] |}.

Definition everyCheckerTree : list fs.Node :=
  [ fs.File "go.mod" fs.Unparsable;
    fs.Dir "pkg" [ fs.File "svc.go" (fs.Parsed everyCheckerFile) ] ].

Definition everyCheckerPackage : ast.Package :=
  {| ast.pkg_Name := "svc";
     ast.pkg_Files := {[ "pkg/svc.go" := everyCheckerFile ]} |}.

Definition freshRun : RunState :=
  {| externalPackageCache := ∅; ranges := 0 |}.

(** ** Further notions for the loader *)

(** [path] is a file of some loaded package. *)
Definition Stored (path : string) (st : Loader) : Prop :=
  ∃ name pkg, packages st !! name = Some pkg ∧ is_Some (ast.pkg_Files pkg !! path).

(** Every package of the loader is filed under its own name, holds at
    least one file, and holds only files that declare that name and
    were registered in the file set. *)
Definition Grouped (st : Loader) : Prop :=
  ∀ name pkg,
    packages st !! name = Some pkg →
    ast.pkg_Name pkg = name ∧
    ast.pkg_Files pkg ≠ ∅ ∧
    ∀ path file,
      ast.pkg_Files pkg !! path = Some file →
      ast.Name file = name ∧ path ∈ globalFileSet st.

(** The patterns of [excludeDirs] that are not blank. *)
Definition notBlank (pattern : string) : bool :=
  negb (String.eqb (strings.TrimSpace pattern) "").

(** A directory whose name ends in ".go". *)
Definition goNamedDirTree : list fs.Node :=
  [ fs.Dir "gen.go" [ fs.File "x.txt" fs.Unreadable ];
    fs.File "go.mod" fs.Unparsable;
    fs.File "main.go" (fs.Parsed (emptyFile "main")) ].

Definition mainTree : list fs.Node :=
  [ fs.Dir "cmd" [ fs.File "main.go" (fs.Parsed (emptyFile "main")) ];
    fs.File "go.mod" fs.Unparsable;
    fs.File "lib.go" (fs.Parsed (emptyFile "lib")) ].

(** ** Further notions for the checkers *)

(** The path categories of [shouldBeUnexported] under which a struct
    stays exported. *)
Definition dataPath (filePath : string) : bool :=
  strings.Contains filePath "/model/" ||
  strings.Contains filePath "/proto/" ||
  strings.Contains filePath "/dto/" ||
  strings.Contains filePath "/client/" ||
  strings.Contains filePath "/provider/" ||
  strings.Contains filePath "/config/" ||
  strings.Contains filePath "/errors/".


(** The two severities the checkers write. *)
Definition errorOrWarning (d : ValidationError) : Prop :=
  Severity d = "error" ∨ Severity d = "warning".

(** A project without "internal/errors", in which "internal/config"
    is a regular file. *)
Definition noErrorsDirTree : list fs.Node :=
  [ fs.Dir "alpha" [ fs.File "a.go" (fs.Parsed (emptyFile "alpha")) ];
    fs.Dir "beta" [ fs.File "b.go" (fs.Parsed (emptyFile "beta")) ];
    fs.File "go.mod" fs.Unparsable;
    fs.Dir "internal" [ fs.File "config" fs.Unreadable ] ].

Definition excludeLib : GearConfig := {| Exclude := ["lib.go"]; Rules := ∅ |}.

(** [os.IsNotExist(err)] on the answer of [os.Stat]. *)
Definition IsNotExist (r : fs.StatResult) : bool :=
  match r with fs.NotExist => true | _ => false end.

(** ** Further notions for the external type resolver *)

(** The directory [isExternalInterface] looks into for an import path. *)
Definition localPath (packagePath : string) : string :=
  "./" +:+ strings.TrimPrefix packagePath "github.com/nex-prospect/nex-core-service/".

(** The package [isExternalInterface] builds from that directory when
    the import path is not in the cache, if it builds one. *)
Definition localPackage (Match : string → string → option bool)
    (root : list fs.Node) (packagePath : string) : option ast.Package :=
  match fs.Stat root (localPath packagePath) with
  | fs.Found _ =>
    match Glob Match root (localPath packagePath) "*.go" with
    | None => None
    | Some pkgFiles =>
      match parsedFiles root pkgFiles with
      | [] => None
      | (first :: _) as files =>
        Some {| ast.pkg_Name := ast.Name first;
                ast.pkg_Files := indexFiles pkgFiles files ∅ |}
      end
    end
  | _ => None
  end.

(** Every entry of the cache is the package of its local directory. *)
Definition CacheValid (Match : string → string → option bool)
    (root : list fs.Node) (s : RunState) : Prop :=
  ∀ packagePath pkg,
    externalPackageCache s !! packagePath = Some pkg →
    localPackage Match root packagePath = Some pkg.

(** No type of the file is declared as an interface. *)
Definition declaresNoInterface (file : ast.File) : Prop :=
  ∀ tok specs t,
    In (ast.GenDecl tok specs) (ast.Decls file) →
    In (ast.SpecType t) specs →
    isInterfaceType (ast.ts_Type t) = false.

(** A project whose package "store" declares the interface [Repo] in
    "repo.go" and, in "repo_test.go", a struct of the same name. *)
Definition typeDecl (name : string) (typ : ast.Expr) : ast.Decl :=
  ast.GenDecl ast.TYPE
    [ast.SpecType {| ast.ts_Name := name; ast.ts_Pos := pos 3 6; ast.ts_Type := typ |}].

Definition storeTree : list fs.Node :=
  [ fs.File "go.mod" fs.Unparsable;
    fs.Dir "store"
      [ fs.File "repo.go"
          (fs.Parsed {| ast.Name := "store";
                        ast.Decls := [typeDecl "Repo" (ast.InterfaceType [])] |});
        fs.File "repo_test.go"
          (fs.Parsed {| ast.Name := "store";
                        ast.Decls := [typeDecl "Repo" (ast.StructType [])] |}) ] ].

(** A package of two files: one declares the interface [Repo], the
    other a struct with a field of type [*Repo]. *)
Definition repoFile : ast.File :=
  {| ast.Name := "svc"; ast.Decls := [typeDecl "Repo" (ast.InterfaceType [])] |}.

Definition userFile : ast.File :=
  {| ast.Name := "svc";
     ast.Decls :=
       [typeDecl "service"
          (ast.StructType [(["repo"], ast.StarExpr (pos 4 7) (ast.Ident "Repo"))])] |}.

Definition twoFilePackage : ast.Package :=
  {| ast.pkg_Name := "svc";
     ast.pkg_Files := {[ "pkg/repo.go" := repoFile; "pkg/service.go" := userFile ]} |}.

(** [s] between two double quotes, as an import path is written. *)
Definition quoted (s : string) : string :=
  String quote (s +:+ String quote EmptyString).

(** A file that imports the package "store" and has a struct field of
    type [*store.Repo], in the project of [storeTree]. *)
Definition importerFile : ast.File :=
  {| ast.Name := "svc";
     ast.Decls :=
       [ ast.GenDecl ast.IMPORT
           [ast.SpecImport
              {| ast.imp_Name := None;
                 ast.imp_Path := quoted "github.com/nex-prospect/nex-core-service/store" |}];
         typeDecl "service"
           (ast.StructType
              [(["repo"],
                ast.StarExpr (pos 6 7) (ast.SelectorExpr (ast.Ident "store") "Repo"))]) ] |}.

Definition importerPackages : gmap string ast.Package :=
  {[ "svc" := {| ast.pkg_Name := "svc";
                 ast.pkg_Files := {[ "svc/service.go" := importerFile ]} |} ]}.

(** ** The scaffolding commands: [go.mod] written and read back *)

Definition newline : ascii := Ascii.ascii_of_nat 10.
Definition LF : string := String newline EmptyString.
Definition TAB : string := String (Ascii.ascii_of_nat 9) EmptyString.

(** The content [generateGoMod] (command [init]) writes to "go.mod",
    for the package variables [moduleName], [webHandler] and [orm]. *)
Definition generateGoMod (moduleName webHandler orm : string) : string :=
  let content := "module " +:+ moduleName +:+ LF +:+ LF +:+ "go 1.23.5" +:+ LF +:+ LF +:+
                 "require (" in
  let content :=
    if String.eqb webHandler "gin"
    then content +:+ LF +:+ TAB +:+ "github.com/gin-gonic/gin v1.9.1"
    else content in
  let content :=
    if String.eqb orm "gorm"
    then content +:+ LF +:+ TAB +:+ "gorm.io/gorm v1.25.7" +:+
         LF +:+ TAB +:+ "gorm.io/driver/postgres v1.5.6"
    else content in
  content +:+ LF +:+ ")" +:+ LF.

(** [getModuleName] (command [add-domain]); [goMod] is what
    [os.ReadFile("go.mod")] gives, [None] for an error. *)
Definition getModuleName (goMod : option string) : string + error :=
  match goMod with
  | None => inr (ErrReadFile "go.mod")
  | Some data =>
    match strings.Split data newline with
    | line :: _ =>
      if strings.HasPrefix line "module "
      then inl (strings.TrimSpace (strings.TrimPrefix line "module "))
      else inr (Errorf "could not parse module name from go.mod" None)
    | [] => inr (Errorf "could not parse module name from go.mod" None)
    end
  end.

(** A file below a directory named by an exclusion pattern. *)
Definition generatedTree : list fs.Node :=
  [ fs.File "go.mod" fs.Unparsable;
    fs.Dir "pkg"
      [ fs.Dir "generated" [ fs.Dir "api" [ fs.File "types.go" fs.Unparsable ] ];
        fs.File "svc.go" (fs.Parsed (emptyFile "pkg")) ] ].

(** ** Notions for the reports on pointers to interfaces *)

(** Induction on an expression, with the fields and sub-expressions
    it holds. *)
Section ExprInduction.

Variable P : ast.Expr → Prop.
Hypothesis P_Ident : ∀ n, P (ast.Ident n).
Hypothesis P_StarExpr : ∀ star x, P x → P (ast.StarExpr star x).
Hypothesis P_SelectorExpr : ∀ x sel, P x → P (ast.SelectorExpr x sel).
Hypothesis P_StructType :
  ∀ fields, Forall (λ f, P (snd f)) fields → P (ast.StructType fields).
Hypothesis P_InterfaceType :
  ∀ methods, Forall (λ f, P (snd f)) methods → P (ast.InterfaceType methods).
Hypothesis P_FuncType :
  ∀ params results,
    Forall (λ f, P (snd f)) (default [] params) →
    Forall (λ f, P (snd f)) (default [] results) →
    P (ast.FuncType params results).
Hypothesis P_OtherExpr : ∀ children, Forall P children → P (ast.OtherExpr children).

Fixpoint Expr_induction (e : ast.Expr) : P e :=
  let fields :=
    fix all (l : list (list string * ast.Expr)) : Forall (λ f, P (snd f)) l :=
      match l with
      | [] => @List.Forall_nil _ (λ f, P (snd f))
      | f :: l' =>
        @List.Forall_cons _ (λ f, P (snd f)) f l'
          (match f return P (snd f) with (_, t) => Expr_induction t end) (all l')
      end in
  match e with
  | ast.Ident n => P_Ident n
  | ast.StarExpr star x => P_StarExpr star x (Expr_induction x)
  | ast.SelectorExpr x sel => P_SelectorExpr x sel (Expr_induction x)
  | ast.StructType l => P_StructType l (fields l)
  | ast.InterfaceType l => P_InterfaceType l (fields l)
  | ast.FuncType params results =>
    P_FuncType params results
      (match params return Forall (λ f, P (snd f)) (default [] params) with
       | Some l => fields l
       | None => @List.Forall_nil _ (λ f, P (snd f))
       end)
      (match results return Forall (λ f, P (snd f)) (default [] results) with
       | Some l => fields l
       | None => @List.Forall_nil _ (λ f, P (snd f))
       end)
  | ast.OtherExpr children =>
    P_OtherExpr children
      ((fix all (l : list ast.Expr) : Forall P l :=
          match l with
          | [] => @List.Forall_nil _ P
          | c :: l' => @List.Forall_cons _ P c l' (Expr_induction c) (all l')
          end) children)
  end.

End ExprInduction.

(** Two positions with the same line and column. *)
Definition samePosition (p q : ast.Position) : bool :=
  (ast.Line p =? ast.Line q) && (ast.Column p =? ast.Column q).

(** The positions of the pointer types ([*ast.StarExpr]) of a file, in
    the order [ast.Inspect] meets them. *)
Definition starPositions (file : ast.File) : list ast.Position :=
  flat_map (λ node, match node with
                    | NExpr (ast.StarExpr star _) => [star]
                    | _ => []
                    end) (Inspect file).

(** The name by which the checker calls a field or a parameter: its
    first name, or the name of its type when it has none. *)
Definition fieldName (names : list string) (typeName : string) : string :=
  match names with
  | n :: _ => n
  | [] => typeName
  end.

(** [d] is reported against [filePath] at line and column [pos]. *)
Definition reportedAt (filePath : string) (pos : ast.Position)
    (d : ValidationError) : bool :=
  String.eqb (File d) filePath &&
  (Line d =? ast.Line pos) && (Column d =? ast.Column pos).

(** [e] is a pointer type at position [pos]. *)
Definition isStarAt (pos : ast.Position) (e : ast.Expr) : nat :=
  match e with
  | ast.StarExpr star _ => if samePosition star pos then 1 else 0
  | _ => 0
  end.

Definition starNodeAt (pos : ast.Position) (node : Node) : nat :=
  match node with
  | NExpr e => isStarAt pos e
  | _ => 0
  end.

(** How many of the fields have a pointer type at position [pos]. *)
Definition starFieldsAt (pos : ast.Position) (l : ast.FieldList) : nat :=
  sum_list_with (λ f, isStarAt pos (snd f)) l.

(** The number of fields, parameters and results with a pointer type
    at [pos] that the struct and function cases of the checker look at
    on [node]. *)
Definition fieldsLookedAt (pos : ast.Position) (node : Node) : nat :=
  match node with
  | NExpr (ast.StructType fields) => starFieldsAt pos fields
  | NDecl (ast.FuncDeclD n) =>
    starFieldsAt pos (default [] (ast.fd_Params n)) +
    starFieldsAt pos (default [] (ast.fd_Results n))
  | _ => 0
  end.

(** How many Diagnostics of [l] are reported against [filePath] at
    [pos]. *)
Definition reportsAt (filePath : string) (pos : ast.Position)
    (l : list ValidationError) : nat :=
  length (List.filter (reportedAt filePath pos) l).

(** A node list that holds, with every expression node, the nodes
    [ast.Inspect] visits below it. *)
Definition Closed (l : list Node) : Prop :=
  ∀ e node, NExpr e ∈ l → node ∈ inspectExpr e → node ∈ l.

(** The nodes [ast.Inspect] visits for the fields of a field list. *)
Definition fieldNodes (l : list (list string * ast.Expr)) : list Node :=
  flat_map (λ f, NField f :: idents (fst f) ++ inspectExpr (snd f)) l.

(** A file with more around the field: the interface [Repo] has a
    method, the struct has a second field, and a constructor takes a
    [*Repo] as well. *)
Definition richScenario : ast.File :=
  {| ast.Name := "svc";
     ast.Decls :=
       [ ast.GenDecl ast.TYPE
           [ast.SpecType
              {| ast.ts_Name := "Repo"; ast.ts_Pos := pos 3 6;
                 ast.ts_Type :=
                   ast.InterfaceType
                     [(["Get"], ast.FuncType (Some [(["id"], ast.Ident "string")])
                                             (Some [([], ast.Ident "error")]))] |}];
         ast.GenDecl ast.TYPE
           [ast.SpecType
              {| ast.ts_Name := "service"; ast.ts_Pos := pos 7 6;
                 ast.ts_Type :=
                   ast.StructType
                     [(["name"], ast.Ident "string");
                      (["repo"], ast.StarExpr (pos 9 7) (ast.Ident "Repo"))] |}];
         ast.FuncDeclD
           {| ast.fd_Recv := None;
              ast.fd_Name := "NewService";
              ast.fd_Pos := pos 12 1;
              ast.fd_Params := Some [(["r"], ast.StarExpr (pos 12 19) (ast.Ident "Repo"))];
              ast.fd_Results := Some [([], ast.StarExpr (pos 12 25) (ast.Ident "service"))];
              ast.fd_Body := [] |} ] |}.

Definition richPackage : ast.Package :=
  {| ast.pkg_Name := "svc";
     ast.pkg_Files := {[ "pkg/svc.go" := richScenario;
                         "pkg/other.go" := emptyFile "svc" ]} |}.

(** The no-break space U+00A0 in UTF-8. *)
Definition NBSP : string :=
  String (Ascii.ascii_of_nat 194) (String (Ascii.ascii_of_nat 160) "").
(** * Properties of the loader *)

Section LoaderFacts.

Variable Match : string → string → option bool.
Variable excludeDirs : list string.

Lemma walk_Dir path name entries st :
  walk Match excludeDirs path (fs.Dir name entries) st =
  match walkFn Match excludeDirs path (fs.Dir name entries) st with
  | (nil_, st1) => walkEntries Match excludeDirs path entries st1
  | r => r
  end.
Proof.
  simpl. destruct (walkFn _ _ _ _ _) as [[| |x] st1]; try reflexivity.
  revert st1. induction entries as [|e rest IH]; intros st1; simpl; [reflexivity|].
  destruct (walk _ _ _ e st1) as [[| |x] st']; try reflexivity.
  - apply IH.
  - destruct (fs.IsDir e); [apply IH | reflexivity].
Qed.

Lemma walkEntries_app path before after st :
  walkEntries Match excludeDirs path (before ++ after) st =
  match walkEntries Match excludeDirs path before st with
  | (nil_, st') => walkEntries Match excludeDirs path after st'
  | r => r
  end.
Proof.
  revert st. induction before as [|e rest IH]; intros st; simpl; [reflexivity|].
  destruct (walk _ _ _ e st) as [[| |x] st']; try reflexivity.
  - apply IH.
  - destruct (fs.IsDir e); [apply IH | reflexivity].
Qed.

(** The callback either leaves the loader alone or registers [path],
    and then [path] passed the first test. *)
Lemma walkFn_Loaded (P : string → Prop) path info st :
  (defaultSkip path = false → P path) →
  Loaded P st → Loaded P (snd (walkFn Match excludeDirs path info st)).
Proof.
  intros HP [Hfs Hpk]. unfold walkFn.
  destruct (defaultSkip path) eqn:Hskip; [split; assumption|].
  specialize (HP eq_refl).
  destruct (existsb _ _); [split; assumption|].
  destruct (_ && _); [split; assumption|].
  destruct (fs.content info) as [| |file]; simpl.
  - split; assumption.
  - split; simpl; [|assumption].
    apply Forall_app; split; [assumption | by constructor].
  - split; simpl.
    + apply Forall_app; split; [assumption | by constructor].
    + intros name pkg p. unfold addFile.
      destruct (decide (ast.Name file = name)) as [<-|Hne].
      * rewrite lookup_insert_eq. intros Heq. injection Heq as <-. simpl.
        destruct (decide (path = p)) as [->|Hp]; [done|].
        rewrite lookup_insert_ne by done.
        destruct (packages st !! ast.Name file) as [old|] eqn:Hold; simpl.
        -- intros Hin. eapply Hpk; [exact Hold | exact Hin].
        -- rewrite lookup_empty. by intros [? ?].
      * rewrite lookup_insert_ne by done. apply Hpk.
Qed.

Lemma walk_Loaded (P : string → Prop) :
  (∀ path, defaultSkip path = false → P path) →
  ∀ info path st, Loaded P st → Loaded P (snd (walk Match excludeDirs path info st)).
Proof.
  intros HP info. induction info as [name c|name entries IH] using Node_induction;
    intros path st Hst.
  - simpl. by apply walkFn_Loaded; auto.
  - rewrite walk_Dir.
    pose proof (walkFn_Loaded P path (fs.Dir name entries) st (HP path) Hst) as H1.
    destruct (walkFn _ _ _ _ _) as [[| |x] st1]; simpl in *; try assumption.
    clear Hst. revert st1 H1.
    induction IH as [|e rest He _ IHrest]; intros st1 H1; simpl; [assumption|].
    pose proof (He (filepath.Join path (fs.name e)) st1 H1) as H2.
    destruct (walk _ _ _ e st1) as [[| |x] st']; simpl in *; try assumption.
    + by apply IHrest.
    + destruct (fs.IsDir e); [by apply IHrest | assumption].
Qed.

Lemma parseProject_Loaded (P : string → Prop) root :
  (∀ path, defaultSkip path = false → P path) →
  Loaded P (fst (parseProject Match excludeDirs root)).
Proof.
  intros HP. unfold parseProject, Walk.
  pose proof (walk_Loaded P HP (fs.Dir "." root) "." newLoader) as H.
  destruct (walk _ _ _ _ _) as [[| |x] st']; simpl in *; apply H;
    (split; [constructor | intros ? ? ?; simpl; by rewrite lookup_empty]).
Qed.

End LoaderFacts.

(** ** Files under a vendor directory *)

Lemma defaultSkip_vendor path :
  strings.Contains path "vendor/" = true → defaultSkip path = true.
Proof.
  intros H. unfold defaultSkip. rewrite H.
  by destruct (negb _).
Qed.

(** C10: a file whose path contains "vendor/" is never handed to the
    parser and is a file of no package, whatever the exclusion
    patterns are (also when there are none): the walk callback
    returns [nil] on it at once, leaving the loader as it was. *)
Theorem vendor_path_never_loaded Match excludeDirs root path :
  strings.Contains path "vendor/" = true →
  (∀ info st, walkFn Match excludeDirs path info st = (nil_, st)) ∧
  (path ∉ globalFileSet (fst (parseProject Match excludeDirs root))) ∧
  (∀ name pkg,
      packages (fst (parseProject Match excludeDirs root)) !! name = Some pkg →
      ast.pkg_Files pkg !! path = None).
Proof.
  intros Hv. apply defaultSkip_vendor in Hv.
  destruct (parseProject_Loaded Match excludeDirs
              (λ p, defaultSkip p = false) root (λ _ H, H)) as [Hfs Hpk].
  split; [|split].
  - intros info st. unfold walkFn. by rewrite Hv.
  - intros Hin. rewrite Forall_forall in Hfs. specialize (Hfs _ Hin). congruence.
  - intros name pkg Hpkg.
    destruct (ast.pkg_Files pkg !! path) as [f|] eqn:Hf; [|reflexivity].
    assert (defaultSkip path = false) by (eapply Hpk; [exact Hpkg | by rewrite Hf]).
    congruence.
Qed.

Lemma vendor_path_never_loaded_witness :
  strings.Contains "vendor/lib/x.go" "vendor/" = true ∧
  globalFileSet (fst (parseProject Match [] vendorTree)) = ["main.go"] ∧
  ("vendor/lib/x.go" ∉ globalFileSet (fst (parseProject Match [] vendorTree))).
Proof.
  split; [reflexivity|]. split; [reflexivity|].
  apply (vendor_path_never_loaded Match [] vendorTree "vendor/lib/x.go").
  reflexivity.
Defined.

(** ** Directories and exclusion patterns *)

Lemma Base_nonempty path : filepath.Base path ≠ "".
Proof.
  unfold filepath.Base.
  destruct (String.eqb path ""); [discriminate|].
  destruct (String.eqb _ "") eqn:E; [discriminate|].
  by apply String.eqb_neq in E.
Qed.

(** A path that does not end in ".go", as the path of nearly every
    directory, leaves the callback at its first test. *)
Lemma walkFn_not_go Match excludeDirs path info st :
  strings.HasSuffix path ".go" = false →
  walkFn Match excludeDirs path info st = (nil_, st).
Proof. intros H. unfold walkFn, defaultSkip. by rewrite H. Qed.

(** C8: a directory whose final path segment equals an exclusion
    pattern exactly is not pruned: the callback returns [nil] on it,
    never [SkipDir], so that [filepath.Walk] descends into it. *)
Theorem directory_named_by_pattern_not_pruned
    Match excludeDirs path info st pattern :
  pattern ∈ excludeDirs →
  filepath.Base path = strings.TrimSpace pattern →
  walkFn Match excludeDirs path info st = (nil_, st).
Proof.
  intros Hin Hbase. unfold walkFn.
  destruct (defaultSkip path); [reflexivity|].
  assert (existsb (excludedBy Match path) excludeDirs = true) as ->; [|reflexivity].
  apply existsb_exists. exists pattern. split; [by apply list_elem_of_In|].
  unfold excludedBy, exactNameMatch.
  destruct (String.eqb (strings.TrimSpace pattern) "") eqn:E.
  - apply String.eqb_eq in E. rewrite <- Hbase in E. by destruct (Base_nonempty path).
  - rewrite Hbase, String.eqb_refl. reflexivity.
Qed.

Lemma directory_named_by_pattern_not_pruned_witness :
  filepath.Base "scripts" = strings.TrimSpace "scripts" ∧
  walkFn Match ["scripts"] "scripts" (fs.Dir "scripts" []) newLoader = (nil_, newLoader) ∧
  Visits Match ["scripts"] "." (fs.Dir "." scriptsTree) newLoader
         "scripts/gen.go" (fs.File "gen.go" (fs.Parsed (emptyFile "main"))) newLoader ∧
  walkFn Match ["o.go"] "foo.go" (fs.Dir "foo.go" []) newLoader = (SkipDir, newLoader).
Proof.
  split; [reflexivity|]. split; [|split].
  - apply (directory_named_by_pattern_not_pruned Match ["scripts"] "scripts"
             (fs.Dir "scripts" []) newLoader "scripts");
      [apply list_elem_of_here | reflexivity].
  - apply (Visits_entry Match ["scripts"] "." "." [] _ [] newLoader newLoader newLoader);
      [reflexivity | reflexivity |].
    apply (Visits_entry Match ["scripts"] "scripts" "scripts" [] _ []
             newLoader newLoader newLoader);
      [ apply (directory_named_by_pattern_not_pruned Match ["scripts"] "scripts" _
                 newLoader "scripts"); [apply list_elem_of_here | reflexivity]
      | reflexivity | apply Visits_here ].
  - reflexivity.
Defined.

(** C7: the directory path test on the pattern "test" and the path
    "contest/a.go": the pattern is no path segment, occurring only at
    the end of the segment "contest", and yet the test succeeds and
    the file is left out of the load; so for the pattern "vendor" and
    the segment "myvendor". *)
Lemma directory_match_inside_segment :
  directoryPathMatch "contest/a.go" "test" = true ∧
  ("test" ∉ strings.Split "contest/a.go" filepath.slash) ∧
  fst (parseProject Match ["test"] contestTree) = newLoader ∧
  globalFileSet (fst (parseProject Match [] contestTree)) = ["contest/a.go"] ∧
  directoryPathMatch "myvendor/a.go" "vendor" = true ∧
  ("vendor" ∉ strings.Split "myvendor/a.go" filepath.slash).
Proof.
  repeat split; try reflexivity.
  - intros H. vm_compute in H. by repeat (apply elem_of_cons in H as [?|H]; [done|]; try by apply elem_of_nil in H).
  - intros H. vm_compute in H. by repeat (apply elem_of_cons in H as [?|H]; [done|]; try by apply elem_of_nil in H).
Qed.

(** ** A file that does not parse *)

Section ParseFailure.

Variable Match : string → string → option bool.
Variable excludeDirs : list string.

(** The callback on a file that passed the tests and does not parse. *)
Lemma walkFn_Unparsable path name st :
  defaultSkip path = false →
  existsb (excludedBy Match path) excludeDirs = false →
  walkFn Match excludeDirs path (fs.File name fs.Unparsable) st =
  (Err (ErrParseFile path),
   {| packages := packages st; globalFileSet := globalFileSet st ++ [path] |}).
Proof. intros H1 H2. unfold walkFn. rewrite H1, H2. reflexivity. Qed.

(** Once the walk calls the callback on such a file, the parse error
    is what the walk of every enclosing directory returns, and the
    loader stays as it was at that call. *)
Lemma walk_stops_at_Unparsable path info st p name stp :
  Visits Match excludeDirs path info st p (fs.File name fs.Unparsable) stp →
  defaultSkip p = false →
  existsb (excludedBy Match p) excludeDirs = false →
  walk Match excludeDirs path info st =
  (Err (ErrParseFile p),
   {| packages := packages stp; globalFileSet := globalFileSet stp ++ [p] |}).
Proof.
  intros HV H1 H2.
  remember (fs.File name fs.Unparsable) as bad eqn:Hbad.
  induction HV as [path info st|path dir before e after st st1 st2 p i stp Hfn Hbefore HV IH].
  - subst info. simpl. by apply walkFn_Unparsable.
  - rewrite walk_Dir, Hfn, walkEntries_app, Hbefore. simpl.
    by rewrite (IH Hbad H1 H2).
Qed.

End ParseFailure.

(** C3, as the code has it: when the walk reaches a file that does not
    parse, [parseProject] returns that file's parse error with the
    loader as it was when the file was reached (no entry after it is
    loaded), and [validateProject] returns the error without running a
    rule: there is no Diagnostic at all. *)
Theorem parse_failure_aborts_run
    Match root rangeOrder flagExclude config p name stp :
  fs.Stat root "go.mod" ≠ fs.NotExist →
  Visits Match (mergeExclude flagExclude config) "." (fs.Dir "." root) newLoader
         p (fs.File name fs.Unparsable) stp →
  defaultSkip p = false →
  existsb (excludedBy Match p) (mergeExclude flagExclude config) = false →
  parseProject Match (mergeExclude flagExclude config) root =
    ({| packages := packages stp; globalFileSet := globalFileSet stp ++ [p] |},
     Some (ErrParseFile p)) ∧
  allErrors (validateProject Match root rangeOrder flagExclude (inl config)) = [] ∧
  ending (validateProject Match root rangeOrder flagExclude (inl config)) =
    Return (Some (Errorf "failed to parse project" (Some (ErrParseFile p)))).
Proof.
  intros Hmod HV H1 H2.
  assert (parseProject Match (mergeExclude flagExclude config) root =
          ({| packages := packages stp; globalFileSet := globalFileSet stp ++ [p] |},
           Some (ErrParseFile p))) as Hparse.
  { unfold parseProject, Walk.
    by rewrite (walk_stops_at_Unparsable _ _ _ _ _ _ _ _ HV H1 H2). }
  split; [exact Hparse|].
  unfold validateProject.
  destruct (fs.Stat root "go.mod"); [|done|]; rewrite Hparse; split; reflexivity.
Qed.

Lemma parse_failure_aborts_run_witness :
  parseProject Match (mergeExclude [] noConfig) brokenTree =
    ({| packages := ∅; globalFileSet := ["a.go"] |}, Some (ErrParseFile "a.go")) ∧
  allErrors (validateProject Match brokenTree inOrder [] (inl noConfig)) = [] ∧
  ending (validateProject Match brokenTree inOrder [] (inl noConfig)) =
    Return (Some (Errorf "failed to parse project" (Some (ErrParseFile "a.go")))).
Proof.
  apply (parse_failure_aborts_run Match brokenTree inOrder [] noConfig
           "a.go" "a.go" newLoader).
  - by vm_compute.
  - apply (Visits_entry Match _ "." "." [] (fs.File "a.go" fs.Unparsable)
             [fs.File "b.go" (fs.Parsed (emptyFile "main")); fs.File "go.mod" fs.Unparsable]
             newLoader newLoader newLoader);
      [reflexivity | reflexivity | apply Visits_here].
  - reflexivity.
  - reflexivity.
Defined.

(** C3 fails on the tree with "a.go", which does not parse, before
    "b.go", which does: no Diagnostic is recorded for "a.go", "b.go" is
    never handed to the parser and is in no package, and the run ends
    with the error returned. *)
Lemma parse_failure_not_isolated :
  allErrors (validateProject Match brokenTree inOrder [] (inl noConfig)) = [] ∧
  ("b.go" ∉ globalFileSet (fst (parseProject Match [] brokenTree))) ∧
  packages (fst (parseProject Match [] brokenTree)) = ∅ ∧
  ending (validateProject Match brokenTree inOrder [] (inl noConfig)) =
    Return (Some (Errorf "failed to parse project" (Some (ErrParseFile "a.go")))).
Proof.
  repeat split; try reflexivity.
  intros H. vm_compute in H.
  apply elem_of_cons in H as [?|H]; [done|]. by apply elem_of_nil in H.
Qed.

(** * Properties of the checkers *)

Lemma collect_cons {A} (f : A → M (list ValidationError)) x l s :
  collect f (x :: l) s =
  (let '(e, s1) := f x s in
   let '(es, s2) := collect f l s1 in (e ++ es, s2)).
Proof. reflexivity. Qed.

Lemma collect_Forall {A} (P : ValidationError → Prop)
    (f : A → M (list ValidationError)) l :
  (∀ x, x ∈ l → ∀ s, Forall P (fst (f x s))) →
  ∀ s, Forall P (fst (collect f l s)).
Proof.
  induction l as [|x l IH]; intros Hf s.
  - constructor.
  - rewrite collect_cons.
    pose proof (Hf x (list_elem_of_here _ _) s) as Hx.
    destruct (f x s) as [e s1].
    assert (Forall P (fst (collect f l s1))) as Hl.
    { apply IH. intros y Hy. apply Hf. by apply list_elem_of_further. }
    destruct (collect f l s1) as [es s2]. simpl in *.
    apply Forall_app. by split.
Qed.

(** When every element yields exactly one Diagnostic, there are as
    many Diagnostics as elements. *)
Lemma collect_singletons {A} (P : ValidationError → Prop)
    (f : A → M (list ValidationError)) l :
  (∀ x s, ∃ d, fst (f x s) = [d] ∧ P d) →
  ∀ s, length (fst (collect f l s)) = length l ∧ Forall P (fst (collect f l s)).
Proof.
  intros Hf. induction l as [|x l IH]; intros s.
  - split; [reflexivity | constructor].
  - rewrite collect_cons.
    destruct (Hf x s) as (d & Hd & HP).
    destruct (f x s) as [e s1]. simpl in Hd. subst e.
    destruct (IH s1) as [Hlen Hall].
    destruct (collect f l s1) as [es s2]. simpl in *.
    split; [by rewrite Hlen | by constructor].
Qed.

Lemma Forall_flat_map_intro {A B} (P : B → Prop) (f : A → list B) l :
  (∀ x, x ∈ l → Forall P (f x)) → Forall P (flat_map f l).
Proof.
  induction l as [|x l IH]; intros Hf; simpl; [constructor|].
  apply Forall_app. split.
  - apply Hf, list_elem_of_here.
  - apply IH. intros y Hy. by apply Hf, list_elem_of_further.
Qed.

Section CheckerFacts.

Variable Match : string → string → option bool.
Variable root : list fs.Node.
Variable rangeOrder : RangeOrder.

(** A [range] loop visits exactly the entries of its map. *)
Lemma range_entries {A} (m : gmap string A) s k v :
  (k, v) ∈ fst (range rangeOrder m s) → m !! k = Some v.
Proof.
  unfold range; simpl. rewrite (visit_perm rangeOrder).
  apply elem_of_map_to_list.
Qed.

Lemma range_length {A} (m : gmap string A) s :
  length (fst (range rangeOrder m s)) = size m.
Proof.
  unfold range; simpl. rewrite (visit_perm rangeOrder).
  apply length_map_to_list.
Qed.

Lemma interfaceContractsOfFile_fields filePath file :
  Forall (λ d, Rule d = "R01-interface-contracts" ∧ File d = filePath)
         (interfaceContractsOfFile filePath file).
Proof.
  unfold interfaceContractsOfFile. apply Forall_app. split;
    apply Forall_flat_map_intro; intros t _;
    case_match; repeat constructor.
Qed.

Lemma constructorPatternsOfFile_fields filePath file :
  Forall (λ d, Rule d = "R02-constructor-patterns" ∧ File d = filePath)
         (constructorPatternsOfFile filePath file).
Proof.
  unfold constructorPatternsOfFile. apply Forall_flat_map_intro. intros decl _.
  unfold constructorPatternOfDecl.
  repeat case_match; repeat constructor.
Qed.

Lemma per_file_FoundIn rule pkg s
    (f : string → ast.File → list ValidationError) :
  (∀ filePath file, Forall (λ d, Rule d = rule ∧ File d = filePath) (f filePath file)) →
  Forall (FoundIn rule pkg)
    (flat_map (λ '(filePath, file), f filePath file)
              (fst (range rangeOrder (ast.pkg_Files pkg) s))).
Proof.
  intros Hf. apply Forall_flat_map_intro. intros [filePath file] Hin.
  apply range_entries in Hin.
  eapply Forall_impl; [apply Hf|].
  intros d [Hr Hfile]. split; [exact Hr|]. rewrite Hfile, Hin. by eexists.
Qed.

Lemma validateInterfaceContracts_FoundIn pkg s :
  Forall (FoundIn "R01-interface-contracts" pkg)
         (fst (validateInterfaceContracts rangeOrder pkg s)).
Proof.
  pose proof (per_file_FoundIn "R01-interface-contracts" pkg s
                interfaceContractsOfFile interfaceContractsOfFile_fields) as H.
  unfold validateInterfaceContracts, mbind, M_bind, mret, M_ret.
  by destruct (range rangeOrder (ast.pkg_Files pkg) s).
Qed.

Lemma validateConstructorPatterns_FoundIn pkg s :
  Forall (FoundIn "R02-constructor-patterns" pkg)
         (fst (validateConstructorPatterns rangeOrder pkg s)).
Proof.
  pose proof (per_file_FoundIn "R02-constructor-patterns" pkg s
                constructorPatternsOfFile constructorPatternsOfFile_fields) as H.
  unfold validateConstructorPatterns, mbind, M_bind, mret, M_ret.
  by destruct (range rangeOrder (ast.pkg_Files pkg) s).
Qed.

Lemma pointerField_fields what filePath file imports field s :
  Forall (λ d, Rule d = "R06-interface-usage" ∧ File d = filePath)
         (fst (pointerField Match root rangeOrder what filePath file imports field s)).
Proof.
  unfold pointerField.
  destruct (ast.Type_ field) as [| star x | | | | |]; try constructor.
  destruct x as [typeName | | sx typeName | | | |]; try constructor.
  - simpl. case_match; repeat constructor.
  - destruct sx as [pkgIdent | | | | | |]; try constructor.
    destruct (imports !! pkgIdent) as [packagePath|]; [|constructor].
    unfold mbind, M_bind.
    destruct (isExternalInterface _ _ _ _ _ s) as [[] s']; simpl; repeat constructor.
Qed.

Lemma pointerResult_fields filePath file result :
  Forall (λ d, Rule d = "R06-interface-usage" ∧ File d = filePath)
         (pointerResult filePath file result).
Proof.
  unfold pointerResult. repeat case_match; repeat constructor.
Qed.

Lemma inspectNode_fields filePath file imports node s :
  Forall (λ d, Rule d = "R06-interface-usage" ∧ File d = filePath)
         (fst (inspectNode Match root rangeOrder filePath file imports node s)).
Proof.
  destruct node as [| d | | | | e | |]; try constructor.
  - destruct d as [|n]; [constructor|]. unfold inspectNode, mbind, M_bind.
    assert (Forall (λ d, Rule d = "R06-interface-usage" ∧ File d = filePath)
              (match ast.fd_Results n with
               | Some results => flat_map (pointerResult filePath file) results
               | None => []
               end)) as Hrs.
    { destruct (ast.fd_Results n); [|constructor].
      apply Forall_flat_map_intro. intros r _. apply pointerResult_fields. }
    destruct (ast.fd_Params n) as [params|].
    + pose proof (collect_Forall _
                    (pointerField Match root rangeOrder "Function parameter"
                       filePath file imports) params
                    (λ x _ s1, pointerField_fields _ _ _ _ x s1) s) as Hps.
      destruct (collect _ params s) as [ps s1]. simpl in *.
      apply Forall_app. by split.
    + simpl. exact Hrs.
  - destruct e as [| star x | | fields | | |]; try constructor.
    + destruct x; try constructor. simpl. case_match; repeat constructor.
    + simpl. apply collect_Forall. intros x _ s1. apply pointerField_fields.
Qed.

Lemma validateInterfaceUsage_FoundIn pkg s :
  Forall (FoundIn "R06-interface-usage" pkg)
         (fst (validateInterfaceUsage Match root rangeOrder pkg s)).
Proof.
  unfold validateInterfaceUsage, mbind, M_bind.
  pose proof (λ k v, range_entries (ast.pkg_Files pkg) s k v) as Hin.
  destruct (range rangeOrder (ast.pkg_Files pkg) s) as [files s1]. simpl in Hin.
  apply collect_Forall. intros [filePath file] Hx s2.
  apply Hin in Hx.
  eapply Forall_impl.
  - apply collect_Forall. intros node _ s3. apply inspectNode_fields.
  - intros d [Hr Hf]. split; [exact Hr|]. rewrite Hf, Hx. by eexists.
Qed.

Lemma validateDomainBoundaries_nil pkg s :
  fst (validateDomainBoundaries pkg s) = [].
Proof. reflexivity. Qed.

(** The file-level checkers yield one Diagnostic per call when the
    directory is missing, none otherwise. *)
Lemma validateCentralizedConfig_missing pkg s :
  fs.Stat root "internal/config" = fs.NotExist →
  ∃ d, fst (validateCentralizedConfig root pkg s) = [d] ∧
       (Rule d = "R04-centralized-config" ∧ File d = "internal/config" ∧
        Line d = 0 ∧ Column d = 0 ∧ Severity d = "error").
Proof.
  intros H. unfold validateCentralizedConfig. simpl. rewrite H.
  eexists. split; [reflexivity|]. by repeat split.
Qed.

Lemma validateCentralizedConfig_fields pkg s :
  Forall (λ d, Rule d = "R04-centralized-config" ∧ File d = "internal/config")
         (fst (validateCentralizedConfig root pkg s)).
Proof.
  unfold validateCentralizedConfig. simpl. case_match; repeat constructor.
Qed.

Lemma validateSystematicErrors_fields pkg s :
  Forall (λ d, Rule d = "R05-systematic-errors" ∧ File d = "internal/errors")
         (fst (validateSystematicErrors root pkg s)).
Proof.
  unfold validateSystematicErrors. simpl. case_match; repeat constructor.
Qed.

(** One rule over all packages. *)
Lemma runRule_Forall (P : ValidationError → Prop) pkgs rule s :
  (∀ name pkg, pkgs !! name = Some pkg →
               ∀ s', Forall P (fst (vr_Check rule pkg s'))) →
  Forall P (fst (runRule rangeOrder pkgs rule s)).
Proof.
  intros Hcheck. unfold runRule, mbind, M_bind.
  pose proof (λ k v, range_entries pkgs s k v) as Hin.
  destruct (range rangeOrder pkgs s) as [ps s1]. simpl in Hin.
  apply collect_Forall. intros [name pkg] Hx s2.
  eapply Hcheck, Hin, Hx.
Qed.

Lemma runRule_InPackages pkgs rule id s :
  (∀ pkg s', Forall (FoundIn id pkg) (fst (vr_Check rule pkg s'))) →
  Forall (InPackages pkgs id) (fst (runRule rangeOrder pkgs rule s)).
Proof.
  intros Hcheck. apply runRule_Forall. intros name pkg Hpkg s'.
  eapply Forall_impl; [apply Hcheck|].
  intros d Hd. by exists name, pkg.
Qed.

Lemma runRule_one_per_package (P : ValidationError → Prop) pkgs rule s :
  (∀ pkg s', ∃ d, fst (vr_Check rule pkg s') = [d] ∧ P d) →
  length (fst (runRule rangeOrder pkgs rule s)) = size pkgs ∧
  Forall P (fst (runRule rangeOrder pkgs rule s)).
Proof.
  intros Hcheck. unfold runRule, mbind, M_bind.
  pose proof (range_length pkgs s) as Hlen.
  destruct (range rangeOrder pkgs s) as [ps s1]. simpl in Hlen.
  rewrite <- Hlen.
  apply (collect_singletons P (λ '(_, pkg), vr_Check rule pkg)).
  intros [name pkg] s'. apply Hcheck.
Qed.

(** [allErrors] is made of five runs, one per checker that reports
    anything, in the order of the registry. *)
Lemma runRules_groups pkgs s :
  ∃ e1 e2 e3 e5 e6,
    fst (runRules Match root rangeOrder pkgs s) = e1 ++ e2 ++ e3 ++ e5 ++ e6 ∧
    Forall (InPackages pkgs "R01-interface-contracts") e1 ∧
    Forall (InPackages pkgs "R06-interface-usage") e2 ∧
    Forall (InPackages pkgs "R02-constructor-patterns") e3 ∧
    Forall (λ d, Rule d = "R04-centralized-config" ∧ File d = "internal/config") e5 ∧
    (fs.Stat root "internal/config" = fs.NotExist →
     length e5 = size pkgs ∧
     Forall (λ d, Line d = 0 ∧ Column d = 0 ∧ Severity d = "error") e5) ∧
    Forall (λ d, Rule d = "R05-systematic-errors" ∧ File d = "internal/errors") e6.
Proof.
  unfold runRules, rules. rewrite collect_cons.
  pose proof (runRule_InPackages pkgs
    {| vr_Name := "R01-interface-contracts";
       vr_Description := "Interface contracts: exported interfaces + unexported structs";
       vr_Check := validateInterfaceContracts rangeOrder |} _ s
    (validateInterfaceContracts_FoundIn)) as H1.
  destruct (runRule _ _ _ s) as [e1 s1].
  rewrite collect_cons.
  pose proof (runRule_InPackages pkgs
    {| vr_Name := "R02-interface-usage";
       vr_Description := "Interface usage: no pointer-to-interface anti-patterns";
       vr_Check := validateInterfaceUsage Match root rangeOrder |} _ s1
    (validateInterfaceUsage_FoundIn)) as H2.
  destruct (runRule _ _ _ s1) as [e2 s2].
  rewrite collect_cons.
  pose proof (runRule_InPackages pkgs
    {| vr_Name := "R03-constructor-patterns";
       vr_Description := "Constructor patterns: constructors return interfaces";
       vr_Check := validateConstructorPatterns rangeOrder |} _ s2
    (validateConstructorPatterns_FoundIn)) as H3.
  destruct (runRule _ _ _ s2) as [e3 s3].
  rewrite collect_cons.
  pose proof (runRule_Forall (λ _, False) pkgs
    {| vr_Name := "R04-domain-boundaries";
       vr_Description := "Domain boundaries: clean layer separation";
       vr_Check := validateDomainBoundaries |} s3
    (λ _ _ _ _, Forall_nil_2 _)) as H4.
  destruct (runRule _ _ _ s3) as [e4 s4].
  rewrite collect_cons.
  pose proof (runRule_Forall _ pkgs
    {| vr_Name := "R05-centralized-config";
       vr_Description := "Centralized configuration: internal/config package exists";
       vr_Check := validateCentralizedConfig root |} s4
    (λ _ pkg _ s', validateCentralizedConfig_fields pkg s')) as H5.
  pose proof (λ Hmiss, runRule_one_per_package _ pkgs
    {| vr_Name := "R05-centralized-config";
       vr_Description := "Centralized configuration: internal/config package exists";
       vr_Check := validateCentralizedConfig root |} s4
    (λ pkg s', validateCentralizedConfig_missing pkg s' Hmiss)) as H5'.
  destruct (runRule _ _ _ s4) as [e5 s5].
  rewrite collect_cons.
  pose proof (runRule_Forall _ pkgs
    {| vr_Name := "R06-systematic-errors";
       vr_Description := "Systematic error handling: internal/errors package exists";
       vr_Check := validateSystematicErrors root |} s5
    (λ _ pkg _ s', validateSystematicErrors_fields pkg s')) as H6.
  destruct (runRule _ _ _ s5) as [e6 s6].
  simpl in *.
  assert (e4 = []) as ->.
  { destruct e4 as [|d e4]; [reflexivity|]. by inversion H4. }
  exists e1, e2, e3, e5, e6. rewrite app_nil_r. simpl.
  split; [reflexivity|]. repeat (split; [assumption|]).
  split; [|assumption].
  intros Hmiss. destruct (H5' Hmiss) as [Hlen Hall]. split; [exact Hlen|].
  eapply Forall_impl; [exact Hall|]. simpl. intros d (_ & _ & ? & ? & ?). by repeat split.
Qed.

End CheckerFacts.

(** * The run as a whole *)

Section RunFacts.

Variable Match : string → string → option bool.
Variable root : list fs.Node.
Variable rangeOrder : RangeOrder.

(** Either no rule was run, or [allErrors] is what the rules gave on
    the loaded packages, from an empty cache. *)
Lemma validateProject_allErrors flagExclude loadGearConfig :
  allErrors (validateProject Match root rangeOrder flagExclude loadGearConfig) = [] ∨
  ∃ config loaded,
    loadGearConfig = inl config ∧
    parseProject Match (mergeExclude flagExclude config) root = (loaded, None) ∧
    allErrors (validateProject Match root rangeOrder flagExclude loadGearConfig) =
    fst (runRules Match root rangeOrder (packages loaded)
           {| externalPackageCache := ∅; ranges := 0 |}).
Proof.
  unfold validateProject.
  destruct (fs.Stat root "go.mod"); [|by left|];
    (destruct loadGearConfig as [config|err]; [|by left]);
    (destruct (parseProject _ _ root) as [loaded [err|]] eqn:Hparse; [by left|]);
    right; exists config, loaded; (split; [reflexivity|]); (split; [exact Hparse|]);
    by destruct (runRules _ _ _ _ _) as [[|d errs] s'].
Qed.

(** The lines of the Diagnostics are printed in the order of
    [allErrors]. *)
Lemma validateProject_stdout flagExclude loadGearConfig :
  allErrors (validateProject Match root rangeOrder flagExclude loadGearConfig) ≠ [] →
  ∃ before after,
    stdout (validateProject Match root rangeOrder flagExclude loadGearConfig) =
    before ++
    flat_map reportLine
      (allErrors (validateProject Match root rangeOrder flagExclude loadGearConfig)) ++
    after.
Proof.
  unfold validateProject.
  destruct (fs.Stat root "go.mod"); [|done|];
    (destruct loadGearConfig as [config|err]; [|done]);
    (destruct (parseProject _ _ root) as [loaded [err|]]; [done|]);
    (destruct (runRules _ _ _ _ _) as [[|d errs] s']; [done|]);
    cbn [stdout allErrors]; intros _;
    eexists (_ ++ [_; _; _]), [_; _]; apply app_assoc.
Qed.

(** The process exits with status 1 exactly when some entry of
    [allErrors] has the coded severity "error". *)
Lemma exit_1_iff_coded_error flagExclude loadGearConfig :
  ending (validateProject Match root rangeOrder flagExclude loadGearConfig) = Exit 1 ↔
  ∃ d, d ∈ allErrors (validateProject Match root rangeOrder flagExclude loadGearConfig) ∧
       Severity d = "error".
Proof.
  assert (∀ errs, (0 <? countSeverity "error" errs) = true ↔
                  ∃ d, d ∈ errs ∧ Severity d = "error") as Hcount.
  { intros errs. unfold countSeverity. rewrite Z.ltb_lt.
    induction errs as [|d errs IH]; simpl.
    - split; [lia|]. intros (d & Hd & _). by apply elem_of_nil in Hd.
    - destruct (String.eqb (Severity d) "error") eqn:E; simpl.
      + apply String.eqb_eq in E. split; [|lia]. intros _. exists d.
        split; [apply list_elem_of_here | exact E].
      + apply String.eqb_neq in E. rewrite IH. split.
        * intros (d' & Hd' & Hs). exists d'. split; [by apply list_elem_of_further | exact Hs].
        * intros (d' & Hd' & Hs). apply elem_of_cons in Hd' as [->|Hd']; [done|].
          by exists d'. }
  unfold validateProject.
  assert (∀ e, Return e = Exit 1 ↔
               ∃ d : ValidationError, d ∈ @nil ValidationError ∧ Severity d = "error")
    as Hnone.
  { intros e. split; [done | intros (d & Hd & _); by apply elem_of_nil in Hd]. }
  unfold validateProject.
  destruct (fs.Stat root "go.mod"); [|apply Hnone|];
    (destruct loadGearConfig as [config|err]; [|apply Hnone]);
    (destruct (parseProject _ _ root) as [loaded [err|]]; [apply Hnone|]);
    (destruct (runRules _ _ _ _ _) as [[|d errs] s']; [apply Hnone|]);
    cbn [ending allErrors]; rewrite <- Hcount;
    destruct (0 <? _); split; congruence.
Qed.

End RunFacts.

(** ** Order of the Diagnostics *)

(** C6, as the code has it: the Diagnostics of a run are grouped by
    checker, in the order of the registry (interface contracts,
    interface usage, constructor patterns, centralized configuration,
    systematic errors), whatever the iteration orders of the maps are;
    their lines are printed in that order; nothing sorts them by file
    path, line, column and rule identifier. *)
Theorem diagnostics_grouped_by_checker
    Match root rangeOrder flagExclude loadGearConfig :
  ∃ e1 e2 e3 e5 e6,
    allErrors (validateProject Match root rangeOrder flagExclude loadGearConfig) =
      e1 ++ e2 ++ e3 ++ e5 ++ e6 ∧
    Forall (λ d, Rule d = "R01-interface-contracts") e1 ∧
    Forall (λ d, Rule d = "R06-interface-usage") e2 ∧
    Forall (λ d, Rule d = "R02-constructor-patterns") e3 ∧
    Forall (λ d, Rule d = "R04-centralized-config") e5 ∧
    Forall (λ d, Rule d = "R05-systematic-errors") e6 ∧
    (e1 ++ e2 ++ e3 ++ e5 ++ e6 ≠ [] →
     ∃ before after,
       stdout (validateProject Match root rangeOrder flagExclude loadGearConfig) =
       before ++ flat_map reportLine (e1 ++ e2 ++ e3 ++ e5 ++ e6) ++ after).
Proof.
  destruct (validateProject_allErrors Match root rangeOrder flagExclude loadGearConfig)
    as [Hnil | (config & loaded & _ & _ & Hrun)].
  - exists [], [], [], [], []. rewrite Hnil. simpl.
    repeat (split; [done || constructor|]). done.
  - destruct (runRules_groups Match root rangeOrder (packages loaded)
                {| externalPackageCache := ∅; ranges := 0 |})
      as (e1 & e2 & e3 & e5 & e6 & Heq & H1 & H2 & H3 & H5 & _ & H6).
    exists e1, e2, e3, e5, e6. rewrite Hrun, Heq.
    split; [reflexivity|].
    split; [eapply Forall_impl; [exact H1|]; by intros d (? & ? & ? & ? & ?)|].
    split; [eapply Forall_impl; [exact H2|]; by intros d (? & ? & ? & ? & ?)|].
    split; [eapply Forall_impl; [exact H3|]; by intros d (? & ? & ? & ? & ?)|].
    split; [eapply Forall_impl; [exact H5|]; by intros d [? ?]|].
    split; [eapply Forall_impl; [exact H6|]; by intros d [? ?]|].
    intros Hne. rewrite <- Heq, <- Hrun. apply validateProject_stdout.
    by rewrite Hrun, Heq.
Qed.

(** C6 fails on the tree of two packages: the run that iterates over
    the package map in one order and the run that iterates in the
    other print the two Diagnostics in different orders.  It fails on
    the tree of one file too: the Diagnostic of line 9 is printed
    before that of line 3. *)
Lemma output_depends_on_iteration_order :
  stdout (validateProject Match twoPackagesTree inOrder [] (inl noConfig)) ≠
  stdout (validateProject Match twoPackagesTree reversed [] (inl noConfig)) ∧
  map (λ d, (File d, Line d, Column d, Rule d))
      (allErrors (validateProject Match twoPackagesTree inOrder [] (inl noConfig))) =
    [("alpha/a.go", 3, 6, "R01-interface-contracts");
     ("beta/b.go", 3, 6, "R01-interface-contracts")] ∧
  map (λ d, (File d, Line d, Column d, Rule d))
      (allErrors (validateProject Match twoPackagesTree reversed [] (inl noConfig))) =
    [("beta/b.go", 3, 6, "R01-interface-contracts");
     ("alpha/a.go", 3, 6, "R01-interface-contracts")] ∧
  map (λ d, (File d, Line d, Column d, Rule d))
      (allErrors (validateProject Match serviceTree inOrder [] (inl noConfig))) =
    [("pkg/svc.go", 9, 6, "R01-interface-contracts");
     ("pkg/svc.go", 3, 1, "R02-constructor-patterns")].
Proof.
  split; [|by vm_compute].
  intros H. vm_compute in H. discriminate H.
Qed.

(** ** The centralized configuration checker *)

Lemma filter_none {A} (f : A → bool) l :
  Forall (λ x, f x = false) l → List.filter f l = [].
Proof.
  induction 1 as [|x l Hx _ IH]; simpl; [reflexivity|]. by rewrite Hx.
Qed.

Lemma filter_all {A} (f : A → bool) l :
  Forall (λ x, f x = true) l → List.filter f l = l.
Proof.
  induction 1 as [|x l Hx _ IH]; simpl; [reflexivity|]. by rewrite Hx, IH.
Qed.

(** A Diagnostic reported against a loaded file is not reported
    against "internal/config": loaded paths end in ".go". *)
Lemma InPackages_not_config Match excludeDirs root rule d :
  InPackages (packages (fst (parseProject Match excludeDirs root))) rule d →
  String.eqb (File d) "internal/config" = false.
Proof.
  intros (name & pkg & Hpkg & _ & Hfile).
  destruct (parseProject_Loaded Match excludeDirs
              (λ p, defaultSkip p = false) root (λ _ H, H)) as [_ Hpk].
  specialize (Hpk _ _ _ Hpkg Hfile).
  apply String.eqb_neq. intros Heq. rewrite Heq in Hpk. discriminate Hpk.
Qed.

(** When [os.Stat] reports "internal/config" as not existing, a run
    that gets as far as the rules reports one Diagnostic against
    "internal/config" for every loaded package, each an error without
    line and column. *)
Lemma config_diagnostics_when_missing
    Match root rangeOrder flagExclude config loaded :
  fs.Stat root "go.mod" ≠ fs.NotExist →
  parseProject Match (mergeExclude flagExclude config) root = (loaded, None) →
  fs.Stat root "internal/config" = fs.NotExist →
  length (List.filter (λ d, String.eqb (File d) "internal/config")
            (allErrors (validateProject Match root rangeOrder flagExclude (inl config)))) =
    size (packages loaded) ∧
  Forall (λ d, Line d = 0 ∧ Column d = 0 ∧ Severity d = "error")
         (List.filter (λ d, String.eqb (File d) "internal/config")
            (allErrors (validateProject Match root rangeOrder flagExclude (inl config)))).
Proof.
  intros Hmod Hparse Hmiss.
  assert (allErrors (validateProject Match root rangeOrder flagExclude (inl config)) =
          fst (runRules Match root rangeOrder (packages loaded)
                 {| externalPackageCache := ∅; ranges := 0 |})) as ->.
  { unfold validateProject.
    destruct (fs.Stat root "go.mod"); [|done|]; rewrite Hparse;
      by destruct (runRules _ _ _ _ _) as [[|d errs] s']. }
  destruct (runRules_groups Match root rangeOrder (packages loaded)
              {| externalPackageCache := ∅; ranges := 0 |})
    as (e1 & e2 & e3 & e5 & e6 & -> & H1 & H2 & H3 & H5 & H5' & H6).
  destruct (H5' Hmiss) as [Hlen Hall].
  assert (loaded = fst (parseProject Match (mergeExclude flagExclude config) root))
    as Hloaded by (by rewrite Hparse).
  rewrite Hloaded in H1, H2, H3.
  rewrite !List.filter_app.
  rewrite (filter_none _ e1), (filter_none _ e2), (filter_none _ e3),
          (filter_all _ e5), (filter_none _ e6); simpl.
  - rewrite app_nil_r. by split.
  - eapply Forall_impl; [exact H6|]. simpl. by intros d [_ ->].
  - eapply Forall_impl; [exact H5|]. simpl. by intros d [_ ->].
  - eapply Forall_impl; [exact H3|]. intros d. apply InPackages_not_config.
  - eapply Forall_impl; [exact H2|]. intros d. apply InPackages_not_config.
  - eapply Forall_impl; [exact H1|]. intros d. apply InPackages_not_config.
Qed.

(** C5 fails on the tree of two packages without "internal/config":
    the checker reports twice; and on the tree without any Go file it
    does not report at all. *)
Lemma config_diagnostic_not_unique :
  fs.Stat noConfigDirTree "internal/config" = fs.NotExist ∧
  map (λ d, (File d, Line d, Column d, Severity d))
      (allErrors (validateProject Match noConfigDirTree inOrder [] (inl noConfig))) =
    [("internal/config", 0, 0, "error"); ("internal/config", 0, 0, "error")] ∧
  fs.Stat noPackageTree "internal/config" = fs.NotExist ∧
  allErrors (validateProject Match noPackageTree inOrder [] (inl noConfig)) = [] ∧
  ending (validateProject Match noPackageTree inOrder [] (inl noConfig)) = Return None.
Proof. by vm_compute. Qed.

(** ** Scenario C *)

Lemma Scope_scenarioC pkgName structName posRepo posStruct posStar :
  localInterface (scenarioC pkgName structName posRepo posStruct posStar) "Repo" = true.
Proof.
  unfold localInterface, Scope, scenarioC. simpl.
  unfold declare at 2. simpl. rewrite lookup_empty.
  unfold declare.
  destruct (String.eqb structName "_"); [by rewrite lookup_insert_eq|].
  destruct (decide (structName = "Repo")) as [->|Hne].
  - by rewrite !lookup_insert_eq.
  - rewrite (lookup_insert_ne _ "Repo" structName) by done.
    rewrite lookup_empty.
    rewrite lookup_insert_ne by done. by rewrite lookup_insert_eq.
Qed.

(** A [range] over a map of one entry. *)
Lemma range_singleton {A} rangeOrder (k : string) (v : A) s :
  fst (range rangeOrder ({[ k := v ]} : gmap string A) s) = [(k, v)].
Proof.
  unfold range. simpl. apply Permutation_singleton_r.
  rewrite (visit_perm rangeOrder). by rewrite map_to_list_singleton.
Qed.

(** On a package whose one file is Scenario C, the two Diagnostics
    for the field are all the interface usage checker reports. *)
Lemma scenarioC_reported_twice
    Match root rangeOrder pkgName structName posRepo posStruct posStar filePath s :
  map (λ d, (File d, Line d, Column d, Message d, Severity d))
      (fst (validateInterfaceUsage Match root rangeOrder
              {| ast.pkg_Name := pkgName;
                 ast.pkg_Files :=
                   {[ filePath := scenarioC pkgName structName posRepo posStruct posStar ]} |}
              s)) =
  [ (filePath, ast.Line posStar, ast.Column posStar,
     "Struct field 'repo' has type '*Repo' - pointer to interface is an anti-pattern, use 'Repo' instead",
     "error");
    (filePath, ast.Line posStar, ast.Column posStar,
     "Pointer to interface '*Repo' is an anti-pattern - interfaces are already reference types",
     "error") ].
Proof.
  unfold validateInterfaceUsage, mbind, M_bind.
  pose proof (range_singleton rangeOrder filePath
                (scenarioC pkgName structName posRepo posStruct posStar) s) as Hr.
  cbn [ast.pkg_Files].
  destruct (range rangeOrder _ s) as [files s1]. simpl in Hr. subst files.
  pose proof (Scope_scenarioC pkgName structName posRepo posStruct posStar) as Hloc.
  cbn -[localInterface scenarioC].
  unfold Inspect. cbn -[localInterface].
  unfold mbind, M_bind, mret, M_ret. cbn -[localInterface].
  fold (scenarioC pkgName structName posRepo posStruct posStar).
  rewrite !Hloc. reflexivity.
Qed.

(** ** Pointers to interfaces in struct fields *)

Lemma inspectExpr_unfold e :
  inspectExpr e =
  NExpr e ::
  match e with
  | ast.Ident _ => []
  | ast.StarExpr _ x => inspectExpr x
  | ast.SelectorExpr x sel => inspectExpr x ++ [NExpr (ast.Ident sel)]
  | ast.StructType fields => NFieldList fields :: fieldNodes fields
  | ast.InterfaceType methods => NFieldList methods :: fieldNodes methods
  | ast.FuncType params results =>
    match params with Some l => NFieldList l :: fieldNodes l | None => [] end ++
    match results with Some l => NFieldList l :: fieldNodes l | None => [] end
  | ast.OtherExpr children => flat_map inspectExpr children
  end.
Proof. by destruct e. Qed.

Lemma inspectFieldList_unfold l :
  inspectFieldList l = NFieldList l :: fieldNodes l.
Proof. reflexivity. Qed.

(** *** The nodes below a visited node are visited *)

Lemma Closed_nil : Closed [].
Proof. intros e node H. by apply elem_of_nil in H. Qed.

Lemma Closed_app l1 l2 : Closed l1 → Closed l2 → Closed (l1 ++ l2).
Proof.
  intros H1 H2 e node He Hn. apply elem_of_app in He as [He|He]; apply elem_of_app.
  - left. by apply (H1 e).
  - right. by apply (H2 e).
Qed.

Lemma Closed_cons node l :
  (∀ e, node = NExpr e → ∀ n, n ∈ inspectExpr e → n ∈ node :: l) →
  Closed l → Closed (node :: l).
Proof.
  intros Hnode Hl e n He Hn. apply elem_of_cons in He as [He|He].
  - by apply (Hnode e).
  - apply elem_of_cons. right. by apply (Hl e).
Qed.

Lemma Closed_flat_map {A} (f : A → list Node) l :
  Forall (λ x, Closed (f x)) l → Closed (flat_map f l).
Proof.
  induction 1 as [|x l Hx _ IH]; simpl; [apply Closed_nil | by apply Closed_app].
Qed.

Lemma Closed_idents names : Closed (idents names).
Proof.
  induction names as [|n names IH]; [apply Closed_nil|].
  apply Closed_cons; [|exact IH].
  intros e [= <-] node Hn. simpl in Hn. apply list_elem_of_singleton in Hn as ->.
  apply elem_of_cons. by left.
Qed.

Lemma Closed_fieldNodes l :
  Forall (λ f, Closed (inspectExpr (snd f))) l → Closed (fieldNodes l).
Proof.
  intros H. apply Closed_flat_map. eapply Forall_impl; [exact H|].
  intros f Hf. apply Closed_cons; [discriminate|].
  apply Closed_app; [apply Closed_idents | exact Hf].
Qed.

Lemma Closed_fieldList l :
  Forall (λ f, Closed (inspectExpr (snd f))) l →
  Closed (NFieldList l :: fieldNodes l).
Proof.
  intros H. apply Closed_cons; [discriminate|]. by apply Closed_fieldNodes.
Qed.

Lemma Closed_inspectExpr e : Closed (inspectExpr e).
Proof.
  induction e as [n | star x IH | x sel IH | fields IH | methods IH
                  | params results IHp IHr | children IH] using Expr_induction;
    rewrite inspectExpr_unfold;
    (apply Closed_cons;
     [ intros e' [= <-] node Hn; by rewrite inspectExpr_unfold in Hn |]).
  - apply Closed_nil.
  - exact IH.
  - apply Closed_app; [exact IH|]. apply (Closed_idents [sel]).
  - by apply Closed_fieldList.
  - by apply Closed_fieldList.
  - apply Closed_app.
    + destruct params; [by apply Closed_fieldList | apply Closed_nil].
    + destruct results; [by apply Closed_fieldList | apply Closed_nil].
  - by apply Closed_flat_map.
Qed.

Lemma Closed_Inspect file : Closed (Inspect file).
Proof.
  unfold Inspect. apply Closed_cons; [discriminate|].
  apply Closed_app; [apply Closed_idents|].
  apply Closed_flat_map, Forall_forall. intros d _.
  unfold inspectDecl. apply Closed_cons; [discriminate|].
  destruct d as [tok specs | f].
  - apply Closed_flat_map, Forall_forall. intros sp _.
    unfold inspectSpec. apply Closed_cons; [discriminate|].
    destruct sp as [i | t | names typ values].
    + apply Closed_app.
      * destruct (ast.imp_Name i); [apply Closed_idents | apply Closed_nil].
      * apply Closed_cons; [discriminate | apply Closed_nil].
    + apply Closed_app; [apply Closed_idents | apply Closed_inspectExpr].
    + apply Closed_app; [apply Closed_idents|]. apply Closed_app.
      * destruct typ; [apply Closed_inspectExpr | apply Closed_nil].
      * apply Closed_flat_map, Forall_forall. intros v _. apply Closed_inspectExpr.
  - apply Closed_app.
    + destruct (ast.fd_Recv f) as [l|]; [|apply Closed_nil].
      rewrite inspectFieldList_unfold. apply Closed_fieldList, Forall_forall.
      intros fld _. apply Closed_inspectExpr.
    + apply Closed_app; [apply Closed_idents|]. apply Closed_app.
      * apply Closed_inspectExpr.
      * apply Closed_cons; [discriminate|].
        apply Closed_flat_map, Forall_forall. intros v _. apply Closed_inspectExpr.
Qed.

(** The type of a field of a visited struct type is visited. *)
Lemma field_type_visited file fields names t :
  NExpr (ast.StructType fields) ∈ Inspect file →
  (names, t) ∈ fields →
  NExpr t ∈ Inspect file.
Proof.
  intros Hs Hf. apply (Closed_Inspect file _ _ Hs).
  rewrite inspectExpr_unfold. do 2 apply list_elem_of_further.
  unfold fieldNodes. apply list_elem_of_In, in_flat_map.
  exists (names, t). split; [by apply list_elem_of_In|].
  simpl. right. apply in_or_app. right.
  rewrite inspectExpr_unfold. by left.
Qed.

(** *** Counting the reports at one position *)

Lemma reportsAt_app filePath pos l1 l2 :
  reportsAt filePath pos (l1 ++ l2) =
  (reportsAt filePath pos l1 + reportsAt filePath pos l2)%nat.
Proof. unfold reportsAt. by rewrite List.filter_app, length_app. Qed.

Lemma reportsAt_le_length filePath pos l :
  (reportsAt filePath pos l ≤ length l)%nat.
Proof.
  unfold reportsAt. induction l as [|d l IH]; simpl; [lia|].
  destruct (reportedAt filePath pos d); simpl; lia.
Qed.

Lemma collect_reportsAt {A} filePath pos (f : A → M (list ValidationError))
    (g : A → nat) l :
  (∀ x, x ∈ l → ∀ s, (reportsAt filePath pos (fst (f x s)) ≤ g x)%nat) →
  ∀ s, (reportsAt filePath pos (fst (collect f l s)) ≤ sum_list_with g l)%nat.
Proof.
  induction l as [|x l IH]; intros Hf s; [simpl; unfold reportsAt; simpl; lia|].
  rewrite collect_cons.
  pose proof (Hf x (list_elem_of_here _ _) s) as Hx.
  destruct (f x s) as [e s1].
  assert (reportsAt filePath pos (fst (collect f l s1)) ≤ sum_list_with g l)%nat as Hl.
  { apply IH. intros y Hy. apply Hf. by apply list_elem_of_further. }
  destruct (collect f l s1) as [es s2]. simpl in *.
  rewrite reportsAt_app. lia.
Qed.

Lemma flat_map_reportsAt {A} filePath pos (f : A → list ValidationError)
    (g : A → nat) l :
  (∀ x, (reportsAt filePath pos (f x) ≤ g x)%nat) →
  (reportsAt filePath pos (flat_map f l) ≤ sum_list_with g l)%nat.
Proof.
  intros Hf. induction l as [|x l IH]; simpl; [unfold reportsAt; simpl; lia|].
  rewrite reportsAt_app. specialize (Hf x). lia.
Qed.

Lemma collect_elem {A} (f : A → M (list ValidationError)) l x d :
  x ∈ l → (∀ s, d ∈ fst (f x s)) → ∀ s, d ∈ fst (collect f l s).
Proof.
  intros Hx Hd. induction l as [|y l IH]; intros s; [by apply elem_of_nil in Hx|].
  rewrite collect_cons.
  apply elem_of_cons in Hx as [<-|Hx].
  - specialize (Hd s). destruct (f x s) as [e s1].
    destruct (collect f l s1) as [es s2]. simpl in *.
    apply elem_of_app. by left.
  - destruct (f y s) as [e s1]. specialize (IH Hx s1).
    destruct (collect f l s1) as [es s2]. simpl in *.
    apply elem_of_app. by right.
Qed.

(** A Diagnostic of the interface usage checker at [star] is counted
    at [pos] only when the two positions agree. *)
Lemma reportsAt_interfaceUsageError filePath pos k star message :
  (reportsAt filePath pos [interfaceUsageError k star message] ≤
   (if samePosition star pos then 1 else 0))%nat.
Proof.
  unfold reportsAt, reportedAt, samePosition. simpl.
  destruct (String.eqb k filePath); simpl; [|repeat case_match; simpl; lia].
  destruct (ast.Line star =? ast.Line pos); simpl; [|lia].
  destruct (ast.Column star =? ast.Column pos); simpl; lia.
Qed.

Lemma reportsAt_nil filePath pos : reportsAt filePath pos [] = 0%nat.
Proof. reflexivity. Qed.

Section PointerReports.

Variable Match : string → string → option bool.
Variable root : list fs.Node.
Variable rangeOrder : RangeOrder.

Lemma pointerField_reportsAt filePath pos what k file imports field s :
  (reportsAt filePath pos
     (fst (pointerField Match root rangeOrder what k file imports field s)) ≤
   isStarAt pos (snd field))%nat.
Proof.
  unfold pointerField, ast.Type_.
  destruct (snd field) as [| star x | | | | |]; simpl; try (rewrite reportsAt_nil; lia).
  destruct x as [typeName | | sx typeName | | | |]; simpl;
    try (rewrite reportsAt_nil; lia).
  - destruct (localInterface file typeName);
      [apply reportsAt_interfaceUsageError | rewrite reportsAt_nil; lia].
  - destruct sx as [pkgIdent | | | | | |]; simpl; try (rewrite reportsAt_nil; lia).
    destruct (imports !! pkgIdent) as [packagePath|]; simpl;
      [|rewrite reportsAt_nil; lia].
    unfold mbind, M_bind.
    destruct (isExternalInterface _ _ _ _ _ s) as [[] s']; simpl;
      [apply reportsAt_interfaceUsageError | rewrite reportsAt_nil; lia].
Qed.

Lemma pointerResult_reportsAt filePath pos k file result :
  (reportsAt filePath pos (pointerResult k file result) ≤
   isStarAt pos (snd result))%nat.
Proof.
  unfold pointerResult, ast.Type_.
  destruct (snd result) as [| star x | | | | |]; simpl; try (rewrite reportsAt_nil; lia).
  destruct x as [name | | | | | |]; simpl; try (rewrite reportsAt_nil; lia).
  destruct (localInterface file name);
    [apply reportsAt_interfaceUsageError | rewrite reportsAt_nil; lia].
Qed.

(** What one call of the function handed to [ast.Inspect] reports at
    [pos]. *)
Lemma inspectNode_reportsAt filePath pos k file imports node s :
  (reportsAt filePath pos
     (fst (inspectNode Match root rangeOrder k file imports node s)) ≤
   fieldsLookedAt pos node + starNodeAt pos node)%nat.
Proof.
  destruct node as [| d | | | | e | |]; simpl; try (rewrite reportsAt_nil; lia).
  - destruct d as [|n]; simpl; [rewrite reportsAt_nil; lia|].
    unfold mbind, M_bind.
    assert (reportsAt filePath pos
              (match ast.fd_Results n with
               | Some results => flat_map (pointerResult k file) results
               | None => []
               end) ≤ starFieldsAt pos (default [] (ast.fd_Results n)))%nat as Hrs.
    { destruct (ast.fd_Results n) as [results|]; simpl; [|rewrite reportsAt_nil; lia].
      apply flat_map_reportsAt. intros r. apply pointerResult_reportsAt. }
    destruct (ast.fd_Params n) as [params|]; simpl.
    + assert (reportsAt filePath pos
                (fst (collect (pointerField Match root rangeOrder "Function parameter"
                                 k file imports) params s)) ≤
              starFieldsAt pos params)%nat as Hps.
      { apply collect_reportsAt. intros x _ s1. apply pointerField_reportsAt. }
      destruct (collect _ params s) as [ps s1]. simpl in *.
      rewrite reportsAt_app. lia.
    + change (starFieldsAt pos []) with 0%nat. lia.
  - destruct e as [| star x | | fields | | |]; simpl; try (rewrite reportsAt_nil; lia).
    + destruct x as [name | | | | | |]; simpl; try (rewrite reportsAt_nil; lia).
      destruct (localInterface file name);
        [apply reportsAt_interfaceUsageError | rewrite reportsAt_nil; lia].
    + assert (reportsAt filePath pos
                (fst (collect (pointerField Match root rangeOrder "Struct field"
                                 k file imports) fields s)) ≤
              starFieldsAt pos fields)%nat as Hfs.
      { apply collect_reportsAt. intros x _ s1. apply pointerField_reportsAt. }
      lia.
Qed.

End PointerReports.

(** *** Every field the checker looks at is a pointer node of the walk *)

Lemma sum_idents g names :
  (∀ n, g (NExpr (ast.Ident n)) = 0%nat) → sum_list_with g (idents names) = 0%nat.
Proof.
  intros Hg. induction names as [|n names IH]; [reflexivity|].
  simpl. by rewrite Hg, IH.
Qed.

Lemma sum_flat_map_le {A} (g h : Node → nat) (f : A → list Node) (c : A → nat) l :
  Forall (λ x, (sum_list_with g (f x) + c x ≤ sum_list_with h (f x))%nat) l →
  (sum_list_with g (flat_map f l) + sum_list_with c l ≤
   sum_list_with h (flat_map f l))%nat.
Proof.
  induction 1 as [|x l Hx _ IH]; simpl; [lia|].
  rewrite !sum_list_with_app. lia.
Qed.

Section Positions.

Variable pos : ast.Position.

Lemma fieldNodes_looked l :
  Forall (λ f, (sum_list_with (fieldsLookedAt pos) (inspectExpr (snd f)) +
                isStarAt pos (snd f) ≤
                sum_list_with (starNodeAt pos) (inspectExpr (snd f)))%nat) l →
  (sum_list_with (fieldsLookedAt pos) (fieldNodes l) + starFieldsAt pos l ≤
   sum_list_with (starNodeAt pos) (fieldNodes l))%nat.
Proof.
  intros H. unfold fieldNodes, starFieldsAt.
  apply sum_flat_map_le. eapply Forall_impl; [exact H|].
  intros f Hf. simpl in *. rewrite !sum_list_with_app.
  rewrite !sum_idents by reflexivity. lia.
Qed.

(** Below an expression, the fields looked at are pointer nodes other
    than the expression itself. *)
Lemma inspectExpr_looked e :
  (sum_list_with (fieldsLookedAt pos) (inspectExpr e) + isStarAt pos e +
   match e with
   | ast.FuncType params results =>
     starFieldsAt pos (default [] params) + starFieldsAt pos (default [] results)
   | _ => 0
   end ≤ sum_list_with (starNodeAt pos) (inspectExpr e))%nat.
Proof.
  induction e as [n | star x IH | x sel IH | fields IH | methods IH
                  | params results IHp IHr | children IH] using Expr_induction;
    rewrite inspectExpr_unfold; cbn [sum_list_with fieldsLookedAt starNodeAt].
  - simpl. lia.
  - destruct x; simpl in *; lia.
  - rewrite !sum_list_with_app. simpl. destruct x; simpl in *; lia.
  - assert (Forall (λ f, (sum_list_with (fieldsLookedAt pos) (inspectExpr (snd f)) +
                          isStarAt pos (snd f) ≤
                          sum_list_with (starNodeAt pos) (inspectExpr (snd f)))%nat)
                   fields) as H.
    { eapply Forall_impl; [exact IH|]. intros f Hf. simpl in Hf. lia. }
    apply fieldNodes_looked in H. simpl. lia.
  - assert (Forall (λ f, (sum_list_with (fieldsLookedAt pos) (inspectExpr (snd f)) +
                          isStarAt pos (snd f) ≤
                          sum_list_with (starNodeAt pos) (inspectExpr (snd f)))%nat)
                   methods) as H.
    { eapply Forall_impl; [exact IH|]. intros f Hf. simpl in Hf. lia. }
    apply fieldNodes_looked in H. simpl. lia.
  - assert (∀ l, Forall (λ f, (sum_list_with (fieldsLookedAt pos) (inspectExpr (snd f)) +
                               isStarAt pos (snd f) +
                               match snd f with
                               | ast.FuncType params results =>
                                 starFieldsAt pos (default [] params) +
                                 starFieldsAt pos (default [] results)
                               | _ => 0
                               end ≤
                               sum_list_with (starNodeAt pos) (inspectExpr (snd f)))%nat) l →
                 (sum_list_with (fieldsLookedAt pos) (fieldNodes l) +
                  starFieldsAt pos l ≤
                  sum_list_with (starNodeAt pos) (fieldNodes l))%nat) as Hl.
    { intros l H. apply fieldNodes_looked.
      eapply Forall_impl; [exact H|]. intros f Hf. simpl in Hf. lia. }
    rewrite !sum_list_with_app.
    destruct params as [ps|], results as [rs|]; simpl in *;
      try (pose proof (Hl _ IHp)); try (pose proof (Hl _ IHr)); simpl; lia.
  - simpl.
    assert (sum_list_with (fieldsLookedAt pos) (flat_map inspectExpr children) ≤
            sum_list_with (starNodeAt pos) (flat_map inspectExpr children))%nat; [|lia].
    induction IH as [|c children Hc _ IH']; simpl; [lia|].
    rewrite !sum_list_with_app. lia.
Qed.

Lemma inspectExprs_looked l :
  (sum_list_with (fieldsLookedAt pos) (flat_map inspectExpr l) ≤
   sum_list_with (starNodeAt pos) (flat_map inspectExpr l))%nat.
Proof.
  induction l as [|e l IH]; simpl; [lia|].
  rewrite !sum_list_with_app. pose proof (inspectExpr_looked e). lia.
Qed.

Lemma inspectFieldList_looked l :
  (sum_list_with (fieldsLookedAt pos) (NFieldList l :: fieldNodes l) +
   starFieldsAt pos l ≤
   sum_list_with (starNodeAt pos) (NFieldList l :: fieldNodes l))%nat.
Proof.
  assert (sum_list_with (fieldsLookedAt pos) (fieldNodes l) + starFieldsAt pos l ≤
          sum_list_with (starNodeAt pos) (fieldNodes l))%nat; [|simpl; lia].
  apply fieldNodes_looked, Forall_forall. intros f _.
  pose proof (inspectExpr_looked (snd f)). lia.
Qed.

Lemma inspectDecl_looked d :
  (sum_list_with (fieldsLookedAt pos) (inspectDecl d) ≤
   sum_list_with (starNodeAt pos) (inspectDecl d))%nat.
Proof.
  destruct d as [tok specs | f]; unfold inspectDecl;
    cbn [sum_list_with fieldsLookedAt starNodeAt].
  - induction specs as [|sp specs IH]; simpl; [lia|].
    rewrite !sum_list_with_app.
    assert (sum_list_with (fieldsLookedAt pos) (inspectSpec sp) ≤
            sum_list_with (starNodeAt pos) (inspectSpec sp))%nat; [|simpl in *; lia].
    unfold inspectSpec. cbn [sum_list_with fieldsLookedAt starNodeAt].
    destruct sp as [i | t | names typ values].
    + rewrite !sum_list_with_app. simpl.
      destruct (ast.imp_Name i); simpl; lia.
    + rewrite !sum_list_with_app, !sum_idents by reflexivity.
      pose proof (inspectExpr_looked (ast.ts_Type t)). lia.
    + rewrite !sum_list_with_app, !sum_idents by reflexivity.
      pose proof (inspectExprs_looked values).
      destruct typ as [t|]; simpl; [pose proof (inspectExpr_looked t)|]; lia.
  - rewrite !sum_list_with_app. cbn [sum_list_with fieldsLookedAt starNodeAt].
    rewrite !sum_idents by reflexivity.
    pose proof (inspectExpr_looked (ast.FuncType (ast.fd_Params f) (ast.fd_Results f))).
    pose proof (inspectExprs_looked (ast.fd_Body f)).
    assert (sum_list_with (fieldsLookedAt pos)
              (match ast.fd_Recv f with Some l => inspectFieldList l | None => [] end) ≤
            sum_list_with (starNodeAt pos)
              (match ast.fd_Recv f with Some l => inspectFieldList l | None => [] end))%nat.
    { destruct (ast.fd_Recv f) as [l|]; [|simpl; lia].
      rewrite inspectFieldList_unfold.
      pose proof (inspectFieldList_looked l). lia. }
    cbn [sum_list_with fieldsLookedAt starNodeAt isStarAt] in *.
    unfold ast.FieldList, ast.Field in *. lia.
Qed.

Lemma Inspect_looked file :
  (sum_list_with (fieldsLookedAt pos) (Inspect file) ≤
   sum_list_with (starNodeAt pos) (Inspect file))%nat.
Proof.
  unfold Inspect. cbn [sum_list_with fieldsLookedAt starNodeAt].
  rewrite !sum_list_with_app, !sum_idents by reflexivity.
  induction (ast.Decls file) as [|d decls IH]; [simpl; lia|].
  cbn [flat_map]. rewrite !sum_list_with_app. pose proof (inspectDecl_looked d). lia.
Qed.

(** With pairwise distinct positions, at most one pointer node is at
    [pos]. *)
Lemma one_star_at file :
  NoDup (starPositions file) →
  (sum_list_with (starNodeAt pos) (Inspect file) ≤ 1)%nat.
Proof.
  unfold starPositions.
  assert (∀ l, pos ∉ flat_map (λ node, match node with
                                       | NExpr (ast.StarExpr star _) => [star]
                                       | _ => []
                                       end) l →
               sum_list_with (starNodeAt pos) l = 0%nat) as Hnone.
  { induction l as [|node l IH]; [reflexivity|]. simpl. intros Hn.
    rewrite IH by (intros H; apply Hn, elem_of_app; by right).
    destruct node as [| | | | | e | |]; try reflexivity.
    destruct e as [| star x | | | | |]; try reflexivity. simpl.
    destruct (samePosition star pos) eqn:E; [|reflexivity].
    exfalso. apply Hn, elem_of_app. left.
    unfold samePosition in E. apply andb_true_iff in E as [E1 E2].
    apply Z.eqb_eq in E1, E2. destruct star, pos. simpl in *. subst.
    apply list_elem_of_here. }
  induction (Inspect file) as [|node l IH]; simpl; [lia|].
  intros Hnd. apply NoDup_app in Hnd as (Hhd & Hdisj & Htl).
  specialize (IH Htl).
  destruct node as [| | | | | e | |]; simpl; try lia.
  destruct e as [| star x | | | | |]; simpl; try lia.
  destruct (samePosition star pos) eqn:E; [|lia].
  rewrite Hnone; [lia|].
  unfold samePosition in E. apply andb_true_iff in E as [E1 E2].
  apply Z.eqb_eq in E1, E2. destruct star, pos. simpl in *. subst.
  apply Hdisj, list_elem_of_here.
Qed.

End Positions.

(** *** The reports for one field *)

Lemma sum_list_with_plus {A} (g h : A → nat) l :
  sum_list_with (λ x, (g x + h x)%nat) l =
  (sum_list_with g l + sum_list_with h l)%nat.
Proof. induction l as [|x l IH]; simpl; lia. Qed.

Lemma two_distinct_reports (h : ValidationError → bool) l d1 d2 :
  d1 ∈ l → d2 ∈ l → d1 ≠ d2 → h d1 = true → h d2 = true →
  (2 ≤ length (List.filter h l))%nat.
Proof.
  intros H1 H2 Hne Hh1 Hh2.
  assert (In d1 (List.filter h l)) as Hf1
    by (apply filter_In; split; [by apply list_elem_of_In | exact Hh1]).
  assert (In d2 (List.filter h l)) as Hf2
    by (apply filter_In; split; [by apply list_elem_of_In | exact Hh2]).
  destruct (List.filter h l) as [|x [|y l']]; simpl in *; [tauto| |lia].
  destruct Hf1 as [<-|[]], Hf2 as [<-|[]]. by destruct Hne.
Qed.

Lemma keys_sum {A} (filePath : string) (l : list (string * A)) :
  NoDup (map fst l) →
  (sum_list_with (λ kv, if String.eqb (fst kv) filePath then 2%nat else 0%nat) l ≤ 2)%nat.
Proof.
  assert (∀ l' : list (string * A),
            filePath ∉ map fst l' →
            sum_list_with (λ kv, if String.eqb (fst kv) filePath then 2%nat else 0%nat) l'
            = 0%nat) as Hnone.
  { induction l' as [|[k v] l' IH]; [reflexivity|]. simpl. intros Hn.
    rewrite IH by (intros H; apply Hn; by apply list_elem_of_further).
    destruct (String.eqb k filePath) eqn:E; [|reflexivity].
    apply String.eqb_eq in E. subst. exfalso. apply Hn, list_elem_of_here. }
  induction l as [|[k v] l IH]; simpl; [lia|].
  intros Hnd. apply NoDup_cons in Hnd as [Hk Hnd]. specialize (IH Hnd).
  destruct (String.eqb k filePath) eqn:E; [|lia].
  apply String.eqb_eq in E. subst. rewrite Hnone by exact Hk. lia.
Qed.

Section Twice.

Variable Match : string → string → option bool.
Variable root : list fs.Node.
Variable rangeOrder : RangeOrder.

Lemma file_reports_le filePath pos k file imports s :
  NoDup (starPositions file) →
  (reportsAt filePath pos
     (fst (collect (inspectNode Match root rangeOrder k file imports)
                   (Inspect file) s)) ≤ 2)%nat.
Proof.
  intros Hnd.
  pose proof (collect_reportsAt filePath pos
                (inspectNode Match root rangeOrder k file imports)
                (λ node, (fieldsLookedAt pos node + starNodeAt pos node)%nat)
                (Inspect file)
                (λ x _ s1, inspectNode_reportsAt Match root rangeOrder
                             filePath pos k file imports x s1) s) as H.
  rewrite sum_list_with_plus in H.
  pose proof (Inspect_looked pos file). pose proof (one_star_at pos file Hnd). lia.
Qed.

Lemma other_file_reports filePath pos k file imports s :
  k ≠ filePath →
  reportsAt filePath pos
    (fst (collect (inspectNode Match root rangeOrder k file imports)
                  (Inspect file) s)) = 0%nat.
Proof.
  intros Hne. unfold reportsAt. rewrite filter_none; [reflexivity|].
  eapply Forall_impl.
  - apply collect_Forall. intros node _ s1.
    apply (inspectNode_fields Match root rangeOrder k file imports node s1).
  - intros d [_ Hf]. unfold reportedAt. rewrite Hf.
    apply String.eqb_neq in Hne. by rewrite Hne.
Qed.

Lemma package_reports_le pkg filePath file pos s :
  ast.pkg_Files pkg !! filePath = Some file →
  NoDup (starPositions file) →
  (reportsAt filePath pos
     (fst (validateInterfaceUsage Match root rangeOrder pkg s)) ≤ 2)%nat.
Proof.
  intros Hfile Hnd. unfold validateInterfaceUsage, mbind, M_bind.
  pose proof (λ k v, range_entries rangeOrder (ast.pkg_Files pkg) s k v) as Hin.
  assert (NoDup (map fst (fst (range rangeOrder (ast.pkg_Files pkg) s)))) as Hkeys.
  { unfold range. simpl. rewrite (visit_perm rangeOrder).
    apply NoDup_fst_map_to_list. }
  destruct (range rangeOrder (ast.pkg_Files pkg) s) as [files s1]. simpl in Hin, Hkeys.
  etransitivity; [|exact (keys_sum filePath files Hkeys)].
  apply collect_reportsAt. intros [k f] Hx s2. cbn [fst].
  apply Hin in Hx.
  destruct (String.eqb k filePath) eqn:E.
  - apply String.eqb_eq in E. subst k.
    assert (f = file) as -> by congruence.
    by apply file_reports_le.
  - apply String.eqb_neq in E. by rewrite other_file_reports.
Qed.

Lemma package_reports_elem pkg filePath file node d s :
  ast.pkg_Files pkg !! filePath = Some file →
  node ∈ Inspect file →
  (∀ s', d ∈ fst (inspectNode Match root rangeOrder filePath file
                    (importMap file) node s')) →
  d ∈ fst (validateInterfaceUsage Match root rangeOrder pkg s).
Proof.
  intros Hfile Hnode Hd. unfold validateInterfaceUsage, mbind, M_bind.
  assert ((filePath, file) ∈ fst (range rangeOrder (ast.pkg_Files pkg) s)) as Hin.
  { unfold range. simpl. rewrite (visit_perm rangeOrder). by apply elem_of_map_to_list. }
  destruct (range rangeOrder (ast.pkg_Files pkg) s) as [files s1]. simpl in Hin.
  apply (collect_elem _ files (filePath, file)); [exact Hin|].
  intros s2. by apply (collect_elem _ (Inspect file) node).
Qed.

End Twice.

(** C4, as the code has it: a struct field whose type is a pointer to
    a name that the scope of its file resolves to an interface type is
    reported twice by the interface usage checker, whatever the
    package and the rest of the file: once by the case for struct
    types, under the first name of the field (the type name for an
    embedded field), and once by the case for pointer expressions,
    which [ast.Inspect] reaches below the struct type.  Both
    Diagnostics are errors at the position of the pointer type, and,
    positions of pointer types being distinct within a file, they are
    the only Diagnostics of the checker at that position of that
    file. *)
Theorem pointer_to_interface_field_reported_twice
    Match root rangeOrder pkg filePath file fields names star typeName s :
  ast.pkg_Files pkg !! filePath = Some file →
  NExpr (ast.StructType fields) ∈ Inspect file →
  (names, ast.StarExpr star (ast.Ident typeName)) ∈ fields →
  localInterface file typeName = true →
  NoDup (starPositions file) →
  interfaceUsageError filePath star
    ("Struct field '" +:+ fieldName names typeName +:+ "' has type '*" +:+ typeName +:+
     "' - pointer to interface is an anti-pattern, use '" +:+ typeName +:+ "' instead")
    ∈ fst (validateInterfaceUsage Match root rangeOrder pkg s) ∧
  interfaceUsageError filePath star
    ("Pointer to interface '*" +:+ typeName +:+
     "' is an anti-pattern - interfaces are already reference types")
    ∈ fst (validateInterfaceUsage Match root rangeOrder pkg s) ∧
  reportsAt filePath star
    (fst (validateInterfaceUsage Match root rangeOrder pkg s)) = 2%nat.
Proof.
  intros Hfile Hstruct Hfield Hloc Hnd.
  assert (interfaceUsageError filePath star
            ("Struct field '" +:+ fieldName names typeName +:+ "' has type '*" +:+
             typeName +:+ "' - pointer to interface is an anti-pattern, use '" +:+
             typeName +:+ "' instead")
            ∈ fst (validateInterfaceUsage Match root rangeOrder pkg s)) as H1.
  { apply (package_reports_elem Match root rangeOrder pkg filePath file
             (NExpr (ast.StructType fields))); [exact Hfile | exact Hstruct |].
    intros s'. simpl.
    apply (collect_elem _ fields (names, ast.StarExpr star (ast.Ident typeName)));
      [exact Hfield|].
    intros s''. unfold pointerField. simpl. rewrite Hloc. apply list_elem_of_here. }
  assert (interfaceUsageError filePath star
            ("Pointer to interface '*" +:+ typeName +:+
             "' is an anti-pattern - interfaces are already reference types")
            ∈ fst (validateInterfaceUsage Match root rangeOrder pkg s)) as H2.
  { apply (package_reports_elem Match root rangeOrder pkg filePath file
             (NExpr (ast.StarExpr star (ast.Ident typeName)))); [exact Hfile | |].
    - by apply (field_type_visited file fields names).
    - intros s'. simpl. rewrite Hloc. apply list_elem_of_here. }
  split; [exact H1|]. split; [exact H2|].
  apply Nat.le_antisymm.
  - by apply (package_reports_le Match root rangeOrder pkg filePath file).
  - assert (∀ message,
              reportedAt filePath star (interfaceUsageError filePath star message) = true)
      as Hat.
    { intros message. unfold reportedAt. simpl.
      by rewrite String.eqb_refl, !Z.eqb_refl. }
    apply (two_distinct_reports _ _ _ _ H1 H2); [|apply Hat|apply Hat].
    intros Heq. apply (f_equal Message) in Heq. discriminate Heq.
Qed.

Lemma pointer_to_interface_field_reported_twice_witness :
  interfaceUsageError "pkg/svc.go" (pos 9 7)
    "Struct field 'repo' has type '*Repo' - pointer to interface is an anti-pattern, use 'Repo' instead"
    ∈ fst (validateInterfaceUsage Match [] reversed richPackage freshRun) ∧
  interfaceUsageError "pkg/svc.go" (pos 9 7)
    "Pointer to interface '*Repo' is an anti-pattern - interfaces are already reference types"
    ∈ fst (validateInterfaceUsage Match [] reversed richPackage freshRun) ∧
  reportsAt "pkg/svc.go" (pos 9 7)
    (fst (validateInterfaceUsage Match [] reversed richPackage freshRun)) = 2%nat.
Proof.
  apply (pointer_to_interface_field_reported_twice Match [] reversed richPackage
           "pkg/svc.go" richScenario
           [(["name"], ast.Ident "string");
            (["repo"], ast.StarExpr (pos 9 7) (ast.Ident "Repo"))]
           ["repo"] (pos 9 7) "Repo" freshRun).
  - by vm_compute.
  - unfold Inspect, richScenario. simpl.
    repeat first [apply list_elem_of_here | apply list_elem_of_further].
  - apply list_elem_of_further, list_elem_of_here.
  - by vm_compute.
  - vm_compute.
    repeat (apply NoDup_cons_2;
            [intros H; repeat (apply elem_of_cons in H as [H|H]; [discriminate H|]);
             by apply elem_of_nil in H |]).
    apply NoDup_nil_2.
Defined.

(** C4 fails on Scenario C: the run reports two Diagnostics for the
    field, both at line 6, column 7, and none of them carries an
    identifier that starts with "R02". *)
Lemma scenarioC_not_one_R02 :
  map (λ d, (Rule d, File d, Line d, Column d, Severity d))
      (allErrors (validateProject Match scenarioCTree inOrder [] (inl noConfig))) =
    [ ("R06-interface-usage", "pkg/svc.go", 6, 7, "error");
      ("R06-interface-usage", "pkg/svc.go", 6, 7, "error") ] ∧
  List.filter (λ d, strings.HasPrefix (Rule d) "R02")
    (allErrors (validateProject Match scenarioCTree inOrder [] (inl noConfig))) = [].
Proof. by vm_compute. Qed.

(** ** Severity overrides *)

(** No part of a run reads the [rules] section of the configuration. *)
Lemma validateProject_ignores_Rules
    Match root rangeOrder flagExclude exclude rules1 rules2 :
  validateProject Match root rangeOrder flagExclude
    (inl {| Exclude := exclude; Rules := rules1 |}) =
  validateProject Match root rangeOrder flagExclude
    (inl {| Exclude := exclude; Rules := rules2 |}).
Proof. reflexivity. Qed.

(** C1 on the code: with the interface-usage rule overridden to
    "warning" under every spelling of its identifier, the two
    Diagnostics of Scenario C keep the coded severity "error", are
    printed with the error mark, and the process exits with status 1;
    the run is the same as without any override. *)
Theorem severity_override_not_applied :
  Rules scenarioDConfig !! "R02" = Some "warning" ∧
  Rules scenarioDConfig !! "R06-interface-usage" = Some "warning" ∧
  map (λ d, (Rule d, Severity d))
      (allErrors (validateProject Match scenarioCTree inOrder [] (inl scenarioDConfig))) =
    [ ("R06-interface-usage", "error"); ("R06-interface-usage", "error") ] ∧
  flat_map reportLine
      (allErrors (validateProject Match scenarioCTree inOrder [] (inl scenarioDConfig))) =
    [ "❌ [R06-interface-usage] pkg/svc.go:6:7 - Struct field 'repo' has type '*Repo' - pointer to interface is an anti-pattern, use 'Repo' instead";
      "❌ [R06-interface-usage] pkg/svc.go:6:7 - Pointer to interface '*Repo' is an anti-pattern - interfaces are already reference types" ] ∧
  ending (validateProject Match scenarioCTree inOrder [] (inl scenarioDConfig)) = Exit 1 ∧
  validateProject Match scenarioCTree inOrder [] (inl scenarioDConfig) =
  validateProject Match scenarioCTree inOrder [] (inl noConfig).
Proof. by vm_compute. Qed.

(** C2 on the code: in that run every Diagnostic has the effective
    severity "warning", none has "error", and the exit status is 1. *)
Theorem exit_status_follows_coded_severity :
  map (spec_effectiveSeverity scenarioDConfig)
      (allErrors (validateProject Match scenarioCTree inOrder [] (inl scenarioDConfig))) =
    [ "warning"; "warning" ] ∧
  exitStatus (ending (validateProject Match scenarioCTree inOrder [] (inl scenarioDConfig))) =
    Some 1.
Proof. by vm_compute. Qed.

(** ** Rule identifiers *)

(** C9 on the code: the interface usage checker reports under
    "R06-interface-usage", the constructor patterns checker under
    "R02-constructor-patterns", the centralized configuration checker
    under "R04-centralized-config" and the systematic errors checker
    under "R05-systematic-errors", on every package; the registry
    names them R02, R03, R05 and R06.  The package of the example
    makes each of them report. *)
Theorem checkers_report_under_other_identifiers Match root rangeOrder pkg s :
  (Forall (λ d, Rule d = "R06-interface-usage")
          (fst (validateInterfaceUsage Match root rangeOrder pkg s)) ∧
   Forall (λ d, Rule d = "R02-constructor-patterns")
          (fst (validateConstructorPatterns rangeOrder pkg s)) ∧
   Forall (λ d, Rule d = "R04-centralized-config")
          (fst (validateCentralizedConfig root pkg s)) ∧
   Forall (λ d, Rule d = "R05-systematic-errors")
          (fst (validateSystematicErrors root pkg s))) ∧
  map vr_Name (rules Match root rangeOrder) =
    [ "R01-interface-contracts"; "R02-interface-usage"; "R03-constructor-patterns";
      "R04-domain-boundaries"; "R05-centralized-config"; "R06-systematic-errors" ] ∧
  packages (fst (parseProject Match [] everyCheckerTree)) !! "svc" =
    Some everyCheckerPackage ∧
  map Rule (fst (validateInterfaceUsage Match everyCheckerTree inOrder
                   everyCheckerPackage freshRun)) =
    [ "R06-interface-usage"; "R06-interface-usage" ] ∧
  map Rule (fst (validateConstructorPatterns inOrder everyCheckerPackage freshRun)) =
    [ "R02-constructor-patterns" ] ∧
  map Rule (fst (validateCentralizedConfig everyCheckerTree everyCheckerPackage freshRun)) =
    [ "R04-centralized-config" ] ∧
  map Rule (fst (validateSystematicErrors everyCheckerTree everyCheckerPackage freshRun)) =
    [ "R05-systematic-errors" ].
Proof.
  split; [|split; [reflexivity | by vm_compute]].
  split; [|split; [|split]].
  - eapply Forall_impl; [apply validateInterfaceUsage_FoundIn|]. by intros d [? _].
  - eapply Forall_impl; [apply validateConstructorPatterns_FoundIn|]. by intros d [? _].
  - eapply Forall_impl; [apply validateCentralizedConfig_fields|]. by intros d [? _].
  - eapply Forall_impl; [apply validateSystematicErrors_fields|]. by intros d [? _].
Qed.

(** * Further properties of the loader *)

Section LoaderMore.

Variable Match : string → string → option bool.
Variable excludeDirs : list string.

(** What the callback keeps, the walk keeps. *)
Lemma walk_keeps (I : Loader → Prop) :
  (∀ path info st, I st → I (snd (walkFn Match excludeDirs path info st))) →
  ∀ info path st, I st → I (snd (walk Match excludeDirs path info st)).
Proof.
  intros Hfn info. induction info as [name c|name entries IH] using Node_induction;
    intros path st Hst.
  - simpl. by apply Hfn.
  - rewrite walk_Dir.
    pose proof (Hfn path (fs.Dir name entries) st Hst) as H1.
    destruct (walkFn _ _ _ _ _) as [[| |x] st1]; simpl in *; try assumption.
    clear Hst. revert st1 H1.
    induction IH as [|e rest He _ IHrest]; intros st1 H1; simpl; [assumption|].
    pose proof (He (filepath.Join path (fs.name e)) st1 H1) as H2.
    destruct (walk _ _ _ e st1) as [[| |x] st']; simpl in *; try assumption.
    + by apply IHrest.
    + destruct (fs.IsDir e); [by apply IHrest | assumption].
Qed.

(** What the callback keeps whenever it returns no error, the walk
    keeps whenever it returns no error. *)
Lemma walk_keeps_unless_error (Inv : Loader → Prop) :
  (∀ path info st, Inv st →
     match walkFn Match excludeDirs path info st with
     | (Err _, _) => True
     | (_, st') => Inv st'
     end) →
  ∀ info path st, Inv st →
     match walk Match excludeDirs path info st with
     | (Err _, _) => True
     | (_, st') => Inv st'
     end.
Proof.
  intros Hfn info. induction info as [name c|name entries IH] using Node_induction;
    intros path st Hst.
  - simpl. by apply Hfn.
  - rewrite walk_Dir.
    pose proof (Hfn path (fs.Dir name entries) st Hst) as H1.
    destruct (walkFn _ _ _ _ _) as [[| |x] st1]; [|exact H1|exact H1].
    clear Hst. revert st1 H1.
    induction IH as [|e rest He _ IHrest]; intros st1 H1; simpl; [assumption|].
    pose proof (He (filepath.Join path (fs.name e)) st1 H1) as H2.
    destruct (walk _ _ _ e st1) as [[| |x] st']; [by apply IHrest| |exact H2].
    destruct (fs.IsDir e); [by apply IHrest | exact H2].
Qed.

Lemma parseProject_keeps (I : Loader → Prop) root :
  (∀ path info st, I st → I (snd (walkFn Match excludeDirs path info st))) →
  I newLoader → I (fst (parseProject Match excludeDirs root)).
Proof.
  intros Hfn H0. unfold parseProject, Walk.
  pose proof (walk_keeps I Hfn (fs.Dir "." root) "." newLoader H0) as H.
  by destruct (walk _ _ _ _ _) as [[| |x] st'].
Qed.

(** ** Grouping by declared package name *)

Lemma walkFn_Grouped path info st :
  Grouped st → Grouped (snd (walkFn Match excludeDirs path info st)).
Proof.
  intros HG. unfold walkFn.
  destruct (defaultSkip path); [assumption|].
  destruct (existsb _ _); [assumption|].
  destruct (_ && _); [assumption|].
  destruct (fs.content info) as [| |file]; simpl; [assumption| |].
  - intros name pkg Hpkg. destruct (HG name pkg Hpkg) as (Hn & Hne & Hfiles).
    split; [exact Hn|]. split; [exact Hne|].
    intros p f Hf. destruct (Hfiles p f Hf) as [Hd Hin].
    split; [exact Hd|]. simpl. apply elem_of_app. by left.
  - intros name pkg. unfold addFile. simpl.
    destruct (decide (ast.Name file = name)) as [<-|Hne].
    + rewrite lookup_insert_eq. intros Heq. injection Heq as <-. simpl.
      destruct (packages st !! ast.Name file) as [old|] eqn:Hold; simpl.
      * destruct (HG _ _ Hold) as (Hn & _ & Hfiles).
        split; [exact Hn|]. split.
        { intros Hempty. apply (f_equal (λ m, m !! path)) in Hempty.
          by rewrite lookup_insert_eq, lookup_empty in Hempty. }
        intros p f. destruct (decide (path = p)) as [<-|Hp].
        -- rewrite lookup_insert_eq. intros [= <-].
           split; [reflexivity|]. apply elem_of_app. right. apply list_elem_of_here.
        -- rewrite lookup_insert_ne by done. intros Hf.
           destruct (Hfiles p f Hf) as [Hd Hin].
           split; [exact Hd|]. apply elem_of_app. by left.
      * split; [reflexivity|]. split.
        { intros Hempty. apply (f_equal (λ m, m !! path)) in Hempty.
          by rewrite lookup_insert_eq, lookup_empty in Hempty. }
        intros p f. destruct (decide (path = p)) as [<-|Hp].
        -- rewrite lookup_insert_eq. intros [= <-].
           split; [reflexivity|]. apply elem_of_app. right. apply list_elem_of_here.
        -- rewrite lookup_insert_ne by done. by rewrite lookup_empty.
    + rewrite lookup_insert_ne by done. intros Hpkg.
      destruct (HG name pkg Hpkg) as (Hn & Hnempty & Hfiles).
      split; [exact Hn|]. split; [exact Hnempty|].
      intros p f Hf. destruct (Hfiles p f Hf) as [Hd Hin].
      split; [exact Hd|]. apply elem_of_app. by left.
Qed.

Lemma parseProject_Grouped root :
  Grouped (fst (parseProject Match excludeDirs root)).
Proof.
  apply parseProject_keeps.
  - apply walkFn_Grouped.
  - intros name pkg. simpl. by rewrite lookup_empty.
Qed.

End LoaderMore.

(** X1: whatever the tree and the exclusion patterns, and also when
    the load ends with an error, every package [parseProject] built is
    filed under its own name, has at least one file, and each of its
    files declares the package's name and was handed to the parser
    under its path. *)
Theorem parseProject_groups_by_declared_name Match excludeDirs root name pkg :
  packages (fst (parseProject Match excludeDirs root)) !! name = Some pkg →
  ast.pkg_Name pkg = name ∧
  ast.pkg_Files pkg ≠ ∅ ∧
  ∀ path file,
    ast.pkg_Files pkg !! path = Some file →
    ast.Name file = name ∧
    path ∈ globalFileSet (fst (parseProject Match excludeDirs root)).
Proof.
  apply parseProject_Grouped.
Qed.

Lemma parseProject_groups_by_declared_name_witness :
  ∃ pkg,
    packages (fst (parseProject Match [] mainTree)) !! "main" = Some pkg ∧
    ast.pkg_Name pkg = "main" ∧
    ast.pkg_Files pkg ≠ ∅.
Proof.
  eexists. split; [by vm_compute|].
  destruct (parseProject_groups_by_declared_name Match [] mainTree "main" _
              ltac:(by vm_compute)) as (H1 & H2 & _).
  split; [exact H1 | exact H2].
Defined.

(** ** Paths excluded by a pattern *)

Lemma excluded_not_loaded Match excludeDirs root path pattern :
  pattern ∈ excludeDirs →
  excludedBy Match path pattern = true →
  (path ∉ globalFileSet (fst (parseProject Match excludeDirs root))) ∧
  ¬ Stored path (fst (parseProject Match excludeDirs root)).
Proof.
  intros Hin Hex.
  assert (existsb (excludedBy Match path) excludeDirs = true) as Hexists.
  { apply existsb_exists. exists pattern. split; [by apply list_elem_of_In | exact Hex]. }
  assert (Loaded (λ p, existsb (excludedBy Match p) excludeDirs = false)
                 (fst (parseProject Match excludeDirs root))) as [Hfs Hpk].
  { apply parseProject_keeps.
    - intros p info st [Hfs Hpk]. unfold walkFn.
      destruct (defaultSkip p); [by split|].
      destruct (existsb (excludedBy Match p) excludeDirs) eqn:Hp; [by split|].
      destruct (_ && _); [by split|].
      destruct (fs.content info) as [| |file]; simpl; [by split| |].
      + split; simpl; [|assumption].
        apply Forall_app. split; [assumption | by constructor].
      + split; simpl.
        * apply Forall_app. split; [assumption | by constructor].
        * intros name pkg q. unfold addFile.
          destruct (decide (ast.Name file = name)) as [<-|Hne].
          -- rewrite lookup_insert_eq. intros Heq. injection Heq as <-. simpl.
             destruct (decide (p = q)) as [<-|Hq]; [done|].
             rewrite lookup_insert_ne by done.
             destruct (packages st !! ast.Name file) as [old|] eqn:Hold; simpl.
             ++ intros Hq'. eapply Hpk; [exact Hold | exact Hq'].
             ++ rewrite lookup_empty. by intros [? ?].
          -- rewrite lookup_insert_ne by done. apply Hpk.
    - split; [constructor | intros ? ? ?; simpl; by rewrite lookup_empty]. }
  split.
  - intros Hp. rewrite Forall_forall in Hfs. specialize (Hfs _ Hp). congruence.
  - intros (name & pkg & Hpkg & Hfile). specialize (Hpk _ _ _ Hpkg Hfile). congruence.
Qed.

(** X2: a path on which some exclusion pattern succeeds (by its exact
    base name, as a directory path or as a glob) is not loaded: the
    loader [parseProject] never hands it to the parser and it is a
    file of none of the packages the loader returns. *)
Theorem excluded_path_never_loaded Match excludeDirs root path pattern :
  pattern ∈ excludeDirs →
  excludedBy Match path pattern = true →
  (path ∉ globalFileSet (fst (parseProject Match excludeDirs root))) ∧
  ¬ Stored path (fst (parseProject Match excludeDirs root)).
Proof. apply excluded_not_loaded. Qed.

Lemma excluded_path_never_loaded_witness :
  globalFileSet (fst (parseProject Match [] mainTree)) = ["cmd/main.go"; "lib.go"] ∧
  ("cmd/main.go" ∉ globalFileSet (fst (parseProject Match [" main.go "] mainTree))) ∧
  ¬ Stored "cmd/main.go" (fst (parseProject Match [" main.go "] mainTree)).
Proof.
  split; [by vm_compute|].
  apply (excluded_path_never_loaded Match [" main.go "] mainTree "cmd/main.go" " main.go ").
  - apply list_elem_of_here.
  - by vm_compute.
Defined.

(** ** Blank patterns *)

Section WalkExt.

Variable Match : string → string → option bool.
Variables excludeDirs1 excludeDirs2 : list string.

Hypothesis same_callback :
  ∀ path info st,
    walkFn Match excludeDirs1 path info st = walkFn Match excludeDirs2 path info st.

Lemma walk_ext info :
  ∀ path st,
    walk Match excludeDirs1 path info st = walk Match excludeDirs2 path info st.
Proof.
  induction info as [name c|name entries IH] using Node_induction; intros path st.
  - simpl. apply same_callback.
  - rewrite !walk_Dir, same_callback.
    destruct (walkFn _ _ _ _ _) as [[| |x] st1]; try reflexivity.
    revert st1. induction IH as [|e rest He _ IHrest]; intros st1; simpl; [reflexivity|].
    rewrite He.
    destruct (walk _ _ _ e st1) as [[| |x] st']; try reflexivity; [apply IHrest|].
    destruct (fs.IsDir e); [apply IHrest | reflexivity].
Qed.

End WalkExt.

Lemma existsb_filter_notBlank (f : string → bool) l :
  (∀ p, notBlank p = false → f p = false) →
  existsb f (List.filter notBlank l) = existsb f l.
Proof.
  intros Hf. induction l as [|p l IH]; simpl; [reflexivity|].
  destruct (notBlank p) eqn:Hp; simpl; rewrite IH; [reflexivity|].
  by rewrite (Hf p Hp).
Qed.

(** X3: exclusion patterns that are empty or consist of white space
    have no effect on the load: with them and without them
    [parseProject] gives the same packages, file set and error. *)
Theorem blank_patterns_have_no_effect Match excludeDirs root :
  parseProject Match excludeDirs root =
  parseProject Match (List.filter notBlank excludeDirs) root.
Proof.
  unfold parseProject, Walk.
  rewrite (walk_ext Match excludeDirs (List.filter notBlank excludeDirs)); [reflexivity|].
  intros path info st. unfold walkFn.
  rewrite !existsb_filter_notBlank; [reflexivity| |].
  - intros p Hp. unfold skipEntirely. unfold notBlank in Hp.
    apply negb_false_iff in Hp. by rewrite Hp.
  - intros p Hp. unfold excludedBy. unfold notBlank in Hp.
    apply negb_false_iff in Hp. by rewrite Hp.
Qed.

(** ** Nodes that cannot be read *)

(** An error of the callback on any node the walk reaches is what the
    walk returns. *)
Lemma walk_stops_at_error Match excludeDirs path info st p i stp e st' :
  Visits Match excludeDirs path info st p i stp →
  walkFn Match excludeDirs p i stp = (Err e, st') →
  walk Match excludeDirs path info st = (Err e, st').
Proof.
  intros HV Hfn.
  induction HV as [path info st|path dir before x after st st1 st2 p i stp Hdir Hbefore HV IH].
  - destruct info as [name c|name entries]; [exact Hfn|].
    rewrite walk_Dir. by rewrite Hfn.
  - rewrite walk_Dir, Hdir, walkEntries_app, Hbefore. simpl.
    by rewrite (IH Hfn).
Qed.

(** X4: when the walk reaches a node that passes the exclusion tests,
    is not pruned and cannot be read (an unreadable Go file, or a
    directory whose path ends in ".go", which the callback reads as a
    file), [parseProject] returns the read error with the loader as it
    was at that node, and [validateProject] returns it without running
    a rule. *)
Theorem unreadable_node_aborts_run
    Match root rangeOrder flagExclude config p i stp :
  fs.Stat root "go.mod" ≠ fs.NotExist →
  Visits Match (mergeExclude flagExclude config) "." (fs.Dir "." root) newLoader p i stp →
  fs.content i = fs.Unreadable →
  defaultSkip p = false →
  existsb (excludedBy Match p) (mergeExclude flagExclude config) = false →
  fs.IsDir i && existsb (skipEntirely p) (mergeExclude flagExclude config) = false →
  parseProject Match (mergeExclude flagExclude config) root = (stp, Some (ErrReadFile p)) ∧
  allErrors (validateProject Match root rangeOrder flagExclude (inl config)) = [] ∧
  ending (validateProject Match root rangeOrder flagExclude (inl config)) =
    Return (Some (Errorf "failed to parse project" (Some (ErrReadFile p)))).
Proof.
  intros Hmod HV Hc H1 H2 H3.
  assert (parseProject Match (mergeExclude flagExclude config) root =
          (stp, Some (ErrReadFile p))) as Hparse.
  { unfold parseProject, Walk.
    rewrite (walk_stops_at_error _ _ _ _ _ _ _ _ (ErrReadFile p) stp HV); [reflexivity|].
    unfold walkFn. by rewrite H1, H2, H3, Hc. }
  split; [exact Hparse|].
  unfold validateProject.
  destruct (fs.Stat root "go.mod"); [|done|]; rewrite Hparse; split; reflexivity.
Qed.

Lemma unreadable_node_aborts_run_witness :
  parseProject Match (mergeExclude [] noConfig) goNamedDirTree =
    (newLoader, Some (ErrReadFile "gen.go")) ∧
  allErrors (validateProject Match goNamedDirTree inOrder [] (inl noConfig)) = [] ∧
  ending (validateProject Match goNamedDirTree inOrder [] (inl noConfig)) =
    Return (Some (Errorf "failed to parse project" (Some (ErrReadFile "gen.go")))).
Proof.
  apply (unreadable_node_aborts_run Match goNamedDirTree inOrder [] noConfig
           "gen.go" (fs.Dir "gen.go" [fs.File "x.txt" fs.Unreadable]) newLoader).
  - by vm_compute.
  - apply (Visits_entry Match _ "." "." [] _
             [fs.File "go.mod" fs.Unparsable;
              fs.File "main.go" (fs.Parsed (emptyFile "main"))]
             newLoader newLoader newLoader);
      [reflexivity | reflexivity | apply Visits_here].
  - reflexivity.
  - reflexivity.
  - reflexivity.
  - reflexivity.
Defined.

(** ** The file set of a load that succeeds *)

Lemma Stored_addFile path file st :
  Stored path {| packages := addFile path file (packages st);
                 globalFileSet := globalFileSet st ++ [path] |}.
Proof.
  exists (ast.Name file). eexists. split.
  - unfold addFile. simpl. apply lookup_insert_eq.
  - simpl. rewrite lookup_insert_eq. by eexists.
Qed.

Lemma Stored_addFile_mono path file st q :
  Stored q st →
  Stored q {| packages := addFile path file (packages st);
              globalFileSet := globalFileSet st ++ [path] |}.
Proof.
  intros (name & pkg & Hpkg & Hq).
  destruct (decide (ast.Name file = name)) as [<-|Hne].
  - exists (ast.Name file). eexists. split.
    + unfold addFile. simpl. apply lookup_insert_eq.
    + simpl. rewrite Hpkg. simpl.
      destruct (decide (path = q)) as [<-|Hpq].
      * rewrite lookup_insert_eq. by eexists.
      * by rewrite lookup_insert_ne.
  - exists name, pkg. split; [|exact Hq].
    unfold addFile. simpl. by rewrite lookup_insert_ne.
Qed.

(** X5: when [parseProject] returns no error, the files it handed to
    the parser are exactly the files of its packages. *)
Theorem successful_load_stores_every_parsed_file Match excludeDirs root st path :
  parseProject Match excludeDirs root = (st, None) →
  path ∈ globalFileSet st ↔ Stored path st.
Proof.
  intros Hparse. split.
  - assert (Forall (λ p, Stored p st) (globalFileSet st)) as Hall.
    { pose proof (walk_keeps_unless_error Match excludeDirs
                    (λ s, Forall (λ p, Stored p s) (globalFileSet s))) as Hwalk.
      unfold parseProject, Walk in Hparse.
      assert (∀ p info s,
                Forall (λ q, Stored q s) (globalFileSet s) →
                match walkFn Match excludeDirs p info s with
                | (Err _, _) => True
                | (_, s') => Forall (λ q, Stored q s') (globalFileSet s')
                end) as Hfn.
      { intros p info s Hs. unfold walkFn.
        destruct (defaultSkip p); [exact Hs|].
        destruct (existsb _ _); [exact Hs|].
        destruct (_ && _); [exact Hs|].
        destruct (fs.content info) as [| |file]; [exact Logic.I | exact Logic.I |].
        simpl. apply Forall_app. split.
        - eapply Forall_impl; [exact Hs|]. intros q. apply Stored_addFile_mono.
        - constructor; [apply Stored_addFile | constructor]. }
      specialize (Hwalk Hfn (fs.Dir "." root) "." newLoader).
      destruct (walk _ _ _ _ _) as [[| |x] st']; simplify_eq;
        apply Hwalk; constructor. }
    intros Hp. rewrite Forall_forall in Hall. by apply Hall.
  - intros (name & pkg & Hpkg & [file Hfile]).
    assert (st = fst (parseProject Match excludeDirs root)) as -> by (by rewrite Hparse).
    destruct (parseProject_Grouped Match excludeDirs root name pkg Hpkg)
      as (_ & _ & Hfiles).
    by destruct (Hfiles path file Hfile).
Qed.

Lemma successful_load_stores_every_parsed_file_witness :
  "lib.go" ∈ globalFileSet (fst (parseProject Match [] mainTree)) ↔
  Stored "lib.go" (fst (parseProject Match [] mainTree)).
Proof.
  apply (successful_load_stores_every_parsed_file Match [] mainTree).
  by vm_compute.
Defined.

(** * Further properties of the checkers *)

(** ** Interface contracts *)

Lemma Config_is_data_struct name :
  strings.HasSuffix name "Config" = true → isDataStruct name = true.
Proof.
  intros H. unfold isDataStruct, dataStructSuffixes. simpl. rewrite H.
  by rewrite !orb_true_r.
Qed.

Lemma shouldBeUnexported_eq structName filePath file :
  shouldBeUnexported structName filePath file =
  structHasMethods structName file &&
  negb (isDataStruct structName) &&
  negb (dataPath filePath).
Proof.
  unfold shouldBeUnexported, dataPath.
  destruct (structHasMethods structName file); [|reflexivity]. simpl.
  destruct (isDataStruct structName) eqn:Hdata; [reflexivity|]. simpl.
  assert (strings.HasSuffix structName "Config" = false) as ->.
  { destruct (strings.HasSuffix structName "Config") eqn:E; [|reflexivity].
    apply Config_is_data_struct in E. congruence. }
  destruct (strings.Contains filePath "/model/"); [reflexivity|].
  destruct (strings.Contains filePath "/proto/"); [reflexivity|].
  destruct (strings.Contains filePath "/dto/"); [reflexivity|].
  destruct (strings.Contains filePath "/client/"); [reflexivity|].
  destruct (strings.Contains filePath "/provider/"); [reflexivity|].
  destruct (strings.Contains filePath "/config/"); [reflexivity|].
  destruct (strings.Contains filePath "/errors/"); [reflexivity|]. simpl.
  by destruct (_ || _).
Qed.

(** X6: [shouldBeUnexported] answers [true] exactly for a struct that
    has a method in the file, has no data-struct name and is in no
    file of a data path; the tests for the service, handler and
    repository directories never change the answer. *)
Theorem shouldBeUnexported_characterized structName filePath file :
  shouldBeUnexported structName filePath file =
  structHasMethods structName file &&
  negb (isDataStruct structName) &&
  negb (dataPath filePath).
Proof. apply shouldBeUnexported_eq. Qed.

Lemma in_typeSpecs_filter (f : ast.TypeSpec → bool) file t :
  In t (List.filter f (typeSpecs file)) → In t (typeSpecs file) ∧ f t = true.
Proof. apply filter_In. Qed.

(** X7: every Diagnostic of the interface contracts checker for a
    file is either a warning at the position of an exported struct
    type that has a method in that file, has no data-struct name and
    is in no file of a data path, or an error at the position of an
    unexported interface type.  So a struct without methods is never
    reported. *)
Theorem interface_contracts_sound filePath file d :
  d ∈ interfaceContractsOfFile filePath file →
  ∃ t, In t (typeSpecs file) ∧
       File d = filePath ∧
       Line d = ast.Line (ast.ts_Pos t) ∧
       Column d = ast.Column (ast.ts_Pos t) ∧
       ((Severity d = "warning" ∧
         isStructType (ast.ts_Type t) = true ∧
         IsExported (ast.ts_Name t) = true ∧
         structHasMethods (ast.ts_Name t) file = true ∧
         isDataStruct (ast.ts_Name t) = false ∧
         dataPath filePath = false) ∨
        (Severity d = "error" ∧
         isInterfaceType (ast.ts_Type t) = true ∧
         IsExported (ast.ts_Name t) = false)).
Proof.
  intros Hd. apply list_elem_of_In in Hd.
  unfold interfaceContractsOfFile in Hd.
  apply in_app_or in Hd as [Hd|Hd]; apply in_flat_map in Hd as (t & Ht & Hd);
    apply in_typeSpecs_filter in Ht as [Ht Hkind]; exists t; (split; [exact Ht|]).
  - destruct (IsExported (ast.ts_Name t)) eqn:Hexp; [|by destruct Hd].
    destruct (shouldBeUnexported _ _ _) eqn:Hsh; simpl in Hd; [|by destruct Hd].
    destruct Hd as [<-|[]]. simpl.
    rewrite shouldBeUnexported_eq in Hsh.
    apply andb_true_iff in Hsh as [Hsh Hpath].
    apply andb_true_iff in Hsh as [Hmeth Hdata].
    apply negb_true_iff in Hpath, Hdata.
    repeat split; try reflexivity. left. by repeat split.
  - destruct (IsExported (ast.ts_Name t)) eqn:Hexp; simpl in Hd; [by destruct Hd|].
    destruct Hd as [<-|[]]. simpl.
    repeat split; try reflexivity. right. by repeat split.
Qed.

Lemma interface_contracts_sound_witness :
  ∃ d t,
    d ∈ interfaceContractsOfFile "pkg/svc.go" serviceFile ∧
    In t (typeSpecs serviceFile) ∧
    Line d = ast.Line (ast.ts_Pos t) ∧
    ast.ts_Name t = "Service".
Proof.
  eexists. 
  destruct (interface_contracts_sound "pkg/svc.go" serviceFile _
              (list_elem_of_here _ _)) as (t & Ht & _ & Hline & _).
  exists t. split; [apply list_elem_of_here|]. split; [exact Ht|]. split; [exact Hline|].
  destruct Ht as [<-|[]]. reflexivity.
Defined.

(** ** Constructor patterns *)



(** ** Severities *)

Ltac severities :=
  repeat first
    [ apply Forall_nil_2
    | apply Forall_cons_2; [first [by left | by right]|] ].

Section Severities.

Variable Match : string → string → option bool.
Variable root : list fs.Node.
Variable rangeOrder : RangeOrder.

Lemma interfaceContractsOfFile_severity filePath file :
  Forall errorOrWarning (interfaceContractsOfFile filePath file).
Proof.
  unfold interfaceContractsOfFile. apply Forall_app. split;
    apply Forall_flat_map_intro; intros t _; case_match; severities.
Qed.

Lemma constructorPatternsOfFile_severity filePath file :
  Forall errorOrWarning (constructorPatternsOfFile filePath file).
Proof.
  unfold constructorPatternsOfFile. apply Forall_flat_map_intro. intros decl _.
  unfold constructorPatternOfDecl. repeat case_match; severities.
Qed.

Lemma pointerField_severity what filePath file imports field s :
  Forall errorOrWarning
         (fst (pointerField Match root rangeOrder what filePath file imports field s)).
Proof.
  unfold pointerField.
  destruct (ast.Type_ field) as [| star x | | | | |]; try apply Forall_nil_2.
  destruct x as [typeName | | sx typeName | | | |]; try apply Forall_nil_2.
  - simpl. case_match; severities.
  - destruct sx as [pkgIdent | | | | | |]; try apply Forall_nil_2.
    destruct (imports !! pkgIdent) as [packagePath|]; [|apply Forall_nil_2].
    unfold mbind, M_bind.
    destruct (isExternalInterface _ _ _ _ _ s) as [[] s']; simpl; severities.
Qed.

Lemma inspectNode_severity filePath file imports node s :
  Forall errorOrWarning
         (fst (inspectNode Match root rangeOrder filePath file imports node s)).
Proof.
  destruct node as [| d | | | | e | |]; try apply Forall_nil_2.
  - destruct d as [|n]; [apply Forall_nil_2|]. unfold inspectNode, mbind, M_bind.
    assert (Forall errorOrWarning
              (match ast.fd_Results n with
               | Some results => flat_map (pointerResult filePath file) results
               | None => []
               end)) as Hrs.
    { destruct (ast.fd_Results n); [|apply Forall_nil_2].
      apply Forall_flat_map_intro. intros r _.
      unfold pointerResult. repeat case_match; severities. }
    destruct (ast.fd_Params n) as [params|].
    + pose proof (collect_Forall _
                    (pointerField Match root rangeOrder "Function parameter"
                       filePath file imports) params
                    (λ x _ s1, pointerField_severity _ _ _ _ x s1) s) as Hps.
      destruct (collect _ params s) as [ps s1]. simpl in *.
      apply Forall_app. by split.
    + simpl. exact Hrs.
  - destruct e as [| star x | | fields | | |]; try apply Forall_nil_2.
    + destruct x; try apply Forall_nil_2. simpl. case_match; severities.
    + simpl. apply collect_Forall. intros x _ s1. apply pointerField_severity.
Qed.

Lemma rules_severity rule pkg s :
  rule ∈ rules Match root rangeOrder →
  Forall errorOrWarning (fst (vr_Check rule pkg s)).
Proof.
  intros Hrule. unfold rules in Hrule.
  repeat (apply elem_of_cons in Hrule as [->|Hrule]); [..|by apply elem_of_nil in Hrule];
    simpl.
  - unfold validateInterfaceContracts, mbind, M_bind.
    destruct (range rangeOrder (ast.pkg_Files pkg) s) as [files s1]. simpl.
    apply Forall_flat_map_intro. intros [filePath file] _.
    apply interfaceContractsOfFile_severity.
  - unfold validateInterfaceUsage, mbind, M_bind.
    destruct (range rangeOrder (ast.pkg_Files pkg) s) as [files s1].
    apply collect_Forall. intros [filePath file] _ s2.
    apply collect_Forall. intros node _ s3. apply inspectNode_severity.
  - unfold validateConstructorPatterns, mbind, M_bind.
    destruct (range rangeOrder (ast.pkg_Files pkg) s) as [files s1]. simpl.
    apply Forall_flat_map_intro. intros [filePath file] _.
    apply constructorPatternsOfFile_severity.
  - apply Forall_nil_2.
  - unfold validateCentralizedConfig. simpl. case_match; severities.
  - unfold validateSystematicErrors. simpl. case_match; severities.
Qed.

Lemma runRules_severity pkgs s :
  Forall errorOrWarning (fst (runRules Match root rangeOrder pkgs s)).
Proof.
  unfold runRules. apply collect_Forall. intros rule Hrule s1.
  apply runRule_Forall. intros name pkg _ s2. by apply rules_severity.
Qed.

End Severities.

Lemma reportLine_errorOrWarning errs :
  Forall errorOrWarning errs →
  length (flat_map reportLine errs) = length errs ∧
  (countSeverity "error" errs + countSeverity "warning" errs = Z.of_nat (length errs))%Z.
Proof.
  unfold countSeverity. induction 1 as [|d errs Hd _ [IH1 IH2]]; [by split|].
  simpl. unfold reportLine at 1.
  destruct Hd as [Hd|Hd]; rewrite Hd; simpl; rewrite IH1; split; try reflexivity; lia.
Qed.

(** X9: every Diagnostic of every run has the severity "error" or
    "warning" (no checker writes "info" or anything else), so that
    each Diagnostic is printed on a line of its own and the two counts
    of the summary add up to the number of issues announced. *)
Theorem every_diagnostic_is_error_or_warning
    Match root rangeOrder flagExclude loadGearConfig :
  Forall errorOrWarning
    (allErrors (validateProject Match root rangeOrder flagExclude loadGearConfig)) ∧
  length (flat_map reportLine
            (allErrors (validateProject Match root rangeOrder flagExclude loadGearConfig))) =
    length (allErrors (validateProject Match root rangeOrder flagExclude loadGearConfig)) ∧
  (countSeverity "error"
     (allErrors (validateProject Match root rangeOrder flagExclude loadGearConfig)) +
   countSeverity "warning"
     (allErrors (validateProject Match root rangeOrder flagExclude loadGearConfig)) =
   Z.of_nat
     (length (allErrors (validateProject Match root rangeOrder flagExclude loadGearConfig))))%Z.
Proof.
  assert (Forall errorOrWarning
            (allErrors (validateProject Match root rangeOrder flagExclude loadGearConfig)))
    as Hall.
  { destruct (validateProject_allErrors Match root rangeOrder flagExclude loadGearConfig)
      as [-> | (config & loaded & _ & _ & ->)]; [constructor|].
    apply runRules_severity. }
  split; [exact Hall|]. by apply reportLine_errorOrWarning.
Qed.

(** ** A project without Go files to load *)

Lemma range_empty {A} rangeOrder s :
  fst (range rangeOrder (∅ : gmap string A) s) = [].
Proof.
  unfold range. simpl. apply Permutation_nil_r.
  rewrite (visit_perm rangeOrder). by rewrite map_to_list_empty.
Qed.

Lemma runRule_empty rangeOrder rule s :
  fst (runRule rangeOrder ∅ rule s) = [].
Proof.
  unfold runRule, mbind, M_bind.
  pose proof (range_empty (A := ast.Package) rangeOrder s) as Hr.
  destruct (range rangeOrder ∅ s) as [ps s1]. simpl in Hr. by subst ps.
Qed.

Lemma collect_nil {A} (f : A → M (list ValidationError)) l :
  (∀ x, x ∈ l → ∀ s, fst (f x s) = []) → ∀ s, fst (collect f l s) = [].
Proof.
  induction l as [|x l IH]; intros Hf s; [reflexivity|].
  rewrite collect_cons.
  pose proof (Hf x (list_elem_of_here _ _) s) as Hx.
  destruct (f x s) as [e s1]. simpl in Hx. subst e.
  assert (fst (collect f l s1) = []) as Hl.
  { apply IH. intros y Hy. apply Hf. by apply list_elem_of_further. }
  destruct (collect f l s1) as [es s2]. simpl in *. by subst es.
Qed.

(** X10: when no file was loaded (no package), a run that gets as far
    as the rules reports nothing and returns [nil], whatever else the
    project lacks: the checks for "internal/config" and
    "internal/errors" are made once per package, so here never. *)
Theorem no_package_no_diagnostic Match root rangeOrder flagExclude config loaded :
  fs.Stat root "go.mod" ≠ fs.NotExist →
  parseProject Match (mergeExclude flagExclude config) root = (loaded, None) →
  packages loaded = ∅ →
  allErrors (validateProject Match root rangeOrder flagExclude (inl config)) = [] ∧
  ending (validateProject Match root rangeOrder flagExclude (inl config)) = Return None ∧
  last (stdout (validateProject Match root rangeOrder flagExclude (inl config))) =
    Some "✅ All GEAR rules validated successfully!".
Proof.
  intros Hmod Hparse Hempty.
  assert (fst (runRules Match root rangeOrder ∅
                 {| externalPackageCache := ∅; ranges := 0 |}) = []) as Hrun.
  { unfold runRules. apply collect_nil. intros rule _ s. apply runRule_empty. }
  unfold validateProject.
  destruct (fs.Stat root "go.mod"); [|done|]; rewrite Hparse, Hempty;
    destruct (runRules _ _ _ _ _) as [errs s']; simpl in Hrun; subst errs;
    cbn [allErrors ending stdout]; (split; [reflexivity|]); (split; [reflexivity|]);
    by rewrite last_snoc.
Qed.

Lemma no_package_no_diagnostic_witness :
  fs.Stat noPackageTree "internal/config" = fs.NotExist ∧
  allErrors (validateProject Match noPackageTree inOrder [] (inl noConfig)) = [] ∧
  ending (validateProject Match noPackageTree inOrder [] (inl noConfig)) = Return None ∧
  last (stdout (validateProject Match noPackageTree inOrder [] (inl noConfig))) =
    Some "✅ All GEAR rules validated successfully!".
Proof.
  split; [reflexivity|].
  apply (no_package_no_diagnostic Match noPackageTree inOrder [] noConfig newLoader).
  - by vm_compute.
  - by vm_compute.
  - reflexivity.
Defined.

(** ** Exclusions of the command line and of the configuration *)

(** X11: exclusion patterns given on the command line replace those
    of the configuration file, they are not added to them: with a
    non-empty [--exclude] list the run is the same for every
    configuration. *)
Theorem flag_exclusions_replace_config
    Match root rangeOrder flagExclude config1 config2 :
  flagExclude ≠ [] →
  validateProject Match root rangeOrder flagExclude (inl config1) =
  validateProject Match root rangeOrder flagExclude (inl config2).
Proof.
  intros Hflag. unfold validateProject, mergeExclude.
  destruct flagExclude as [|x flag]; [done|]. reflexivity.
Qed.

Lemma flag_exclusions_replace_config_witness :
  validateProject Match mainTree inOrder ["cmd"] (inl excludeLib) =
  validateProject Match mainTree inOrder ["cmd"] (inl noConfig) ∧
  globalFileSet (fst (parseProject Match (mergeExclude ["cmd"] excludeLib) mainTree)) =
    ["lib.go"].
Proof.
  split; [|by vm_compute].
  by apply (flag_exclusions_replace_config Match mainTree inOrder ["cmd"] excludeLib noConfig).
Defined.

(** X12: without [--exclude], the exclusion patterns of the
    configuration file are used as if they had been given on the
    command line: the same Diagnostics and the same ending, and the
    same output but for the line that announces the loaded
    exclusions. *)
Theorem config_exclusions_act_as_flags Match root rangeOrder config :
  fs.Stat root "go.mod" ≠ fs.NotExist →
  Exclude config ≠ [] →
  allErrors (validateProject Match root rangeOrder [] (inl config)) =
    allErrors (validateProject Match root rangeOrder (Exclude config) (inl config)) ∧
  ending (validateProject Match root rangeOrder [] (inl config)) =
    ending (validateProject Match root rangeOrder (Exclude config) (inl config)) ∧
  ∃ first rest,
    stdout (validateProject Match root rangeOrder (Exclude config) (inl config)) =
      first :: rest ∧
    stdout (validateProject Match root rangeOrder [] (inl config)) =
      first ::
      ("📄 Loaded exclusions from .gearrc: [" +:+ joinSpace (Exclude config) +:+ "]") ::
      rest.
Proof.
  intros Hmod Hex.
  assert (mergeExclude [] config = Exclude config) as Hm1.
  { unfold mergeExclude. by destruct (Exclude config). }
  assert (mergeExclude (Exclude config) config = Exclude config) as Hm2.
  { unfold mergeExclude. by destruct (Exclude config). }
  unfold validateProject. rewrite Hm1, Hm2.
  assert (bool_decide (Exclude config = []) = false) as Hdec
    by (by apply bool_decide_eq_false).
  assert (bool_decide (@nil string = []) = true) as Hnil by done.
  rewrite Hdec, Hnil. simpl.
  destruct (fs.Stat root "go.mod"); [|done|];
    (destruct (parseProject _ _ root) as [loaded [err|]];
     [by (repeat split; eexists _, _)|]);
    (destruct (runRules _ _ _ _ _) as [[|d errs] s']);
    by (repeat split; eexists _, _).
Qed.

Lemma config_exclusions_act_as_flags_witness :
  allErrors (validateProject Match mainTree inOrder [] (inl excludeLib)) =
    allErrors (validateProject Match mainTree inOrder ["lib.go"] (inl excludeLib)) ∧
  ending (validateProject Match mainTree inOrder [] (inl excludeLib)) =
    ending (validateProject Match mainTree inOrder ["lib.go"] (inl excludeLib)) ∧
  ∃ first rest,
    stdout (validateProject Match mainTree inOrder ["lib.go"] (inl excludeLib)) =
      first :: rest ∧
    stdout (validateProject Match mainTree inOrder [] (inl excludeLib)) =
      first :: "📄 Loaded exclusions from .gearrc: [lib.go]" :: rest.
Proof.
  apply (config_exclusions_act_as_flags Match mainTree inOrder excludeLib).
  - by vm_compute.
  - discriminate.
Defined.

(** ** The two required directories *)

Section FileLevel.

Variable Match : string → string → option bool.
Variable root : list fs.Node.
Variable rangeOrder : RangeOrder.

Lemma validateSystematicErrors_missing pkg s :
  fs.Stat root "internal/errors" = fs.NotExist →
  ∃ d, fst (validateSystematicErrors root pkg s) = [d] ∧ File d = "internal/errors".
Proof.
  intros H. unfold validateSystematicErrors. simpl. rewrite H.
  eexists. by split.
Qed.

Lemma validateSystematicErrors_present pkg s :
  fs.Stat root "internal/errors" ≠ fs.NotExist →
  fst (validateSystematicErrors root pkg s) = [].
Proof.
  intros H. unfold validateSystematicErrors. simpl.
  by destruct (fs.Stat root "internal/errors").
Qed.

Lemma validateCentralizedConfig_present pkg s :
  fs.Stat root "internal/config" ≠ fs.NotExist →
  fst (validateCentralizedConfig root pkg s) = [].
Proof.
  intros H. unfold validateCentralizedConfig. simpl.
  by destruct (fs.Stat root "internal/config").
Qed.

Lemma runRule_nil rule pkgs s :
  (∀ pkg s', fst (vr_Check rule pkg s') = []) →
  fst (runRule rangeOrder pkgs rule s) = [].
Proof.
  intros Hcheck. unfold runRule, mbind, M_bind.
  destruct (range rangeOrder pkgs s) as [ps s1].
  apply collect_nil. intros [name pkg] _ s2. apply Hcheck.
Qed.

(** The Diagnostics of a run, with what the two file-level checkers
    contribute. *)
Lemma runRules_file_level pkgs s :
  ∃ e1 e2 e3 e5 e6,
    fst (runRules Match root rangeOrder pkgs s) = e1 ++ e2 ++ e3 ++ e5 ++ e6 ∧
    Forall (λ d, ∃ rule, InPackages pkgs rule d) (e1 ++ e2 ++ e3) ∧
    Forall (λ d, File d = "internal/config") e5 ∧
    Forall (λ d, File d = "internal/errors") e6 ∧
    length e5 = (if IsNotExist (fs.Stat root "internal/config")
                 then size pkgs else 0%nat) ∧
    length e6 = (if IsNotExist (fs.Stat root "internal/errors")
                 then size pkgs else 0%nat).
Proof.
  unfold runRules, rules. rewrite collect_cons.
  pose proof (runRule_InPackages rangeOrder pkgs
    {| vr_Name := "R01-interface-contracts";
       vr_Description := "Interface contracts: exported interfaces + unexported structs";
       vr_Check := validateInterfaceContracts rangeOrder |} _ s
    (validateInterfaceContracts_FoundIn rangeOrder)) as H1.
  destruct (runRule _ _ _ s) as [e1 s1]. rewrite collect_cons.
  pose proof (runRule_InPackages rangeOrder pkgs
    {| vr_Name := "R02-interface-usage";
       vr_Description := "Interface usage: no pointer-to-interface anti-patterns";
       vr_Check := validateInterfaceUsage Match root rangeOrder |} _ s1
    (validateInterfaceUsage_FoundIn Match root rangeOrder)) as H2.
  destruct (runRule _ _ _ s1) as [e2 s2]. rewrite collect_cons.
  pose proof (runRule_InPackages rangeOrder pkgs
    {| vr_Name := "R03-constructor-patterns";
       vr_Description := "Constructor patterns: constructors return interfaces";
       vr_Check := validateConstructorPatterns rangeOrder |} _ s2
    (validateConstructorPatterns_FoundIn rangeOrder)) as H3.
  destruct (runRule _ _ _ s2) as [e3 s3]. rewrite collect_cons.
  pose proof (runRule_nil
    {| vr_Name := "R04-domain-boundaries";
       vr_Description := "Domain boundaries: clean layer separation";
       vr_Check := validateDomainBoundaries |} pkgs s3 (λ _ _, eq_refl)) as H4.
  destruct (runRule _ _ _ s3) as [e4 s4]. rewrite collect_cons.
  pose proof (runRule_Forall rangeOrder _ pkgs
    {| vr_Name := "R05-centralized-config";
       vr_Description := "Centralized configuration: internal/config package exists";
       vr_Check := validateCentralizedConfig root |} s4
    (λ _ pkg _ s', validateCentralizedConfig_fields root pkg s')) as H5.
  assert (length (fst (runRule rangeOrder pkgs
    {| vr_Name := "R05-centralized-config";
       vr_Description := "Centralized configuration: internal/config package exists";
       vr_Check := validateCentralizedConfig root |} s4)) =
          (if IsNotExist (fs.Stat root "internal/config")
           then size pkgs else 0%nat)) as H5'.
  { destruct (fs.Stat root "internal/config") eqn:Hstat; simpl.
    2: { apply (runRule_one_per_package rangeOrder (λ _, True)). intros pkg s'.
         destruct (validateCentralizedConfig_missing root pkg s' Hstat) as (d & Hd & _).
         by exists d. }
    all: rewrite runRule_nil; [reflexivity|]; intros pkg s';
      apply validateCentralizedConfig_present; by rewrite Hstat. }
  destruct (runRule _ _ _ s4) as [e5 s5]. rewrite collect_cons.
  pose proof (runRule_Forall rangeOrder _ pkgs
    {| vr_Name := "R06-systematic-errors";
       vr_Description := "Systematic error handling: internal/errors package exists";
       vr_Check := validateSystematicErrors root |} s5
    (λ _ pkg _ s', validateSystematicErrors_fields root pkg s')) as H6.
  assert (length (fst (runRule rangeOrder pkgs
    {| vr_Name := "R06-systematic-errors";
       vr_Description := "Systematic error handling: internal/errors package exists";
       vr_Check := validateSystematicErrors root |} s5)) =
          (if IsNotExist (fs.Stat root "internal/errors")
           then size pkgs else 0%nat)) as H6'.
  { destruct (fs.Stat root "internal/errors") eqn:Hstat; simpl.
    2: { apply (runRule_one_per_package rangeOrder (λ _, True)). intros pkg s'.
         destruct (validateSystematicErrors_missing pkg s' Hstat) as (d & Hd & _).
         by exists d. }
    all: rewrite runRule_nil; [reflexivity|]; intros pkg s';
      apply validateSystematicErrors_present; by rewrite Hstat. }
  destruct (runRule _ _ _ s5) as [e6 s6].
  simpl in *. subst e4.
  exists e1, e2, e3, e5, e6. rewrite app_nil_r. simpl.
  split; [reflexivity|]. split.
  { rewrite !Forall_app. repeat split;
      (eapply Forall_impl; [eassumption|]; intros d Hd; by eexists). }
  split; [eapply Forall_impl; [exact H5|]; by intros d [_ ?]|].
  split; [eapply Forall_impl; [exact H6|]; by intros d [_ ?]|].
  by split.
Qed.

End FileLevel.

Lemma InPackages_ends_in_go Match excludeDirs root rule d :
  InPackages (packages (fst (parseProject Match excludeDirs root))) rule d →
  strings.HasSuffix (File d) ".go" = true.
Proof.
  intros (name & pkg & Hpkg & _ & Hfile).
  destruct (parseProject_Loaded Match excludeDirs
              (λ p, defaultSkip p = false) root (λ _ H, H)) as [_ Hpk].
  specialize (Hpk _ _ _ Hpkg Hfile). unfold defaultSkip in Hpk.
  by destruct (strings.HasSuffix (File d) ".go").
Qed.

(** The numbers of Diagnostics against the two required directories. *)
Lemma required_directory_count
    Match root rangeOrder flagExclude config loaded :
  fs.Stat root "go.mod" ≠ fs.NotExist →
  parseProject Match (mergeExclude flagExclude config) root = (loaded, None) →
  length (List.filter (λ d, String.eqb (File d) "internal/config")
            (allErrors (validateProject Match root rangeOrder flagExclude (inl config)))) =
    (if IsNotExist (fs.Stat root "internal/config")
     then size (packages loaded) else 0%nat) ∧
  length (List.filter (λ d, String.eqb (File d) "internal/errors")
            (allErrors (validateProject Match root rangeOrder flagExclude (inl config)))) =
    (if IsNotExist (fs.Stat root "internal/errors")
     then size (packages loaded) else 0%nat).
Proof.
  intros Hmod Hparse.
  assert (allErrors (validateProject Match root rangeOrder flagExclude (inl config)) =
          fst (runRules Match root rangeOrder (packages loaded)
                 {| externalPackageCache := ∅; ranges := 0 |})) as ->.
  { unfold validateProject.
    destruct (fs.Stat root "go.mod"); [|done|]; rewrite Hparse;
      by destruct (runRules _ _ _ _ _) as [[|d errs] s']. }
  destruct (runRules_file_level Match root rangeOrder (packages loaded)
              {| externalPackageCache := ∅; ranges := 0 |})
    as (e1 & e2 & e3 & e5 & e6 & -> & H123 & H5 & H6 & Hlen5 & Hlen6).
  assert (loaded = fst (parseProject Match (mergeExclude flagExclude config) root))
    as Hloaded by (by rewrite Hparse).
  rewrite Hloaded in H123.
  assert (∀ name, strings.HasSuffix name ".go" = false →
            List.filter (λ d, String.eqb (File d) name) (e1 ++ e2 ++ e3) = []) as Hnone.
  { intros name Hname. apply filter_none.
    eapply Forall_impl; [exact H123|]. intros d [rule Hd]. simpl.
    apply InPackages_ends_in_go in Hd.
    apply String.eqb_neq. intros Heq. rewrite Heq in Hd. congruence. }
  rewrite !(app_assoc e1), !(app_assoc (e1 ++ e2)), <- !(app_assoc e1 e2 e3).
  rewrite !(List.filter_app _ (e1 ++ e2 ++ e3)), !Hnone by reflexivity.
  rewrite !List.filter_app. simpl.
  rewrite (filter_all _ e5), (filter_none _ e6), (filter_none _ e5), (filter_all _ e6).
  - rewrite app_nil_r. simpl. by split.
  - eapply Forall_impl; [exact H6|]. simpl. intros d ->. reflexivity.
  - eapply Forall_impl; [exact H5|]. simpl. intros d ->. reflexivity.
  - eapply Forall_impl; [exact H6|]. simpl. intros d ->. reflexivity.
  - eapply Forall_impl; [exact H5|]. simpl. intros d ->. reflexivity.
Qed.


(** X13: in a run that gets as far as the rules, the number of
    Diagnostics against "internal/config", and likewise against
    "internal/errors", is the number of loaded packages when
    [os.Stat] reports the path as not existing, and zero otherwise: a
    regular file of that name, or a file in the place of "internal",
    satisfies the check. *)
Theorem required_directory_diagnostics
    Match root rangeOrder flagExclude config loaded :
  fs.Stat root "go.mod" ≠ fs.NotExist →
  parseProject Match (mergeExclude flagExclude config) root = (loaded, None) →
  length (List.filter (λ d, String.eqb (File d) "internal/config")
            (allErrors (validateProject Match root rangeOrder flagExclude (inl config)))) =
    (if IsNotExist (fs.Stat root "internal/config")
     then size (packages loaded) else 0%nat) ∧
  length (List.filter (λ d, String.eqb (File d) "internal/errors")
            (allErrors (validateProject Match root rangeOrder flagExclude (inl config)))) =
    (if IsNotExist (fs.Stat root "internal/errors")
     then size (packages loaded) else 0%nat).
Proof. apply required_directory_count. Qed.

(** C5, as the code has it: in a run that gets as far as the rules,
    the checker of the centralized configuration reports against
    "internal/config" once for every loaded package when [os.Stat]
    answers that the path does not exist (as many Diagnostics as
    packages, none when no package was loaded), and not at all when
    [os.Stat] succeeds (on a directory or on a regular file) or fails
    in another way; each of these Diagnostics is an error without
    line and column. *)
Theorem one_config_diagnostic_per_package
    Match root rangeOrder flagExclude config loaded :
  fs.Stat root "go.mod" ≠ fs.NotExist →
  parseProject Match (mergeExclude flagExclude config) root = (loaded, None) →
  length (List.filter (λ d, String.eqb (File d) "internal/config")
            (allErrors (validateProject Match root rangeOrder flagExclude (inl config)))) =
    (if IsNotExist (fs.Stat root "internal/config")
     then size (packages loaded) else 0%nat) ∧
  Forall (λ d, Line d = 0 ∧ Column d = 0 ∧ Severity d = "error")
         (List.filter (λ d, String.eqb (File d) "internal/config")
            (allErrors (validateProject Match root rangeOrder flagExclude (inl config)))).
Proof.
  intros Hmod Hparse.
  destruct (required_directory_count Match root rangeOrder flagExclude config loaded
              Hmod Hparse) as [Hlen _].
  split; [exact Hlen|].
  destruct (fs.Stat root "internal/config") eqn:Hstat; simpl in Hlen.
  2: { by apply (config_diagnostics_when_missing Match root rangeOrder flagExclude
                   config loaded). }
  all: destruct (List.filter _ _); [constructor | discriminate Hlen].
Qed.

Lemma one_config_diagnostic_per_package_witness :
  size (packages (fst (parseProject Match [] noConfigDirTree))) = 2%nat ∧
  length (List.filter (λ d, String.eqb (File d) "internal/config")
            (allErrors (validateProject Match noConfigDirTree inOrder [] (inl noConfig)))) =
    size (packages (fst (parseProject Match [] noConfigDirTree))) ∧
  Forall (λ d, Line d = 0 ∧ Column d = 0 ∧ Severity d = "error")
         (List.filter (λ d, String.eqb (File d) "internal/config")
            (allErrors (validateProject Match noConfigDirTree inOrder [] (inl noConfig)))).
Proof.
  split; [by vm_compute|].
  apply (one_config_diagnostic_per_package Match noConfigDirTree inOrder [] noConfig
           (fst (parseProject Match [] noConfigDirTree))).
  - by vm_compute.
  - by vm_compute.
Defined.

Lemma required_directory_diagnostics_witness :
  fs.Stat noErrorsDirTree "internal/config" ≠ fs.NotExist ∧
  fs.Stat noErrorsDirTree "internal/errors" = fs.NotExist ∧
  length (List.filter (λ d, String.eqb (File d) "internal/config")
            (allErrors (validateProject Match noErrorsDirTree inOrder [] (inl noConfig)))) =
    0%nat ∧
  length (List.filter (λ d, String.eqb (File d) "internal/errors")
            (allErrors (validateProject Match noErrorsDirTree inOrder [] (inl noConfig)))) =
    2%nat.
Proof.
  split; [by vm_compute|]. split; [by vm_compute|].
  apply (required_directory_diagnostics Match noErrorsDirTree inOrder [] noConfig
           (fst (parseProject Match [] noErrorsDirTree))).
  - by vm_compute.
  - by vm_compute.
Defined.

(** * The external type resolver *)

Lemma firstSome_Some {A B} (f : A → option B) l b :
  firstSome f l = Some b → ∃ x, x ∈ l ∧ f x = Some b.
Proof.
  induction l as [|x l IH]; simpl; [discriminate|].
  destruct (f x) as [b'|] eqn:Hx.
  - intros [= <-]. exists x. split; [apply list_elem_of_here | exact Hx].
  - intros H. destruct (IH H) as (y & Hy & Hfy).
    exists y. split; [by apply list_elem_of_further | exact Hfy].
Qed.

Lemma firstSome_agree {A B} (f : A → option B) l b :
  (∀ x, x ∈ l → f x = None ∨ f x = Some b) →
  (∃ x, x ∈ l ∧ f x = Some b) →
  firstSome f l = Some b.
Proof.
  induction l as [|x l IH]; intros Hall (y & Hy & Hfy); [by apply elem_of_nil in Hy|].
  simpl. destruct (Hall x (list_elem_of_here _ _)) as [Hx|Hx]; rewrite Hx; [|reflexivity].
  apply IH.
  - intros z Hz. apply Hall. by apply list_elem_of_further.
  - apply elem_of_cons in Hy as [->|Hy]; [congruence|]. by exists y.
Qed.

Lemma firstSome_None {A B} (f : A → option B) l :
  (∀ x, x ∈ l → f x = None) → firstSome f l = None.
Proof.
  induction l as [|x l IH]; intros Hall; [reflexivity|].
  simpl. rewrite (Hall x (list_elem_of_here _ _)).
  apply IH. intros z Hz. apply Hall. by apply list_elem_of_further.
Qed.

(** X14: [checkTypeInPackage] does not depend on the order in which
    the files of the package are visited when the files that declare
    the type agree on what it is: the answer is then what they say,
    and it is [false] when no file declares the type. *)
Theorem checkTypeInPackage_when_files_agree rangeOrder pkg typeName s b :
  (∀ k file, ast.pkg_Files pkg !! k = Some file →
             checkTypeInFile typeName file = None ∨
             checkTypeInFile typeName file = Some b) →
  ((∃ k file, ast.pkg_Files pkg !! k = Some file ∧
              checkTypeInFile typeName file = Some b) →
   fst (checkTypeInPackage rangeOrder pkg typeName s) = b) ∧
  ((∀ k file, ast.pkg_Files pkg !! k = Some file →
              checkTypeInFile typeName file = None) →
   fst (checkTypeInPackage rangeOrder pkg typeName s) = false).
Proof.
  intros Hagree.
  unfold checkTypeInPackage, mbind, M_bind.
  pose proof (λ k v, range_entries rangeOrder (ast.pkg_Files pkg) s k v) as Hin.
  assert (∀ k v, ast.pkg_Files pkg !! k = Some v →
                 (k, v) ∈ fst (range rangeOrder (ast.pkg_Files pkg) s)) as Hout.
  { intros k v Hkv. unfold range. simpl. rewrite (visit_perm rangeOrder).
    by apply elem_of_map_to_list. }
  destruct (range rangeOrder (ast.pkg_Files pkg) s) as [files s1]. simpl in *.
  split.
  - intros (k & file & Hk & Hfile).
    rewrite (firstSome_agree _ files b); [reflexivity| |].
    + intros [k' f'] Hx. apply Hagree with k'. by apply Hin.
    + exists (k, file). split; [by apply Hout | exact Hfile].
  - intros Hnone. rewrite firstSome_None; [reflexivity|].
    intros [k' f'] Hx. apply Hnone with k'. by apply Hin.
Qed.

Lemma checkTypeInPackage_when_files_agree_witness :
  fst (checkTypeInPackage reversed twoFilePackage "Repo" freshRun) = true ∧
  fst (checkTypeInPackage inOrder twoFilePackage "Other" freshRun) = false.
Proof.
  split.
  - apply (checkTypeInPackage_when_files_agree reversed twoFilePackage "Repo" freshRun true).
    + intros k file Hk. unfold twoFilePackage in Hk. simpl in Hk.
      apply lookup_insert_Some in Hk as [[_ <-]|[_ Hk]]; [by right|].
      apply lookup_singleton_Some in Hk as [_ <-]. by left.
    + exists "pkg/repo.go", repoFile. split; [by vm_compute | reflexivity].
  - apply (checkTypeInPackage_when_files_agree inOrder twoFilePackage "Other" freshRun true).
    + intros k file Hk. unfold twoFilePackage in Hk. simpl in Hk.
      apply lookup_insert_Some in Hk as [[_ <-]|[_ Hk]]; [by left|].
      apply lookup_singleton_Some in Hk as [_ <-]. by left.
    + intros k file Hk. unfold twoFilePackage in Hk. simpl in Hk.
      apply lookup_insert_Some in Hk as [[_ <-]|[_ Hk]]; [reflexivity|].
      by apply lookup_singleton_Some in Hk as [_ <-].
Defined.

Section Resolver.

Variable Match : string → string → option bool.
Variable root : list fs.Node.
Variable rangeOrder : RangeOrder.

(** A lookup that misses the cache. *)
Lemma isExternalInterface_miss packagePath typeName s :
  externalPackageCache s !! packagePath = None →
  isExternalInterface Match root rangeOrder packagePath typeName s =
  match localPackage Match root packagePath with
  | Some pkg =>
    checkTypeInPackage rangeOrder pkg typeName
      {| externalPackageCache := <[packagePath := pkg]> (externalPackageCache s);
         ranges := ranges s |}
  | None => (false, s)
  end.
Proof.
  intros Hmiss. unfold isExternalInterface, localPackage, localPath, mbind, M_bind, getCache.
  rewrite Hmiss.
  destruct (fs.Stat root _); try reflexivity.
  destruct (Glob Match root _ "*.go") as [pkgFiles|]; [|reflexivity].
  destruct (parsedFiles root pkgFiles) as [|first files]; reflexivity.
Qed.

(** A lookup that hits the cache. *)
Lemma isExternalInterface_hit packagePath typeName s pkg :
  externalPackageCache s !! packagePath = Some pkg →
  isExternalInterface Match root rangeOrder packagePath typeName s =
  checkTypeInPackage rangeOrder pkg typeName s.
Proof.
  intros Hhit. unfold isExternalInterface, mbind, M_bind, getCache. by rewrite Hhit.
Qed.

Lemma checkTypeInPackage_cache pkg typeName s :
  externalPackageCache (snd (checkTypeInPackage rangeOrder pkg typeName s)) =
  externalPackageCache s.
Proof. reflexivity. Qed.

Lemma checkTypeInPackage_true pkg typeName s :
  fst (checkTypeInPackage rangeOrder pkg typeName s) = true →
  ∃ k file, ast.pkg_Files pkg !! k = Some file ∧
            checkTypeInFile typeName file = Some true.
Proof.
  unfold checkTypeInPackage, mbind, M_bind.
  pose proof (λ k v, range_entries rangeOrder (ast.pkg_Files pkg) s k v) as Hin.
  destruct (range rangeOrder (ast.pkg_Files pkg) s) as [files s1]. simpl in *.
  destruct (firstSome _ files) as [b|] eqn:Hfirst; simpl; [|discriminate].
  intros ->. apply firstSome_Some in Hfirst as ([k file] & Hx & Hfile).
  exists k, file. split; [by apply Hin | exact Hfile].
Qed.

Lemma isExternalInterface_CacheValid packagePath typeName s :
  CacheValid Match root s →
  CacheValid Match root
    (snd (isExternalInterface Match root rangeOrder packagePath typeName s)).
Proof.
  intros Hvalid.
  destruct (externalPackageCache s !! packagePath) as [pkg|] eqn:Hcache.
  - rewrite (isExternalInterface_hit _ _ _ _ Hcache).
    intros p q. rewrite checkTypeInPackage_cache. apply Hvalid.
  - rewrite (isExternalInterface_miss _ _ _ Hcache).
    destruct (localPackage Match root packagePath) as [pkg|] eqn:Hlocal; [|exact Hvalid].
    intros p q. rewrite checkTypeInPackage_cache. simpl.
    destruct (decide (packagePath = p)) as [<-|Hne].
    + rewrite lookup_insert_eq. by intros [= <-].
    + rewrite lookup_insert_ne by done. apply Hvalid.
Qed.

Lemma isExternalInterface_localPackage packagePath typeName s :
  CacheValid Match root s →
  fst (isExternalInterface Match root rangeOrder packagePath typeName s) = true →
  ∃ pkg k file,
    localPackage Match root packagePath = Some pkg ∧
    ast.pkg_Files pkg !! k = Some file ∧
    checkTypeInFile typeName file = Some true.
Proof.
  intros Hvalid.
  destruct (externalPackageCache s !! packagePath) as [pkg|] eqn:Hcache.
  - rewrite (isExternalInterface_hit _ _ _ _ Hcache). intros Htrue.
    apply checkTypeInPackage_true in Htrue as (k & file & Hk & Hfile).
    exists pkg, k, file. split; [by apply Hvalid | by split].
  - rewrite (isExternalInterface_miss _ _ _ Hcache).
    destruct (localPackage Match root packagePath) as [pkg|] eqn:Hlocal; [|discriminate].
    intros Htrue.
    apply checkTypeInPackage_true in Htrue as (k & file & Hk & Hfile).
    by exists pkg, k, file.
Qed.

Lemma indexFiles_lookup pkgFiles files m k file :
  indexFiles pkgFiles files m !! k = Some file →
  m !! k = Some file ∨ file ∈ files.
Proof.
  revert pkgFiles m. induction files as [|f files IH]; intros pkgFiles m; simpl.
  - destruct pkgFiles; by left.
  - destruct pkgFiles as [|key pkgFiles]; [by left|].
    intros H. apply IH in H as [H|H]; [|right; by apply list_elem_of_further].
    destruct (decide (key = k)) as [<-|Hne].
    + rewrite lookup_insert_eq in H. injection H as <-. right. apply list_elem_of_here.
    + rewrite lookup_insert_ne in H by done. by left.
Qed.

Lemma parsedFiles_elem pkgFiles file :
  file ∈ parsedFiles root pkgFiles →
  ∃ pkgFile n,
    pkgFile ∈ pkgFiles ∧
    strings.HasSuffix pkgFile "_test.go" = false ∧
    fs.Stat root pkgFile = fs.Found n ∧
    fs.content n = fs.Parsed file.
Proof.
  intros H. apply list_elem_of_In in H. unfold parsedFiles in H.
  apply in_flat_map in H as (pkgFile & Hin & H).
  destruct (strings.HasSuffix pkgFile "_test.go") eqn:Htest; [by destruct H|].
  destruct (fs.Stat root pkgFile) as [n| |] eqn:Hstat; try by destruct H.
  destruct (fs.content n) as [| |f] eqn:Hc; try by destruct H.
  destruct H as [<-|[]].
  exists pkgFile, n. split; [by apply list_elem_of_In | by repeat split].
Qed.

End Resolver.

(** X15: from a state whose cache holds only packages of their local
    directories (as the empty cache does), [isExternalInterface]
    answers [true] only if a Go file that [filepath.Glob] finds
    directly in the local directory of the import path, is no test
    file, can be read and parses, declares the type as an interface;
    and it leaves such a state behind. *)
Theorem external_interface_is_declared_locally
    Match root rangeOrder packagePath typeName s :
  CacheValid Match root s →
  CacheValid Match root
    (snd (isExternalInterface Match root rangeOrder packagePath typeName s)) ∧
  (fst (isExternalInterface Match root rangeOrder packagePath typeName s) = true →
   ∃ pkgFiles pkgFile n file,
     Glob Match root (localPath packagePath) "*.go" = Some pkgFiles ∧
     pkgFile ∈ pkgFiles ∧
     strings.HasSuffix pkgFile "_test.go" = false ∧
     fs.Stat root pkgFile = fs.Found n ∧
     fs.content n = fs.Parsed file ∧
     checkTypeInFile typeName file = Some true).
Proof.
  intros Hvalid. split; [by apply isExternalInterface_CacheValid|].
  intros Htrue.
  apply isExternalInterface_localPackage in Htrue as (pkg & k & file & Hlocal & Hk & Hfile);
    [|exact Hvalid].
  unfold localPackage in Hlocal.
  destruct (fs.Stat root (localPath packagePath)); try discriminate.
  destruct (Glob Match root _ "*.go") as [pkgFiles|]; [|discriminate].
  destruct (parsedFiles root pkgFiles) as [|first files] eqn:Hparsed; [discriminate|].
  injection Hlocal as <-. cbn [ast.pkg_Files] in Hk.
  apply indexFiles_lookup in Hk as [Hk|Hk]; [by rewrite lookup_empty in Hk|].
  rewrite <- Hparsed in Hk.
  apply parsedFiles_elem in Hk as (pkgFile & n' & H1 & H2 & H3 & H4).
  by exists pkgFiles, pkgFile, n', file.
Qed.

Lemma external_interface_is_declared_locally_witness :
  fst (isExternalInterface Match storeTree inOrder
         "github.com/nex-prospect/nex-core-service/store" "Repo" freshRun) = true ∧
  ∃ pkgFiles pkgFile n file,
    Glob Match storeTree
         (localPath "github.com/nex-prospect/nex-core-service/store") "*.go" =
      Some pkgFiles ∧
    pkgFile ∈ pkgFiles ∧
    strings.HasSuffix pkgFile "_test.go" = false ∧
    fs.Stat storeTree pkgFile = fs.Found n ∧
    fs.content n = fs.Parsed file ∧
    checkTypeInFile "Repo" file = Some true.
Proof.
  split; [by vm_compute|].
  apply (external_interface_is_declared_locally Match storeTree inOrder
           "github.com/nex-prospect/nex-core-service/store" "Repo" freshRun).
  - intros p pkg H. simpl in H. by rewrite lookup_empty in H.
  - by vm_compute.
Defined.

(** ** The cache during a run *)

Lemma collect_keeps {A} (Inv : RunState → Prop)
    (f : A → M (list ValidationError)) l :
  (∀ x, x ∈ l → ∀ s, Inv s → Inv (snd (f x s))) →
  ∀ s, Inv s → Inv (snd (collect f l s)).
Proof.
  induction l as [|x l IH]; intros Hf s Hs; [exact Hs|].
  rewrite collect_cons.
  pose proof (Hf x (list_elem_of_here _ _) s Hs) as Hx. destruct (f x s) as [e s1].
  assert (Inv (snd (collect f l s1))) as Hl.
  { apply IH; [|exact Hx]. intros y Hy. apply Hf. by apply list_elem_of_further. }
  by destruct (collect f l s1) as [es s2].
Qed.

Section CacheInRun.

Variable Match : string → string → option bool.
Variable root : list fs.Node.
Variable rangeOrder : RangeOrder.

(** A property of the cache alone that [isExternalInterface] keeps. *)
Variable Inv : RunState → Prop.
Hypothesis Inv_cache :
  ∀ s s', externalPackageCache s = externalPackageCache s' → Inv s → Inv s'.
Hypothesis Inv_isExternalInterface :
  ∀ packagePath typeName s,
    Inv s → Inv (snd (isExternalInterface Match root rangeOrder packagePath typeName s)).

Lemma range_keeps {A} (m : gmap string A) s :
  Inv s → Inv (snd (range rangeOrder m s)).
Proof. apply Inv_cache. reflexivity. Qed.

Lemma pointerField_keeps what filePath file imports field s :
  Inv s →
  Inv (snd (pointerField Match root rangeOrder what filePath file imports field s)).
Proof.
  intros Hs. unfold pointerField.
  destruct (ast.Type_ field) as [| star x | | | | |]; try exact Hs.
  destruct x as [typeName | | sx typeName | | | |]; try exact Hs.
  destruct sx as [pkgIdent | | | | | |]; try exact Hs.
  destruct (imports !! pkgIdent) as [packagePath|]; [|exact Hs].
  unfold mbind, M_bind.
  pose proof (Inv_isExternalInterface packagePath typeName s Hs) as H.
  by destruct (isExternalInterface _ _ _ _ _ s) as [b s'].
Qed.

Lemma inspectNode_keeps filePath file imports node s :
  Inv s →
  Inv (snd (inspectNode Match root rangeOrder filePath file imports node s)).
Proof.
  intros Hs. destruct node as [| d | | | | e | |]; try exact Hs.
  - destruct d as [|n]; [exact Hs|]. unfold inspectNode, mbind, M_bind.
    destruct (ast.fd_Params n) as [params|]; [|exact Hs].
    pose proof (collect_keeps Inv
                  (pointerField Match root rangeOrder "Function parameter"
                     filePath file imports) params
                  (λ x _ s1, pointerField_keeps _ _ _ _ x s1) s Hs) as H.
    by destruct (collect _ params s) as [ps s1].
  - destruct e as [| star x | | fields | | |]; try exact Hs.
    + by destruct x.
    + simpl. apply collect_keeps; [|exact Hs].
      intros x _ s1. apply pointerField_keeps.
Qed.

Lemma rules_keep rule pkg s :
  rule ∈ rules Match root rangeOrder →
  Inv s → Inv (snd (vr_Check rule pkg s)).
Proof.
  intros Hrule Hs. unfold rules in Hrule.
  repeat (apply elem_of_cons in Hrule as [->|Hrule]); [..|by apply elem_of_nil in Hrule];
    simpl; try exact Hs.
  - by apply (range_keeps (ast.pkg_Files pkg)).
  - unfold validateInterfaceUsage, mbind, M_bind.
    pose proof (range_keeps (ast.pkg_Files pkg) s Hs) as H1.
    destruct (range rangeOrder (ast.pkg_Files pkg) s) as [files s1].
    apply collect_keeps; [|exact H1]. intros [filePath file] _ s2 H2.
    apply collect_keeps; [|exact H2]. intros node _ s3. apply inspectNode_keeps.
  - by apply (range_keeps (ast.pkg_Files pkg)).
Qed.

Lemma runRules_keep pkgs s :
  Inv s → Inv (snd (runRules Match root rangeOrder pkgs s)).
Proof.
  unfold runRules. apply collect_keeps. intros rule Hrule s1 H1.
  unfold runRule, mbind, M_bind.
  pose proof (range_keeps pkgs s1 H1) as H2.
  destruct (range rangeOrder pkgs s1) as [ps s2].
  apply collect_keeps; [|exact H2]. intros [name pkg] _ s3. by apply rules_keep.
Qed.

End CacheInRun.

Lemma isExternalInterface_cache_grows
    Match root rangeOrder packagePath typeName s :
  externalPackageCache s ⊆
  externalPackageCache
    (snd (isExternalInterface Match root rangeOrder packagePath typeName s)).
Proof.
  destruct (externalPackageCache s !! packagePath) as [pkg|] eqn:Hcache.
  - by rewrite (isExternalInterface_hit _ _ _ _ _ _ _ Hcache), checkTypeInPackage_cache.
  - rewrite (isExternalInterface_miss _ _ _ _ _ _ Hcache).
    destruct (localPackage Match root packagePath) as [pkg|]; [|done].
    rewrite checkTypeInPackage_cache. simpl. by apply insert_subseteq.
Qed.

(** X16: during the rules of a run the resolver cache only grows, no
    entry is removed or replaced, and when every entry it starts with
    is the package of its local directory (as in the empty cache of a
    new run), so is every entry it ends with. *)
Theorem resolver_cache_grows_and_stays_valid Match root rangeOrder pkgs s :
  CacheValid Match root s →
  CacheValid Match root (snd (runRules Match root rangeOrder pkgs s)) ∧
  externalPackageCache s ⊆
    externalPackageCache (snd (runRules Match root rangeOrder pkgs s)).
Proof.
  intros Hvalid.
  apply (runRules_keep Match root rangeOrder
           (λ s', CacheValid Match root s' ∧
                  externalPackageCache s ⊆ externalPackageCache s')).
  - intros s1 s2 Heq [H1 H2]. split.
    + intros p pkg. rewrite <- Heq. apply H1.
    + by rewrite <- Heq.
  - intros packagePath typeName s1 [H1 H2]. split.
    + by apply isExternalInterface_CacheValid.
    + etrans; [exact H2|]. apply isExternalInterface_cache_grows.
  - split; [exact Hvalid | done].
Qed.

Lemma resolver_cache_grows_and_stays_valid_witness :
  is_Some (externalPackageCache
             (snd (runRules Match storeTree inOrder importerPackages freshRun))
           !! "github.com/nex-prospect/nex-core-service/store") ∧
  map Message (fst (runRules Match storeTree inOrder importerPackages freshRun)) =
    [ "Struct field 'repo' has type '*Repo' - pointer to interface is an anti-pattern, use 'Repo' instead";
      "Missing internal/config package - GEAR requires centralized configuration";
      "Missing internal/errors package - GEAR requires systematic error handling" ] ∧
  CacheValid Match storeTree
    (snd (runRules Match storeTree inOrder importerPackages freshRun)) ∧
  externalPackageCache freshRun ⊆
    externalPackageCache (snd (runRules Match storeTree inOrder importerPackages freshRun)).
Proof.
  split; [vm_compute; by eexists|]. split; [by vm_compute|].
  apply (resolver_cache_grows_and_stays_valid Match storeTree inOrder
           importerPackages freshRun).
  intros p pkg H. simpl in H. by rewrite lookup_empty in H.
Defined.

(** * Interface usage is resolved file by file *)

Lemma declare_Typ name obj scope n t :
  declare name obj scope !! n = Some (Typ t) →
  scope !! n = Some (Typ t) ∨ obj = Typ t.
Proof.
  unfold declare. destruct (String.eqb name "_"); [by left|].
  destruct (scope !! name) eqn:Hname; [by left|].
  destruct (decide (name = n)) as [->|Hne].
  - rewrite lookup_insert_eq. intros [= ->]. by right.
  - rewrite lookup_insert_ne by done. by left.
Qed.

Lemma declareSpec_Typ tok scope spec n t :
  declareSpec tok scope spec !! n = Some (Typ t) →
  scope !! n = Some (Typ t) ∨ spec = ast.SpecType t.
Proof.
  destruct spec as [i|t'|names typ values]; simpl.
  - by left.
  - intros H. apply declare_Typ in H as [H|H]; [by left|]. right. congruence.
  - revert scope. induction names as [|x names IH]; intros scope; simpl; [by left|].
    intros H. apply IH in H as [H|H]; [|by right].
    apply declare_Typ in H as [H|H]; [by left|]. by destruct tok.
Qed.

Lemma declareSpecs_Typ tok specs scope n t :
  foldl (declareSpec tok) scope specs !! n = Some (Typ t) →
  scope !! n = Some (Typ t) ∨ In (ast.SpecType t) specs.
Proof.
  revert scope. induction specs as [|spec specs IH]; intros scope; simpl; [by left|].
  intros H. apply IH in H as [H|H]; [|right; by right].
  apply declareSpec_Typ in H as [H|H]; [by left|]. right. by left.
Qed.

Lemma declareDecls_Typ decls scope n t :
  foldl declareDecl scope decls !! n = Some (Typ t) →
  scope !! n = Some (Typ t) ∨
  ∃ tok specs, In (ast.GenDecl tok specs) decls ∧ In (ast.SpecType t) specs.
Proof.
  revert scope. induction decls as [|decl decls IH]; intros scope; simpl; [by left|].
  intros H. apply IH in H as [H|(tok & specs & H1 & H2)].
  - destruct decl as [tok specs|f]; simpl in H.
    + apply declareSpecs_Typ in H as [H|H]; [by left|].
      right. exists tok, specs. split; [by left | exact H].
    + destruct (ast.fd_Recv f); [by left|].
      destruct (String.eqb (ast.fd_Name f) "init"); [by left|].
      apply declare_Typ in H as [H|H]; [by left | discriminate].
  - right. exists tok, specs. split; [by right | exact H2].
Qed.

Lemma localInterface_false file name :
  declaresNoInterface file → localInterface file name = false.
Proof.
  intros Hno. unfold localInterface.
  destruct (Scope file !! name) as [[t| | |]|] eqn:Hscope; try reflexivity.
  unfold Scope in Hscope.
  apply declareDecls_Typ in Hscope as [H|(tok & specs & H1 & H2)].
  - by rewrite lookup_empty in H.
  - by apply (Hno tok specs t).
Qed.

Section FileByFile.

Variable Match : string → string → option bool.
Variable root : list fs.Node.
Variable rangeOrder : RangeOrder.

Lemma inspectNode_nothing filePath file node s :
  declaresNoInterface file →
  Imports file = [] →
  fst (inspectNode Match root rangeOrder filePath file (importMap file) node s) = [].
Proof.
  intros Hno Himp.
  assert (importMap file = ∅) as -> by (unfold importMap; by rewrite Himp).
  assert (∀ what field s1,
            fst (pointerField Match root rangeOrder what filePath file ∅ field s1) = [])
    as Hfield.
  { intros what field s1. unfold pointerField.
    destruct (ast.Type_ field) as [| star x | | | | |]; try reflexivity.
    destruct x as [typeName | | sx typeName | | | |]; try reflexivity.
    - simpl. by rewrite localInterface_false.
    - by destruct sx. }
  destruct node as [| d | | | | e | |]; try reflexivity.
  - destruct d as [|n]; [reflexivity|]. unfold inspectNode, mbind, M_bind.
    assert (match ast.fd_Results n with
            | Some results => flat_map (pointerResult filePath file) results
            | None => []
            end = []) as Hrs.
    { destruct (ast.fd_Results n) as [results|]; [|reflexivity].
      induction results as [|r results IH]; [reflexivity|]. simpl. rewrite IH.
      unfold pointerResult. destruct (ast.Type_ r) as [| star x | | | | |]; try reflexivity.
      destruct x; try reflexivity. by rewrite localInterface_false. }
    destruct (ast.fd_Params n) as [params|].
    + pose proof (collect_nil
                    (pointerField Match root rangeOrder "Function parameter"
                       filePath file ∅) params (λ x _ s1, Hfield _ x s1) s) as Hps.
      destruct (collect _ params s) as [ps s1]. simpl in *. by rewrite Hps, Hrs.
    + simpl. exact Hrs.
  - destruct e as [| star x | | fields | | |]; try reflexivity.
    + destruct x; try reflexivity. simpl. by rewrite localInterface_false.
    + simpl. apply collect_nil. intros x _ s1. apply Hfield.
Qed.

End FileByFile.

(** X17: the interface usage checker resolves an unqualified type
    name in the scope of the file alone: nothing is reported against
    a file that declares no interface type and has no import,
    whatever the other files of its package declare (a pointer to an
    interface of a sibling file goes unnoticed). *)
Theorem interface_usage_is_resolved_per_file
    Match root rangeOrder pkg filePath file s :
  ast.pkg_Files pkg !! filePath = Some file →
  declaresNoInterface file →
  Imports file = [] →
  Forall (λ d, File d ≠ filePath)
         (fst (validateInterfaceUsage Match root rangeOrder pkg s)).
Proof.
  intros Hfile Hno Himp.
  unfold validateInterfaceUsage, mbind, M_bind.
  pose proof (λ k v, range_entries rangeOrder (ast.pkg_Files pkg) s k v) as Hin.
  destruct (range rangeOrder (ast.pkg_Files pkg) s) as [files s1]. simpl in Hin.
  apply collect_Forall. intros [k f] Hx s2. apply Hin in Hx.
  destruct (decide (k = filePath)) as [->|Hne].
  - assert (f = file) as -> by congruence.
    rewrite collect_nil; [constructor|].
    intros node _ s3. by apply inspectNode_nothing.
  - eapply Forall_impl.
    + apply collect_Forall. intros node _ s3. apply inspectNode_fields.
    + intros d [_ ->]. exact Hne.
Qed.

Lemma interface_usage_is_resolved_per_file_witness :
  localInterface repoFile "Repo" = true ∧
  fst (validateInterfaceUsage Match [] inOrder twoFilePackage freshRun) = [] ∧
  Forall (λ d, File d ≠ "pkg/service.go")
         (fst (validateInterfaceUsage Match [] inOrder twoFilePackage freshRun)).
Proof.
  split; [by vm_compute|]. split; [by vm_compute|].
  apply (interface_usage_is_resolved_per_file Match [] inOrder twoFilePackage
           "pkg/service.go" userFile freshRun).
  - by vm_compute.
  - intros tok specs t [Hd|[]] Hs. injection Hd as <- <-.
    destruct Hs as [Hs|[]]. by injection Hs as <-.
  - reflexivity.
Defined.

(** * The module name written by [init] and read by [add-domain] *)

Lemma append_cons c s t : String c s +:+ t = String c (s +:+ t).
Proof. reflexivity. Qed.

Lemma append_empty_l t : "" +:+ t = t.
Proof. reflexivity. Qed.

Lemma rev_app_rev_app s a b :
  String.rev_app (String.rev_app s a) b = String.rev_app a (s +:+ b).
Proof.
  revert a b. induction s as [|c s IH]; intros a b; [reflexivity|].
  rewrite append_cons. simpl. by rewrite IH.
Qed.

Lemma append_empty_r s : s +:+ "" = s.
Proof.
  induction s as [|c s IH]; [reflexivity|]. by rewrite append_cons, IH.
Qed.

Lemma rev_rev s : String.rev (String.rev s) = s.
Proof.
  unfold String.rev. rewrite rev_app_rev_app. simpl. apply append_empty_r.
Qed.

Lemma append_assoc s1 s2 s3 : (s1 +:+ s2) +:+ s3 = s1 +:+ s2 +:+ s3.
Proof.
  induction s1 as [|c s1 IH]; [reflexivity|]. by rewrite !append_cons, IH.
Qed.

(** The first element of [strings.Split] is the text before the first
    separator. *)
Lemma splitGo_first sep line cur rest :
  strings.Contains line (String sep "") = false →
  strings.splitGo sep cur (line +:+ String sep rest) =
  String.rev (String.rev_app line cur) :: strings.splitGo sep "" rest.
Proof.
  revert cur. induction line as [|c line IH]; intros cur Hno.
  - rewrite append_empty_l. simpl. by rewrite Ascii.eqb_refl.
  - rewrite append_cons. simpl in *.
    apply orb_false_iff in Hno as [Hc Hline].
    destruct (Ascii.eqb c sep) eqn:E.
    + apply Ascii.eqb_eq in E. subst c.
      destruct (ascii_dec sep sep); [by destruct line | done].
    + by apply IH.
Qed.

Lemma substring_all s : String.substring 0 (String.length s) s = s.
Proof. induction s as [|c s IH]; simpl; [reflexivity|]. by rewrite IH. Qed.

Lemma substring_after p s :
  String.substring (String.length p) (String.length (p +:+ s) - String.length p) (p +:+ s)
  = s.
Proof.
  induction p as [|c p IH].
  - rewrite append_empty_l. simpl. rewrite Nat.sub_0_r. apply substring_all.
  - rewrite append_cons. simpl. exact IH.
Qed.

Lemma Contains_append_false p s sep :
  strings.Contains p (String sep "") = false →
  strings.Contains s (String sep "") = false →
  strings.Contains (p +:+ s) (String sep "") = false.
Proof.
  intros Hp Hs. induction p as [|c p IH]; [exact Hs|].
  rewrite append_cons. simpl in *.
  apply orb_false_iff in Hp as [Hc Hp].
  rewrite (IH Hp), orb_false_r.
  destruct (ascii_dec sep c); [by destruct p | reflexivity].
Qed.

Lemma HasPrefix_append p s : strings.HasPrefix (p +:+ s) p = true.
Proof.
  unfold strings.HasPrefix. induction p as [|c p IH].
  - by destruct s.
  - rewrite append_cons. simpl. by destruct (ascii_dec c c).
Qed.

(** X18: [add-domain] reads back the module name that [init] wrote:
    on the content [generateGoMod] produces for a module name without
    a line feed, [getModuleName] returns that name, with the white
    space around it removed, for every choice of web handler and
    ORM. *)
Theorem module_name_round_trip moduleName webHandler orm :
  strings.Contains moduleName LF = false →
  getModuleName (Some (generateGoMod moduleName webHandler orm)) =
  inl (strings.TrimSpace moduleName).
Proof.
  intros Hno.
  assert (∃ rest, generateGoMod moduleName webHandler orm =
                  ("module " +:+ moduleName) +:+ String newline rest) as [rest Hgen].
  { unfold generateGoMod, LF.
    destruct (String.eqb webHandler "gin"), (String.eqb orm "gorm");
      eexists; rewrite !append_assoc; reflexivity. }
  unfold getModuleName, strings.Split. rewrite Hgen.
  rewrite splitGo_first.
  - fold (String.rev ("module " +:+ moduleName)). rewrite rev_rev.
    unfold strings.TrimPrefix. rewrite !HasPrefix_append.
    by rewrite (substring_after "module " moduleName).
  - by apply Contains_append_false.
Qed.

Lemma module_name_round_trip_witness :
  getModuleName (Some (generateGoMod " github.com/acme/shop " "gin" "sqlx")) =
  inl "github.com/acme/shop".
Proof.
  by apply (module_name_round_trip " github.com/acme/shop " "gin" "sqlx").
Defined.

(** * Files below an excluded directory *)

Lemma Contains_append a b c : strings.Contains (a +:+ b +:+ c) b = true.
Proof.
  induction a as [|x a IH].
  - rewrite append_empty_l.
    pose proof (HasPrefix_append b c) as H. unfold strings.HasPrefix in H.
    destruct (b +:+ c); unfold strings.Contains; by rewrite H.
  - rewrite append_cons.
    change (strings.Contains (String x (a +:+ b +:+ c)) b)
      with (String.prefix b (String x (a +:+ b +:+ c))
            || strings.Contains (a +:+ b +:+ c) b).
    rewrite IH. apply orb_true_r.
Qed.

(** X19: every path that contains an exclusion pattern, trimmed of
    its white space, followed by a slash (so every file at any depth
    below a directory named by the pattern) is not loaded: the loader
    [parseProject] never hands it to the parser and it is a file of
    none of the packages the loader returns. *)
Theorem files_below_excluded_directory_never_loaded
    Match excludeDirs root pattern before after :
  pattern ∈ excludeDirs →
  strings.TrimSpace pattern ≠ "" →
  (before +:+ (strings.TrimSpace pattern +:+ "/") +:+ after
     ∉ globalFileSet (fst (parseProject Match excludeDirs root))) ∧
  ¬ Stored (before +:+ (strings.TrimSpace pattern +:+ "/") +:+ after)
           (fst (parseProject Match excludeDirs root)).
Proof.
  intros Hin Hne. apply (excluded_not_loaded _ _ _ _ pattern Hin).
  unfold excludedBy.
  apply String.eqb_neq in Hne. rewrite Hne.
  unfold directoryPathMatch. rewrite Contains_append.
  by rewrite orb_true_r.
Qed.

Lemma files_below_excluded_directory_never_loaded_witness :
  parseProject Match [] generatedTree =
    ({| packages := ∅; globalFileSet := ["pkg/generated/api/types.go"] |},
     Some (ErrParseFile "pkg/generated/api/types.go")) ∧
  snd (parseProject Match ["generated"] generatedTree) = None ∧
  ("pkg/generated/api/types.go"
     ∉ globalFileSet (fst (parseProject Match ["generated"] generatedTree))) ∧
  ¬ Stored "pkg/generated/api/types.go"
           (fst (parseProject Match ["generated"] generatedTree)).
Proof.
  split; [by vm_compute|]. split; [by vm_compute|].
  apply (files_below_excluded_directory_never_loaded Match ["generated"] generatedTree
           "generated" "pkg/" "api/types.go").
  - apply list_elem_of_here.
  - discriminate.
Defined.

(** * How a run ends *)

(** X20: a run ends in one of three ways: [validateProject] returns
    an error and there is no Diagnostic; or the process exits with
    status 1 and some Diagnostic is an error; or [validateProject]
    returns [nil] and every Diagnostic is a warning.  Warnings alone
    never make the run fail, and 1 is the only exit status. *)
Theorem run_ends_in_one_of_three_ways
    Match root rangeOrder flagExclude loadGearConfig :
  (∃ err,
     ending (validateProject Match root rangeOrder flagExclude loadGearConfig) =
       Return (Some err) ∧
     allErrors (validateProject Match root rangeOrder flagExclude loadGearConfig) = []) ∨
  (ending (validateProject Match root rangeOrder flagExclude loadGearConfig) = Exit 1 ∧
   ∃ d, d ∈ allErrors (validateProject Match root rangeOrder flagExclude loadGearConfig) ∧
        Severity d = "error") ∨
  (ending (validateProject Match root rangeOrder flagExclude loadGearConfig) = Return None ∧
   Forall (λ d, Severity d = "warning")
     (allErrors (validateProject Match root rangeOrder flagExclude loadGearConfig))).
Proof.
  pose proof (exit_1_iff_coded_error Match root rangeOrder flagExclude loadGearConfig)
    as Hexit.
  assert (Forall errorOrWarning
            (allErrors (validateProject Match root rangeOrder flagExclude loadGearConfig)))
    as Hall.
  { destruct (validateProject_allErrors Match root rangeOrder flagExclude loadGearConfig)
      as [-> | (config & loaded & _ & _ & ->)]; [constructor|].
    apply runRules_severity. }
  revert Hexit Hall. unfold validateProject.
  destruct (fs.Stat root "go.mod"); [|left; by eexists|];
    (destruct loadGearConfig as [config|err]; [|left; by eexists]);
    (destruct (parseProject _ _ root) as [loaded [err|]]; [left; by eexists|]);
    (destruct (runRules _ _ _ _ _) as [[|d errs] s'];
     [intros _ _; right; right; by split|]);
    cbn [ending allErrors]; intros Hexit Hall;
    (destruct (0 <? countSeverity "error" (d :: errs)) eqn:Hcount;
     [ right; left; split; [reflexivity|]; by apply Hexit
     | right; right; split; [reflexivity|];
       apply Forall_forall; intros x Hx;
       rewrite Forall_forall in Hall;
       (destruct (Hall x Hx) as [Herr|Hwarn]; [|exact Hwarn]);
       assert (Return None = Exit 1) as Habs
         by (apply Hexit; exists x; by split);
       discriminate Habs ]).
Qed.

(** * Unexported interfaces are reported *)

(** X21: whatever the iteration order, every unexported interface
    declared in a [type] declaration of a file of the package gets an
    error Diagnostic of the interface contracts checker, against that
    file and at the position of the declaration. *)
Theorem unexported_interface_reported rangeOrder pkg filePath file t s :
  ast.pkg_Files pkg !! filePath = Some file →
  In t (typeSpecs file) →
  isInterfaceType (ast.ts_Type t) = true →
  IsExported (ast.ts_Name t) = false →
  ∃ d, d ∈ fst (validateInterfaceContracts rangeOrder pkg s) ∧
       File d = filePath ∧
       Line d = ast.Line (ast.ts_Pos t) ∧
       Column d = ast.Column (ast.ts_Pos t) ∧
       Severity d = "error".
Proof.
  intros Hfile Ht Hiface Hexp.
  unfold validateInterfaceContracts, mbind, M_bind.
  assert ((filePath, file) ∈ fst (range rangeOrder (ast.pkg_Files pkg) s)) as Hin.
  { unfold range. simpl. rewrite (visit_perm rangeOrder). by apply elem_of_map_to_list. }
  destruct (range rangeOrder (ast.pkg_Files pkg) s) as [files s1]. simpl in *.
  eexists. split.
  - apply list_elem_of_In, in_flat_map. exists (filePath, file).
    split; [by apply list_elem_of_In|].
    unfold interfaceContractsOfFile. apply in_or_app. right.
    apply in_flat_map. exists t. split.
    + apply filter_In. by split.
    + rewrite Hexp. simpl. left. reflexivity.
  - by repeat split.
Qed.

Lemma unexported_interface_reported_witness :
  ∃ d, d ∈ fst (validateInterfaceContracts reversed
                  {| ast.pkg_Name := "alpha";
                     ast.pkg_Files := {[ "alpha/a.go" := unexportedInterface "alpha" "repo" ]} |}
                  freshRun) ∧
       File d = "alpha/a.go" ∧ Line d = 3 ∧ Column d = 6 ∧ Severity d = "error".
Proof.
  apply (unexported_interface_reported reversed _ "alpha/a.go"
           (unexportedInterface "alpha" "repo")
           {| ast.ts_Name := "repo"; ast.ts_Pos := pos 3 6;
              ast.ts_Type := ast.InterfaceType [] |} freshRun).
  - by vm_compute.
  - by left.
  - reflexivity.
  - reflexivity.
Defined.

(** * Runes *)

(** [strings.TrimSpace] removes the white space of Unicode, and leaves
    the bytes of a broken encoding alone. *)
Lemma TrimSpace_runes :
  strings.TrimSpace (NBSP +:+ "main.go") = "main.go" ∧
  strings.TrimSpace ("x" +:+ NBSP) = "x" ∧
  strings.TrimSpace (" " +:+ NBSP +:+ TAB) = "" ∧
  strings.TrimSpace (" a b ") = "a b" ∧
  strings.TrimSpace (String (Ascii.ascii_of_nat 160) " x ") =
    String (Ascii.ascii_of_nat 160) " x".
Proof. by vm_compute. Qed.

(** A name is exported when its first rune is an upper-case letter,
    of whatever script. *)
Lemma IsExported_runes :
  IsExported "Repo" = true ∧
  IsExported "repo" = false ∧
  IsExported "Étoile" = true ∧
  IsExported "éclair" = false ∧
  IsExported "Ωmega" = true ∧
  IsExported "_Repo" = false ∧
  IsExported "" = false.
Proof. by vm_compute. Qed.
